(** * ObsidianFlowLauncher: vault discovery, note search, note creation

    A shallow embedding of [src/main.py] (class [ObsidianPlugin]) and the
    properties of its discovery, search, cache and note-creation code.

    Conventions of the embedding.
    - Python [str] values are Rocq strings holding the UTF-8 encoding: a
      code point is one [ascii] or a leading byte with its continuation
      bytes.  [len] and slices count code points ([str_len], [str_take]).
    - File-system paths are the strings the program builds with
      [os.path.join] (POSIX flavour).
    - Time stamps ([time.time()], [os.path.getmtime]) are integers: the code
      only compares, negates and subtracts them.
    - A Python exception is an explicit outcome of the function that raises
      it; state mutated before the [raise] is kept, as in Python.
    - Library functions whose result the program only passes on
      ([str.lower], [os.path.relpath], [json.load]) are section variables;
      the clock is a function [now] that renders the current time for a
      [strftime] format. *)

From Stdlib Require Import ZArith Lia Ascii String Permutation Sorted.
From stdpp Require Import base strings list gmap pretty.

#[local] Set Warnings "-register-all".
#[local] Arguments String.append : simpl nomatch.

Local Open Scope string_scope.
Local Open Scope Z_scope.

(** ** Python string primitives *)

Module PyStr.

(** [s.startswith(p)] *)
Definition startswith (s p : string) : bool := String.prefix p s.

(** [s.endswith(suf)] *)
Definition endswith (s suf : string) : bool :=
  let n := String.length s in
  let m := String.length suf in
  (m <=? n)%nat && String.eqb (substring (n - m) m s) suf.

(** [q in s], equivalently [s.find(q) >= 0] *)
Fixpoint contains (q s : string) : bool :=
  String.prefix q s ||
  match s with
  | EmptyString => false
  | String _ s' => contains q s'
  end.

(** A byte [10xxxxxx] continues the code point begun before it. *)
Definition continuation (c : ascii) : bool :=
  let n := nat_of_ascii c in (128 <=? n)%nat && (n <? 192)%nat.

(** [len(s)]: the number of code points. *)
Fixpoint str_len (s : string) : nat :=
  match s with
  | EmptyString => O
  | String c s' => if continuation c then str_len s' else S (str_len s')
  end.

(** [s[:k]] for a literal [k >= 0]: the first [k] code points, each with its
    continuation bytes. *)
Fixpoint str_take (k : nat) (s : string) : string :=
  match s with
  | EmptyString => EmptyString
  | String c s' =>
      if continuation c then String c (str_take k s')
      else match k with
           | O => EmptyString
           | S k' => String c (str_take k' s')
           end
  end.

(** [s[:-k]] for a literal [k > 0], on a text whose last [k] characters
    take one byte each (the code drops the suffix [.md]). *)
Definition drop_last (k : nat) (s : string) : string :=
  substring 0 (String.length s - k) s.

(** [s.replace(old, new)]: every non-overlapping occurrence of [old], scanning
    from the left.  [skip] counts the characters of the occurrence just
    replaced that are still to be passed over. *)
Fixpoint replace_from (old new : string) (skip : nat) (s : string) : string :=
  match s with
  | EmptyString => EmptyString
  | String c s' =>
      match skip with
      | S k => replace_from old new k s'
      | O =>
          if String.prefix old s
          then new +:+ replace_from old new (String.length old - 1) s'
          else String c (replace_from old new 0 s')
      end
  end.

(** With an empty [old], Python puts [new] before every character and at the
    end. *)
Fixpoint intersperse_all (new s : string) : string :=
  match s with
  | EmptyString => new
  | String c s' => new +:+ String c (intersperse_all new s')
  end.

Definition replace (old new s : string) : string :=
  match old with
  | EmptyString => intersperse_all new s
  | String _ _ => replace_from old new 0 s
  end.

(** [s.split('\n')]: never the empty list. *)
Definition newline : ascii := "010"%char.

Fixpoint split_lines (s : string) : list string :=
  match s with
  | EmptyString => [EmptyString]
  | String c s' =>
      if Ascii.eqb c newline then EmptyString :: split_lines s'
      else
        match split_lines s' with
        | l :: ls => String c l :: ls
        | [] => [String c EmptyString]
        end
  end.

(** POSIX [os.path.join(a, b)] *)
Definition join (a b : string) : string :=
  if startswith b "/" then b
  else if String.eqb a "" || endswith a "/" then a +:+ b
  else a +:+ "/" +:+ b.

(** POSIX [os.path.basename(p)]: what follows the last [/]. *)
Fixpoint basename (p : string) : string :=
  match p with
  | EmptyString => EmptyString
  | String c p' =>
      if contains "/" p then basename p' else p
  end.

(** ASCII instance of [str.lower], used for the concrete examples. *)
Definition lower_ascii (c : ascii) : ascii :=
  let n := nat_of_ascii c in
  if (65 <=? n)%nat && (n <=? 90)%nat then ascii_of_nat (n + 32) else c.

Fixpoint ascii_lower (s : string) : string :=
  match s with
  | EmptyString => EmptyString
  | String c s' => String (lower_ascii c) (ascii_lower s')
  end.

End PyStr.

Import PyStr.

Example replace_all_occurrences : replace "ab" "X" "abcabab" = "XcXX".
Proof. reflexivity. Qed.

Example replace_non_overlapping : replace "aa" "b" "aaaaa" = "bba".
Proof. reflexivity. Qed.

Example replace_empty_pattern : replace "" "-" "abc" = "-a-b-c-".
Proof. reflexivity. Qed.

Example split_lines_keeps_trailing : split_lines ("a" +:+ String newline "") = ["a"; ""].
Proof. reflexivity. Qed.

Example join_examples :
  join "/v" "a.md" = "/v/a.md" /\ join "/v/" "a.md" = "/v/a.md" /\
  join "" "a.md" = "a.md" /\ join "/v" "/abs" = "/abs".
Proof. repeat split. Qed.

Example basename_examples :
  basename "/home/u/Vault" = "Vault" /\ basename "Vault" = "Vault" /\
  basename "/home/u/" = "".
Proof. repeat split. Qed.

Lemma split_lines_nonempty (s : string) : split_lines s <> [].
Proof.
  destruct s as [|c s]; simpl; [discriminate|].
  destruct (Ascii.eqb c newline); [discriminate|].
  destruct (split_lines s); discriminate.
Qed.

Lemma string_length_app (s1 s2 : string) :
  String.length (s1 +:+ s2) = (String.length s1 + String.length s2)%nat.
Proof. induction s1 as [|c s1 IH]; simpl; [reflexivity|now rewrite IH]. Qed.

Lemma string_app_assoc (s1 s2 s3 : string) :
  s1 +:+ (s2 +:+ s3) = (s1 +:+ s2) +:+ s3.
Proof. induction s1 as [|c s1 IH]; simpl; [reflexivity|f_equal; exact IH]. Qed.

Lemma string_app_nil_r (s : string) : s +:+ "" = s.
Proof. induction s as [|c s IH]; simpl; [reflexivity|now rewrite IH]. Qed.

(** ** Date-format translation ([obsidian_to_python_format]) *)

Module DateFormat.

(** The token table, in the order of the source.  [windows] stands for
    [platform.system() == 'Windows']. *)
Definition format_mapping (windows : bool) : list (string * string) :=
  [ ("YYYY", "%Y");
    ("YY", "%y");
    ("MMMM", "%B");
    ("MMM", "%b");
    ("MM", "%m");
    ("DD", "%d");
    ("D", if windows then "%#d" else "%-d");
    ("dddd", "%A");
    ("ddd", "%a");
    ("ww", "%U");
    ("w", "%W") ].

(** The loop [for obsidian_code, python_code in format_mapping:
    python_format = python_format.replace(obsidian_code, python_code)]. *)
Definition obsidian_to_python_format (windows : bool) (obsidian_format : string) : string :=
  fold_left (fun python_format '(obsidian_code, python_code) =>
               replace obsidian_code python_code python_format)
            (format_mapping windows) obsidian_format.








End DateFormat.

Import DateFormat.

(** *** A character outside the pattern separates the substitutions *)









(** ** Python list primitives *)

Module PyList.

(** [l[:k]] for an [int] [k]: a negative [k] counts from the end. *)
Definition slice_to {A : Type} (k : Z) (l : list A) : list A :=
  if 0 <=? k then firstn (Z.to_nat k) l
  else firstn (length l - Z.to_nat (- k)) l.

(** [l.remove(x)]: deletes the first element equal to [x]; [None] stands for
    the [ValueError] Python raises when there is none. *)
Fixpoint list_remove (x : string) (l : list string) : option (list string) :=
  match l with
  | [] => None
  | y :: l' =>
      if String.eqb y x then Some l'
      else option_map (cons y) (list_remove x l')
  end.

Section StableSort.
Context {A K : Type} (key : A -> K) (ltb : K -> K -> bool).

(** [list.sort(key=...)] is a stable sort that compares keys with [<] only.
    It is modelled by a stable insertion sort; [stable_sort_unique] below shows
    that every stable sort returns the same list. *)
Fixpoint insert_sorted (x : A) (l : list A) : list A :=
  match l with
  | [] => [x]
  | y :: l' =>
      if ltb (key y) (key x) then y :: insert_sorted x l' else x :: y :: l'
  end.

Definition sort_by (l : list A) : list A := foldr insert_sorted [] l.

End StableSort.

(** Tuple comparison [(a1, b1) < (a2, b2)] on pairs of numbers. *)
Definition pair_ltb (a b : Z * Z) : bool :=
  (fst a <? fst b) || ((fst a =? fst b) && (snd a <? snd b)).

Definition pair_eqb (a b : Z * Z) : bool :=
  (fst a =? fst b) && (snd a =? snd b).

End PyList.

Import PyList.

Example slice_to_examples :
  slice_to 2 [1; 2; 3] = [1; 2] /\ slice_to 5 [1; 2; 3] = [1; 2; 3] /\
  slice_to 0 [1; 2; 3] = [] /\ slice_to (-1) [1; 2; 3] = [1; 2] /\
  slice_to (-7) [1; 2; 3] = [].
Proof. repeat split. Qed.

Example sort_by_is_stable :
  sort_by fst Z.ltb [(2, "a"); (1, "b"); (2, "c"); (1, "d")]
  = [(1, "b"); (1, "d"); (2, "a"); (2, "c")].
Proof. reflexivity. Qed.

(** ** Directory trees and [os.walk] *)

(** What the walks read of a directory tree.
    - [File name content mtime]: [content = None] when opening or decoding the
      file raises; [mtime = None] when [os.path.getmtime] raises.
    - [Dir name listable children]: [listable = false] when listing the
      directory fails (permission denied); [os.walk] is called without
      [onerror], so it skips such a directory silently.
    Symbolic links are not represented. *)
Inductive node : Type :=
| File (name : string) (content : option string) (mtime : option Z)
| Dir (name : string) (listable : bool) (children : list node).

(** Induction on directory trees. *)

Lemma node_tree_ind (P : node -> Prop) :
  (forall f content mtime, P (File f content mtime)) ->
  (forall d listable children, Forall P children -> P (Dir d listable children)) ->
  forall n, P n.
Proof.
  intros HF HD. fix IH 1. intros [f content mtime|d listable children].
  - apply HF.
  - apply HD. induction children as [|c cs IHcs]; constructor; [apply IH|exact IHcs].
Qed.

(** The [dirs] list [os.walk] yields for a directory. *)
Definition dir_names (children : list node) : list string :=
  flat_map (fun c => match c with Dir d _ _ => [d] | File _ _ _ => [] end) children.

(** [os.path.exists(p) and os.path.isdir(p)] for [p = join(root, d)]. *)
Definition has_dir (children : list node) (d : string) : bool :=
  existsb (fun c => match c with Dir d' _ _ => String.eqb d' d | File _ _ _ => false end)
          children.

Definition option_list {A : Type} (o : option A) : list A :=
  match o with Some a => [a] | None => [] end.

(** ** Note search ([search_notes]) *)

(** One element of [results]. *)
Record hit : Type := {
  h_file : string;
  h_path : string;
  h_rel_path : string;
  h_title : string;
  h_preview : string;
  h_date : string;
  h_mtime : Z
}.

Definition no_preview : string := "No preview available".

(** Lines 312-315: [lines = content.split('\n')],
    [preview = lines[0] if lines else "No preview available"], then the cut
    at 100 characters. *)
Definition first_line_preview (content : string) : string :=
  let lines := split_lines content in
  let preview := match lines with l :: _ => l | [] => no_preview end in
  if (100 <? str_len preview)%nat then str_take 100 preview +:+ "..." else preview.

(** The first line of a text: what precedes its first newline. *)
Fixpoint first_line (content : string) : string :=
  match content with
  | EmptyString => EmptyString
  | String c s' => if Ascii.eqb c newline then EmptyString else String c (first_line s')
  end.

Section Search.

(** [str.lower]. *)
Variable lower : string -> string.
(** [os.path.relpath(path, start)]. *)
Variable relpath : string -> string -> string.
(** [datetime.fromtimestamp(mtime).strftime('%Y-%m-%d')]; [None] where
    [fromtimestamp] raises (a time stamp outside the years it supports). *)
Variable date_of : Z -> option string.

(** The body of the inner loop for one entry of [files] (lines 291-327).  An
    exception raised inside the [try] skips the file. *)
Definition note_hit (vault_path query_lower root file : string)
    (content : option string) (mtime : option Z) : option hit :=
  if endswith file ".md" then
    let file_path := join root file in
    match content with
    | None => None
    | Some content =>
        let content_lower := lower content in
        let title_match := contains query_lower (lower (drop_last 3 file)) in
        let content_match := contains query_lower content_lower in
        if title_match || content_match then
          let rel_path := relpath file_path vault_path in
          match mtime with
          | None => None
          | Some mtime =>
              match date_of mtime with
              | None => None
              | Some date_str =>
                  Some {| h_file := file;
                          h_path := file_path;
                          h_rel_path := rel_path;
                          h_title := drop_last 3 file;
                          h_preview := first_line_preview content;
                          h_date := date_str;
                          h_mtime := mtime |}
              end
          end
        else None
    end
  else None.

(** The filter on [dirs] of line 288. *)
Definition search_keeps (d : string) : bool :=
  negb (String.eqb d ".obsidian") && negb (startswith d ".").

(** [results] after the walk of the tree [n] found at path [root]: the hits of
    the directory's own files, then those of each directory left in [dirs], in
    listing order (the entries of one directory have distinct names). *)
Fixpoint search_walk (vault_path query_lower root : string) (n : node) {struct n}
    : list hit :=
  match n with
  | File _ _ _ => []
  | Dir _ false _ => []
  | Dir _ true children =>
      let dirs := List.filter search_keeps (dir_names children) in
      flat_map (fun c => match c with
                         | File f content mtime =>
                             option_list (note_hit vault_path query_lower root f content mtime)
                         | Dir _ _ _ => []
                         end) children
      ++ flat_map (fun c => match c with
                            | Dir d _ _ =>
                                if existsb (String.eqb d) dirs
                                then search_walk vault_path query_lower (join root d) c
                                else []
                            | File _ _ _ => []
                            end) children
  end.

(** The sort key of line 330: [(0 if query_lower in x['title'].lower() else 1,
    -x['mtime'])]. *)
Definition rank (query_lower : string) (x : hit) : Z :=
  if contains query_lower (lower (h_title x)) then 0 else 1.

Definition sort_key (query_lower : string) (x : hit) : Z * Z :=
  (rank query_lower x, - h_mtime x).

(** [search_notes(vault_path, query, limit)], where [n] is the tree found at
    [vault_path].  Nothing in the outer [try] raises in this model, so the
    [except: return []] arm is not taken. *)
Definition search_notes (vault_path : string) (n : node) (query : string) (limit : Z)
    : list hit :=
  let query_lower := lower query in
  let results := search_walk vault_path query_lower vault_path n in
  let results := sort_by (sort_key query_lower) pair_ltb results in
  slice_to limit results.

End Search.

(** *** Facts about the stable sort *)

Section StableSortFacts.
Context {A K : Type} (key : A -> K) (ltb : K -> K -> bool).

(** [x] may stand before [y]: [key y < key x] does not hold. *)
Definition key_le (x y : A) : Prop := ltb (key y) (key x) = false.

Lemma insert_sorted_perm (x : A) (l : list A) :
  Permutation (insert_sorted key ltb x l) (x :: l).
Proof.
  induction l as [|y l IH]; simpl; [reflexivity|].
  destruct (ltb (key y) (key x)); [|reflexivity].
  rewrite IH. apply perm_swap.
Qed.

Lemma sort_by_perm (l : list A) : Permutation (sort_by key ltb l) l.
Proof.
  induction l as [|x l IH]; simpl; [reflexivity|].
  rewrite insert_sorted_perm. now apply perm_skip.
Qed.

Lemma sort_by_length (l : list A) : length (sort_by key ltb l) = length l.
Proof. apply Permutation_length, sort_by_perm. Qed.

(** Stability: elements that the sort cannot tell apart keep their order.
    [p] selects such a class. *)
Lemma insert_sorted_filter (p : A -> bool) (x : A) (l : list A) :
  (forall y, In y l -> p x = true -> p y = true -> ltb (key y) (key x) = false) ->
  List.filter p (insert_sorted key ltb x l) = List.filter p (x :: l).
Proof.
  induction l as [|y l IH]; intros Hcls; simpl; [reflexivity|].
  destruct (ltb (key y) (key x)) eqn:Hlt; [|reflexivity].
  simpl. rewrite IH by (intros z Hz; apply Hcls; now right).
  simpl. destruct (p x) eqn:Hpx, (p y) eqn:Hpy; try reflexivity.
  rewrite (Hcls y (or_introl eq_refl) eq_refl Hpy) in Hlt. discriminate.
Qed.

Lemma sort_by_filter (p : A -> bool) (l : list A) :
  (forall x y, p x = true -> p y = true -> ltb (key y) (key x) = false) ->
  List.filter p (sort_by key ltb l) = List.filter p l.
Proof.
  intros Hcls. induction l as [|x l IH]; simpl; [reflexivity|].
  rewrite insert_sorted_filter by (intros y _; apply Hcls).
  simpl. now rewrite IH.
Qed.

Hypothesis ltb_asym : forall a b, ltb a b = true -> ltb b a = false.
Hypothesis ltb_negtrans :
  forall a b c, ltb a c = true -> ltb a b = true \/ ltb b c = true.

Lemma insert_sorted_sorted (x : A) (l : list A) :
  StronglySorted key_le l -> StronglySorted key_le (insert_sorted key ltb x l).
Proof.
  induction 1 as [|y l Hs IH Hall]; simpl.
  - constructor; constructor.
  - destruct (ltb (key y) (key x)) eqn:Hlt.
    + constructor; [exact IH|].
      rewrite List.Forall_forall. intros z Hz.
      apply (Permutation_in _ (insert_sorted_perm x l)) in Hz.
      destruct Hz as [<-|Hz]; [apply ltb_asym, Hlt|].
      rewrite List.Forall_forall in Hall. now apply Hall.
    + constructor; [now constructor|].
      constructor; [exact Hlt|].
      rewrite List.Forall_forall in Hall |- *. intros z Hz.
      specialize (Hall z Hz). unfold key_le in *.
      destruct (ltb (key z) (key x)) eqn:Hzx; [|reflexivity].
      destruct (ltb_negtrans _ (key y) _ Hzx) as [H|H]; congruence.
Qed.

Lemma sort_by_sorted (l : list A) : StronglySorted key_le (sort_by key ltb l).
Proof.
  induction l as [|x l IH]; simpl; [constructor|].
  now apply insert_sorted_sorted.
Qed.

(** Two sorted lists whose classes of equal keys agree are equal: a stable
    sort has one possible result. *)
Variable keq : K -> K -> bool.
Hypothesis keq_spec : forall a b, keq a b = true <-> a = b.
Hypothesis ltb_total : forall a b, ltb a b = false -> ltb b a = false -> a = b.

Definition same_key (k : K) (x : A) : bool := keq (key x) k.

Lemma ltb_irrefl (a : K) : ltb a a = false.
Proof.
  destruct (ltb a a) eqn:H; [|reflexivity].
  rewrite (ltb_asym _ _ H) in H. discriminate.
Qed.

Lemma same_key_refl (x : A) : same_key (key x) x = true.
Proof. unfold same_key. now apply keq_spec. Qed.

Lemma sorted_classes_unique (l1 l2 : list A) :
  StronglySorted key_le l1 -> StronglySorted key_le l2 ->
  (forall k, List.filter (same_key k) l1 = List.filter (same_key k) l2) ->
  l1 = l2.
Proof.
  intros Hs1. revert l2.
  induction Hs1 as [|x l1 Hs1 IH Hall1]; intros l2 Hs2 Hcls.
  - destruct l2 as [|y l2]; [reflexivity|].
    specialize (Hcls (key y)). simpl in Hcls.
    rewrite same_key_refl in Hcls. discriminate.
  - destruct l2 as [|y l2].
    + specialize (Hcls (key x)). simpl in Hcls.
      rewrite same_key_refl in Hcls. discriminate.
    + apply StronglySorted_inv in Hs2 as [Hs2 Hall2].
      rewrite List.Forall_forall in Hall1, Hall2.
      assert (Hxy : key x = key y).
      { apply ltb_total.
        - destruct (ltb (key x) (key y)) eqn:Hlt; [|reflexivity].
          pose proof (Hcls (key x)) as Hk. simpl in Hk.
          rewrite same_key_refl in Hk.
          assert (Hin : In x (List.filter (same_key (key x)) (y :: l2)))
            by (simpl; rewrite <- Hk; now left).
          apply filter_In in Hin as [[<-|Hin] _].
          + rewrite ltb_irrefl in Hlt. discriminate.
          + specialize (Hall2 x Hin). unfold key_le in Hall2. congruence.
        - destruct (ltb (key y) (key x)) eqn:Hlt; [|reflexivity].
          pose proof (Hcls (key y)) as Hk. simpl in Hk.
          rewrite (same_key_refl y) in Hk.
          assert (Hin : In y (List.filter (same_key (key y)) (x :: l1)))
            by (simpl; rewrite Hk; now left).
          apply filter_In in Hin as [[<-|Hin] _].
          + rewrite ltb_irrefl in Hlt. discriminate.
          + specialize (Hall1 y Hin). unfold key_le in Hall1. congruence. }
      pose proof (Hcls (key y)) as Hk. simpl in Hk.
      rewrite (same_key_refl y) in Hk. rewrite <- Hxy in Hk at 1.
      rewrite same_key_refl in Hk.
      injection Hk as Hhd Htl. subst y. f_equal.
      apply IH; [exact Hs2|].
      intros k. specialize (Hcls k). simpl in Hcls.
      destruct (same_key k x); [now injection Hcls|exact Hcls].
Qed.

Lemma stable_sort_unique (l sorted : list A) :
  StronglySorted key_le sorted ->
  (forall k, List.filter (same_key k) sorted = List.filter (same_key k) l) ->
  sorted = sort_by key ltb l.
Proof.
  intros Hs Hcls. apply sorted_classes_unique; [exact Hs|apply sort_by_sorted|].
  intros k. rewrite Hcls. symmetry. apply sort_by_filter.
  intros x y Hx Hy. unfold same_key in Hx, Hy.
  apply keq_spec in Hx, Hy. rewrite Hx, Hy. apply ltb_irrefl.
Qed.

End StableSortFacts.

(** The tuple order used by the search ranking is a strict total order. *)
Lemma pair_ltb_asym (a b : Z * Z) : pair_ltb a b = true -> pair_ltb b a = false.
Proof. destruct a, b; unfold pair_ltb; simpl. lia. Qed.

Lemma pair_ltb_negtrans (a b c : Z * Z) :
  pair_ltb a c = true -> pair_ltb a b = true \/ pair_ltb b c = true.
Proof. destruct a, b, c; unfold pair_ltb; simpl. lia. Qed.

Lemma pair_eqb_spec (a b : Z * Z) : pair_eqb a b = true <-> a = b.
Proof.
  destruct a as [a1 a2], b as [b1 b2]; unfold pair_eqb; simpl. split.
  - intros H. f_equal; lia.
  - intros [= -> ->]. lia.
Qed.

Lemma pair_ltb_total (a b : Z * Z) :
  pair_ltb a b = false -> pair_ltb b a = false -> a = b.
Proof.
  destruct a as [a1 a2], b as [b1 b2]; unfold pair_ltb; simpl.
  intros H1 H2. f_equal; lia.
Qed.

Lemma StronglySorted_impl {A : Type} (R S : A -> A -> Prop) (l : list A) :
  (forall x y, R x y -> S x y) -> StronglySorted R l -> StronglySorted S l.
Proof.
  intros HRS. induction 1 as [|x l Hs IH Hall]; constructor; [exact IH|].
  eapply List.Forall_impl; [|exact Hall]. apply HRS.
Qed.

Lemma StronglySorted_lookup {A : Type} (R : A -> A -> Prop) (l : list A) :
  StronglySorted R l ->
  forall i j a b, l !! i = Some a -> l !! j = Some b -> (i < j)%nat -> R a b.
Proof.
  induction 1 as [|x l Hs IH Hall]; intros i j a b Hi Hj Hlt.
  - destruct i; discriminate.
  - destruct j as [|j]; [lia|]. simpl in Hj. destruct i as [|i]; simpl in Hi.
    + injection Hi as <-. rewrite List.Forall_forall in Hall. apply Hall.
      apply list_elem_of_In. eapply list_elem_of_lookup_2; eauto.
    + eapply IH; eauto. lia.
Qed.

Lemma StronglySorted_firstn {A : Type} (R : A -> A -> Prop) (k : nat) (l : list A) :
  StronglySorted R l -> StronglySorted R (firstn k l).
Proof.
  intros Hs. revert k. induction Hs as [|x l Hs IH Hall]; intros [|k]; simpl;
    try constructor; [apply IH|].
  rewrite List.Forall_forall in Hall |- *. intros y Hy. apply Hall.
  apply list_elem_of_In in Hy. apply elem_of_take in Hy as (i & Hi & _).
  apply list_elem_of_In. eapply list_elem_of_lookup_2; eauto.
Qed.

Lemma slice_to_nonneg {A : Type} (k : Z) (l : list A) :
  0 <= k -> slice_to k l = firstn (Z.to_nat k) l.
Proof. intros Hk. unfold slice_to. destruct (Z.leb_spec 0 k); [reflexivity|lia]. Qed.

(** *** The preview *)

Lemma split_lines_head (s : string) :
  exists rest, split_lines s = first_line s :: rest.
Proof.
  induction s as [|c s [rest IH]]; simpl; [now exists []|].
  destruct (Ascii.eqb c newline); [now eexists|].
  rewrite IH. now eexists.
Qed.

Lemma first_line_no_newline (s : string) (n : nat) :
  String.get n (first_line s) <> Some newline.
Proof.
  revert n. induction s as [|c s IH]; intros n; simpl; [now destruct n|].
  destruct (Ascii.eqb_spec c newline) as [->|Hne]; [now destruct n|].
  destruct n; simpl; [congruence|apply IH].
Qed.

Lemma first_line_prefix (s : string) : String.prefix (first_line s) s = true.
Proof.
  induction s as [|c s IH]; simpl; [reflexivity|].
  destruct (Ascii.eqb c newline); simpl; [reflexivity|].
  destruct (ascii_dec c c); [exact IH|congruence].
Qed.

Lemma str_len_app (s1 s2 : string) :
  str_len (s1 +:+ s2) = (str_len s1 + str_len s2)%nat.
Proof.
  induction s1 as [|c s1 IH]; simpl; [reflexivity|].
  destruct (continuation c); rewrite IH; reflexivity.
Qed.

Lemma str_len_take (s : string) (k : nat) :
  (k <= str_len s)%nat -> str_len (str_take k s) = k.
Proof.
  revert k. induction s as [|c s IH]; intros k Hk; simpl in *; [lia|].
  destruct (continuation c) eqn:Hc.
  - simpl. rewrite Hc. apply IH. exact Hk.
  - destruct k as [|k]; [reflexivity|]. simpl. rewrite Hc. rewrite IH; lia.
Qed.

Lemma str_take_all (s : string) (k : nat) :
  (str_len s <= k)%nat -> str_take k s = s.
Proof.
  revert k. induction s as [|c s IH]; intros k Hk; simpl in *; [reflexivity|].
  destruct (continuation c).
  - now rewrite IH.
  - destruct k as [|k]; [lia|]. rewrite IH; [reflexivity|lia].
Qed.

(** On text without bytes above 127 a code point is a character. *)
Lemma str_len_ascii (s : string) :
  (forall n c, String.get n s = Some c -> (nat_of_ascii c < 128)%nat) ->
  str_len s = String.length s.
Proof.
  induction s as [|c s IH]; intros Hs; simpl; [reflexivity|].
  assert (Hc : continuation c = false).
  { unfold continuation. specialize (Hs O c eq_refl).
    destruct (Nat.leb_spec 128 (nat_of_ascii c)); [lia|reflexivity]. }
  rewrite Hc, IH; [reflexivity|]. intros n c' Hn. exact (Hs (S n) c' Hn).
Qed.

(** The two branches of the cut at 100 characters, on the first line of a
    text. *)
Lemma first_line_preview_spec (content : string) :
  let line := first_line content in
  ((100 < str_len line)%nat ->
     first_line_preview content = str_take 100 line +:+ "..."
     /\ str_len (str_take 100 line) = 100%nat)
  /\ ((str_len line <= 100)%nat -> first_line_preview content = line).
Proof.
  simpl. unfold first_line_preview.
  destruct (split_lines_head content) as [rest ->].
  split; intros Hlen.
  - destruct (Nat.ltb_spec 100 (str_len (first_line content))); [|lia].
    split; [reflexivity|]. apply str_len_take. lia.
  - destruct (Nat.ltb_spec 100 (str_len (first_line content))); [lia|reflexivity].
Qed.

(** The placeholder arm [... if lines else "No preview available"] is dead:
    [split] never returns an empty list.  On an empty text the preview is the
    empty string. *)
Lemma first_line_preview_empty : first_line_preview "" = "".
Proof. reflexivity. Qed.

Lemma first_line_preview_placeholder_iff (content : string) :
  first_line_preview content = no_preview <-> first_line content = no_preview.
Proof.
  unfold first_line_preview.
  destruct (split_lines_head content) as [rest ->].
  destruct (Nat.ltb_spec 100 (str_len (first_line content))) as [Hlong|Hshort].
  - split; intros H.
    + apply (f_equal str_len) in H.
      rewrite str_len_app in H.
      rewrite str_len_take in H by lia. vm_compute in H. lia.
    + rewrite H in Hlong. vm_compute in Hlong. lia.
  - reflexivity.
Qed.

(** *** Ranking and truncation *)

(** [a] is ranked no later than [b]: a smaller rank, or the same rank and a
    modification time that is not older. *)
Definition ranked_before (lower : string -> string) (q : string) (a b : hit) : Prop :=
  rank lower q a < rank lower q b
  \/ (rank lower q a = rank lower q b /\ h_mtime b <= h_mtime a).

(** The hits that tie with key [k]: same rank and same modification time. *)
Definition ties (lower : string -> string) (q : string) (k : Z * Z) (l : list hit)
    : list hit :=
  List.filter (same_key (sort_key lower q) pair_eqb k) l.

(** What [search_notes] returns for a limit that is not negative, in terms of
    the notes [qualifying] that the walk collected (in walk order). *)
Definition sorted_then_truncated (lower : string -> string) (q : string)
    (qualifying result : list hit) (limit : Z) : Prop :=
  (exists sorted,
      Permutation sorted qualifying
      /\ StronglySorted (ranked_before lower q) sorted
      /\ (forall k, ties lower q k sorted = ties lower q k qualifying)
      /\ result = firstn (Z.to_nat limit) sorted)
  /\ (forall sorted,
        StronglySorted (ranked_before lower q) sorted ->
        (forall k, ties lower q k sorted = ties lower q k qualifying) ->
        result = firstn (Z.to_nat limit) sorted)
  /\ Z.of_nat (length result) <= limit
  /\ (forall i j a b,
        result !! i = Some a -> result !! j = Some b ->
        contains q (lower (h_title a)) = true ->
        contains q (lower (h_title b)) = false ->
        (i < j)%nat).

Section SearchFacts.
Variable lower : string -> string.
Variable relpath : string -> string -> string.
Variable date_of : Z -> option string.

Lemma key_le_ranked_before (q : string) (a b : hit) :
  key_le (sort_key lower q) pair_ltb a b <-> ranked_before lower q a b.
Proof.
  unfold key_le, ranked_before, sort_key, pair_ltb. simpl. lia.
Qed.

Lemma rank_title_match (q : string) (a : hit) :
  rank lower q a = (if contains q (lower (h_title a)) then 0 else 1).
Proof. reflexivity. Qed.

(** C3 (amended): for a limit that is not negative, the result is the list of
    all qualifying notes, stably sorted by (title match first, then newest
    first), cut to its first [limit] elements after the sort; so it has at
    most [limit] elements and a title match always precedes a content-only
    match. *)
Theorem search_notes_sorted_then_truncated
    (vault_path : string) (n : node) (query : string) (limit : Z) :
  0 <= limit ->
  sorted_then_truncated lower (lower query)
    (search_walk lower relpath date_of vault_path (lower query) vault_path n)
    (search_notes lower relpath date_of vault_path n query limit)
    limit.
Proof.
  intros Hlimit. unfold sorted_then_truncated, search_notes.
  set (q := lower query).
  set (qualifying := search_walk lower relpath date_of vault_path q vault_path n).
  set (sorted := sort_by (sort_key lower q) pair_ltb qualifying).
  rewrite slice_to_nonneg by exact Hlimit.
  assert (Hsorted : StronglySorted (ranked_before lower q) sorted).
  { eapply StronglySorted_impl; [intros x y; apply key_le_ranked_before|].
    apply sort_by_sorted; [exact pair_ltb_asym|exact pair_ltb_negtrans]. }
  assert (Hties : forall k, ties lower q k sorted = ties lower q k qualifying).
  { intros k. unfold ties, sorted. apply sort_by_filter.
    intros x y Hx Hy. unfold same_key in Hx, Hy.
    apply pair_eqb_spec in Hx, Hy. rewrite Hx, Hy.
    apply (ltb_irrefl pair_ltb pair_ltb_asym). }
  split; [|split; [|split]].
  - exists sorted. repeat split; [apply sort_by_perm|exact Hsorted|exact Hties].
  - intros sorted' Hs' Ht'. f_equal. symmetry.
    apply (stable_sort_unique (sort_key lower q) pair_ltb
             pair_ltb_asym pair_ltb_negtrans pair_eqb pair_eqb_spec pair_ltb_total).
    + eapply StronglySorted_impl; [intros x y; apply key_le_ranked_before|exact Hs'].
    + exact Ht'.
  - rewrite length_take. lia.
  - intros i j a b Hi Hj Ha Hb.
    destruct (Nat.lt_ge_cases i j) as [Hlt|Hge]; [exact Hlt|exfalso].
    assert (Hcut : StronglySorted (ranked_before lower q) (firstn (Z.to_nat limit) sorted))
      by now apply StronglySorted_firstn.
    destruct (Nat.eq_dec i j) as [->|Hne].
    + rewrite Hi in Hj. injection Hj as <-. congruence.
    + assert (Hji : (j < i)%nat) by lia.
      pose proof (StronglySorted_lookup _ _ Hcut j i b a Hj Hi Hji) as Hrb.
      unfold ranked_before in Hrb. rewrite !rank_title_match, Ha, Hb in Hrb. lia.
Qed.

End SearchFacts.

(** *** Every returned note carries the preview of its file *)

(** [file_at root n path content]: in the tree [n] found at [root], the file
    at [path] has the text [content]. *)
Inductive file_at : string -> node -> string -> string -> Prop :=
| file_here (root d : string) (listable : bool) (children : list node)
    (f content : string) (mtime : option Z) :
    In (File f (Some content) mtime) children ->
    file_at root (Dir d listable children) (join root f) content
| file_below (root d : string) (listable : bool) (children : list node)
    (d' : string) (listable' : bool) (inner : list node) (path content : string) :
    In (Dir d' listable' inner) children ->
    file_at (join root d') (Dir d' listable' inner) path content ->
    file_at root (Dir d listable children) path content.

Section PreviewFacts.
Variable lower : string -> string.
Variable relpath : string -> string -> string.
Variable date_of : Z -> option string.

Lemma note_hit_preview (vault_path q root file : string) (content : option string)
    (mtime : option Z) (h : hit) :
  note_hit lower relpath date_of vault_path q root file content mtime = Some h ->
  exists text, content = Some text /\ h_path h = join root file
               /\ h_preview h = first_line_preview text.
Proof.
  unfold note_hit. destruct (endswith file ".md"); [|discriminate].
  destruct content as [text|]; [|discriminate].
  destruct (_ || _); [|discriminate].
  destruct mtime as [t|]; [|discriminate].
  destruct (date_of t); [|discriminate].
  intros [= <-]. now exists text.
Qed.

Lemma search_walk_preview (vault_path q : string) (n : node) :
  forall root h,
    In h (search_walk lower relpath date_of vault_path q root n) ->
    exists text, file_at root n (h_path h) text
                 /\ h_preview h = first_line_preview text.
Proof.
  induction n as [f content mtime|d listable children IH] using node_tree_ind;
    intros root h; [intros []|].
  destruct listable; [|intros []]. simpl. rewrite in_app_iff, !in_flat_map.
  intros [(c & Hc & Hh)|(c & Hc & Hh)].
  - destruct c as [f content mtime|]; [|destruct Hh].
    destruct (note_hit _ _ _ _ _ _ _ _ _) as [h'|] eqn:Hhit; [|destruct Hh].
    destruct Hh as [<-|[]].
    apply note_hit_preview in Hhit as (text & -> & -> & Hp).
    exists text. split; [econstructor; eauto|exact Hp].
  - destruct c as [|d' listable' inner]; [destruct Hh|].
    destruct (existsb _ _); [|destruct Hh].
    rewrite List.Forall_forall in IH.
    destruct (IH _ Hc _ _ Hh) as (text & Hfile & Hp).
    exists text. split; [econstructor; eauto|exact Hp].
Qed.

Lemma slice_to_incl {A : Type} (k : Z) (l : list A) (x : A) :
  In x (slice_to k l) -> In x l.
Proof.
  unfold slice_to. intros Hin. apply list_elem_of_In.
  destruct (0 <=? k); apply list_elem_of_In in Hin;
    apply elem_of_take in Hin as (i & Hi & _); eapply list_elem_of_lookup_2; eauto.
Qed.

(** X1: for every note [search_notes] returns, the preview is computed from
    the text of the note's file: the first 100 code points of the first line
    followed by the ellipsis when that line has more than 100 code points,
    and the first line as it is otherwise.  Lengths are Python's: a
    character that takes several bytes in the file counts once. *)
Theorem search_notes_preview (vault_path : string) (n : node) (query : string)
    (limit : Z) (h : hit) :
  In h (search_notes lower relpath date_of vault_path n query limit) ->
  exists text,
    file_at vault_path n (h_path h) text
    /\ ((100 < str_len (first_line text))%nat ->
        h_preview h = str_take 100 (first_line text) +:+ "..."
        /\ str_len (str_take 100 (first_line text)) = 100%nat)
    /\ ((str_len (first_line text) <= 100)%nat ->
        h_preview h = first_line text).
Proof.
  unfold search_notes. intros Hin. apply slice_to_incl in Hin.
  apply (Permutation_in _ (sort_by_perm _ _ _)) in Hin.
  apply search_walk_preview in Hin as (text & Hfile & Hp).
  exists text. split; [exact Hfile|]. rewrite Hp.
  destruct (first_line_preview_spec text) as [Hlong Hshort].
  split; [exact Hlong|exact Hshort].
Qed.

End PreviewFacts.

(** *** Concrete instances for the examples *)

Module Demo.

(** [os.path.relpath] for a path that lies under [start]. *)
Definition relpath_under (path start : string) : string :=
  if startswith path (start +:+ "/")
  then substring (String.length start + 1)
                 (String.length path - String.length start - 1) path
  else path.

Definition two_digits (n : Z) : string :=
  if n <? 10 then "0" +:+ pretty n else pretty n.

(** The calendar date of a time stamp, in UTC (the program uses the local
    time zone). *)
Definition utc_date (mtime : Z) : string :=
  let z := mtime / 86400 + 719468 in
  let era := z / 146097 in
  let doe := z - era * 146097 in
  let yoe := (doe - doe / 1460 + doe / 36524 - doe / 146096) / 365 in
  let doy := doe - (365 * yoe + yoe / 4 - yoe / 100) in
  let mp := (5 * doy + 2) / 153 in
  let d := doy - (153 * mp + 2) / 5 + 1 in
  let m := if mp <? 10 then mp + 3 else mp - 9 in
  let y := yoe + era * 400 + (if m <=? 2 then 1 else 0) in
  pretty y +:+ "-" +:+ two_digits m +:+ "-" +:+ two_digits d.

(** [datetime.fromtimestamp] accepts the years 1 to 9999 and raises outside
    them. *)
Definition utc_date_of (mtime : Z) : option string :=
  if (-62135596800 <=? mtime) && (mtime <? 253402300800)
  then Some (utc_date mtime) else None.

(** The scenario of the specification: [/v] holds the marker directory and
    [notes/a.md] with the text [Hello world]. *)
Definition scenario_vault : node :=
  Dir "v" true
    [ Dir ".obsidian" true [];
      Dir "notes" true [ File "a.md" (Some "Hello world") (Some 1700000000) ] ].

(** A vault with a note whose file is empty. *)
Definition empty_note_vault : node :=
  Dir "v" true
    [ Dir ".obsidian" true [];
      File "hello.md" (Some "") (Some 1700000000) ].

(** A title match that is older than a content-only match. *)
Definition two_note_vault : node :=
  Dir "v" true
    [ File "b.md" (Some "say hello") (Some 200);
      File "hello.md" (Some "text") (Some 100) ].

End Demo.

Import Demo.

Example utc_date_examples :
  utc_date 0 = "1970-01-01" /\ utc_date 1700000000 = "2023-11-14"
  /\ utc_date 951782400 = "2000-02-29"
  /\ utc_date_of 253402300799 = Some "9999-12-31"
  /\ utc_date_of 253402300800 = None.
Proof. repeat split; vm_compute; reflexivity. Qed.

Example search_scenario :
  search_notes ascii_lower relpath_under utc_date_of "/v" scenario_vault "hello" 10
  = [ {| h_file := "a.md"; h_path := "/v/notes/a.md"; h_rel_path := "notes/a.md";
         h_title := "a"; h_preview := "Hello world"; h_date := "2023-11-14";
         h_mtime := 1700000000 |} ].
Proof. vm_compute. reflexivity. Qed.

Example search_title_match_first :
  map h_title
    (search_notes ascii_lower relpath_under utc_date_of "/v" two_note_vault "hello" 10)
  = ["hello"; "b"].
Proof. vm_compute. reflexivity. Qed.

Lemma search_notes_preview_witness :
  let h := {| h_file := "a.md"; h_path := "/v/notes/a.md"; h_rel_path := "notes/a.md";
              h_title := "a"; h_preview := "Hello world"; h_date := "2023-11-14";
              h_mtime := 1700000000 |} in
  In h (search_notes ascii_lower relpath_under utc_date_of "/v" scenario_vault "hello" 10)
  /\ exists text,
       file_at "/v" scenario_vault (h_path h) text
       /\ ((100 < str_len (first_line text))%nat ->
           h_preview h = str_take 100 (first_line text) +:+ "..."
           /\ str_len (str_take 100 (first_line text)) = 100%nat)
       /\ ((str_len (first_line text) <= 100)%nat ->
           h_preview h = first_line text).
Proof.
  simpl.
  assert (Hin : In {| h_file := "a.md"; h_path := "/v/notes/a.md";
                      h_rel_path := "notes/a.md"; h_title := "a";
                      h_preview := "Hello world"; h_date := "2023-11-14";
                      h_mtime := 1700000000 |}
                  (search_notes ascii_lower relpath_under utc_date_of "/v" scenario_vault
                     "hello" 10))
    by (vm_compute; left; reflexivity).
  split; [exact Hin|].
  exact (search_notes_preview ascii_lower relpath_under utc_date_of "/v" scenario_vault
           "hello" 10 _ Hin).
Defined.

(** C2 (failing input): a note whose file is empty and whose title matches the
    query is returned with the empty string as its preview, not with the
    placeholder text. *)
Theorem empty_note_preview_is_empty_string :
  map h_preview
    (search_notes ascii_lower relpath_under utc_date_of "/v" empty_note_vault "hello" 10)
  = [""]
  /\ "" <> no_preview.
Proof. split; [vm_compute; reflexivity|discriminate]. Qed.

(** C3 (counterexample): with [limit = -1] the slice drops the last element
    only; the result has one element, which is more than the limit. *)
Lemma search_notes_negative_limit :
  map h_title
    (search_notes ascii_lower relpath_under utc_date_of "/v" two_note_vault "hello" (-1))
  = ["hello"]
  /\ ~ (Z.of_nat (length
          (search_notes ascii_lower relpath_under utc_date_of "/v" two_note_vault "hello" (-1)))
        <= -1).
Proof. split; [vm_compute; reflexivity|vm_compute; intros H; apply H; reflexivity]. Qed.

Lemma search_notes_sorted_then_truncated_witness :
  0 <= 1
  /\ sorted_then_truncated ascii_lower (ascii_lower "hello")
       (search_walk ascii_lower relpath_under utc_date_of "/v" (ascii_lower "hello") "/v"
          two_note_vault)
       (search_notes ascii_lower relpath_under utc_date_of "/v" two_note_vault "hello" 1)
       1.
Proof.
  split; [lia|].
  apply (search_notes_sorted_then_truncated ascii_lower relpath_under utc_date_of
           "/v" two_note_vault "hello" 1).
  lia.
Defined.

(** ** Python exceptions *)

Inductive exn : Type :=
| ValueError
| PermissionError
| FileExistsError
| FileNotFoundError
| IsADirectoryError
| NotADirectoryError
| OSError.

(** ** Vault discovery ([find_vaults], [get_vault_info]) *)

(** One element of [vaults] (the dictionary [vault_info]). *)
Record vault : Type := {
  v_name : string;
  v_path : string;
  v_config_path : string;
  v_note_count : nat;
  v_recent_notes : list (string * Z);
  v_vault_id : option string;
  v_is_registered : bool
}.

(** The names excluded from the walk besides the hidden ones (lines 120-123). *)
Definition deny_list : list string :=
  [ "node_modules"; "venv"; ".git"; "__pycache__"; "AppData"; "Program Files";
    "Program Files (x86)"; "Windows"; "System32"; "temp"; "tmp"; "$Recycle.Bin" ].

(** The filter on [dirs] of lines 120-123. *)
Definition discovery_keeps (d : string) : bool :=
  negb (startswith d ".") && negb (existsb (String.eqb d) deny_list).

(** The first registered id whose entry is a dictionary with this [path]
    (lines 135-139).  An entry of [registered_vaults] is [(id, Some path)], or
    [(id, None)] when its value is no dictionary or has no string [path]. *)
Definition registered_id (registered_vaults : list (string * option string))
    (vault_path : string) : option string :=
  match List.find (fun vv => match snd vv with
                             | Some p => String.eqb p vault_path
                             | None => false
                             end) registered_vaults with
  | Some vv => Some (fst vv)
  | None => None
  end.

(** [if not any(v['path'] == vault_path for v in vaults): vaults.append(vault_info)] *)
Definition add_if_new (vault_info : vault) (vaults : list vault) : list vault :=
  if existsb (fun v => String.eqb (v_path v) (v_path vault_info)) vaults
  then vaults
  else (vaults ++ [vault_info])%list.

(** A name the discovery walk does not descend into: hidden, or on the
    deny-list. *)
Definition pruned (d : string) : Prop :=
  startswith d "." = true \/ In d deny_list.

(** [reaches_dir n comps m]: from the tree [n], following the directory names
    [comps] one after the other leads to the tree [m]. *)
Inductive reaches_dir : node -> list string -> node -> Prop :=
| reaches_here (n : node) : reaches_dir n [] n
| reaches_child (name : string) (listable : bool) (children : list node)
    (d : string) (listable' : bool) (inner : list node)
    (comps : list string) (m : node) :
    In (Dir d listable' inner) children ->
    reaches_dir (Dir d listable' inner) comps m ->
    reaches_dir (Dir name listable children) (d :: comps) m.

Section Discovery.

(** Whether [json.load] accepts a text. *)
Variable json_ok : string -> bool.
(** [registered_vaults], read from the application's global configuration. *)
Variable registered_vaults : list (string * option string).

(** The walk of [get_vault_info] (lines 254-266): the number of [.md] files
    and the [(path, mtime)] pairs, hidden directories excluded. *)
Fixpoint info_walk (root : string) (n : node) {struct n} : nat * list (string * Z) :=
  match n with
  | File _ _ _ => (O, [])
  | Dir _ false _ => (O, [])
  | Dir _ true children =>
      let dirs := List.filter (fun d => negb (startswith d ".")) (dir_names children) in
      fold_left
        (fun acc c =>
           match c with
           | Dir d _ _ =>
               if existsb (String.eqb d) dirs
               then let sub := info_walk (join root d) c in
                    ((fst acc + fst sub)%nat, (snd acc ++ snd sub)%list)
               else acc
           | File _ _ _ => acc
           end)
        children
        (fold_left
           (fun acc c =>
              match c with
              | File f _ mtime =>
                  if endswith f ".md"
                  then (S (fst acc),
                        match mtime with
                        | Some t => (snd acc ++ [(join root f, t)])%list
                        | None => snd acc
                        end)
                  else acc
              | Dir _ _ _ => acc
              end)
           children (O, []))
  end.

(** Whether reading [.obsidian/config] raises (lines 245-248): the entry
    exists and is a directory, an unreadable file, or a file [json.load]
    rejects. *)
Definition config_read_raises (children : list node) : bool :=
  existsb
    (fun c =>
       match c with
       | Dir d _ inner =>
           String.eqb d ".obsidian"
           && existsb (fun e =>
                         match e with
                         | Dir e' _ _ => String.eqb e' "config"
                         | File e' None _ => String.eqb e' "config"
                         | File e' (Some text) _ =>
                             String.eqb e' "config" && negb (json_ok text)
                         end) inner
       | File _ _ _ => false
       end) children.

(** [get_vault_info(vault_path)], for the listable directory with entries
    [children] found at [vault_path]: [(note_count, recent_notes)].  Every
    exception is caught inside, so it always returns. *)
Definition get_vault_info (vault_path : string) (children : list node)
    : nat * list (string * Z) :=
  if config_read_raises children then (O, [])
  else
    let '(note_count, recent_notes) := info_walk vault_path (Dir "" true children) in
    let recent_notes := sort_by snd (fun a b => b <? a) recent_notes in
    (note_count, firstn 5 recent_notes).

(** The dictionary built at lines 128-149 for the vault at [root]. *)
Definition vault_record (root : string) (children : list node) : vault :=
  let obsidian_config := join root ".obsidian" in
  let info := get_vault_info root children in
  let vault_id := registered_id registered_vaults root in
  {| v_name := basename root;
     v_path := root;
     v_config_path := obsidian_config;
     v_note_count := fst info;
     v_recent_notes := snd info;
     v_vault_id := vault_id;
     v_is_registered := match vault_id with Some _ => true | None => false end |}.

(** The loop body (lines 119-156) for the directory [root] with entries
    [children]: the new [vaults], and either the exception raised or the
    [dirs] left for [os.walk] to descend into. *)
Definition visit (root : string) (children : list node) (vaults : list vault)
    : list vault * (exn + list string) :=
  let dirs := List.filter discovery_keeps (dir_names children) in
  if has_dir children ".obsidian" then
    let vaults := add_if_new (vault_record root children) vaults in
    match list_remove ".obsidian" dirs with
    | None => (vaults, inl ValueError)
    | Some dirs => (vaults, inr dirs)
    end
  else (vaults, inr dirs).

(** One step of the descent of [os.walk]: entry [c] of the directory [root],
    entered when it is a directory still in [dirs] and no exception has ended
    the loop. *)
Definition walk_step (walk : string -> node -> list vault -> list vault * option exn)
    (root : string) (dirs : list string)
    (st : list vault * option exn) (c : node) : list vault * option exn :=
  match st, c with
  | (_, Some _), _ => st
  | (vaults, None), Dir d _ _ =>
      if existsb (String.eqb d) dirs then walk (join root d) c vaults else st
  | (_, None), File _ _ _ => st
  end.

(** The loop over [os.walk(search_path)] started at the tree [n] found at
    [root]: the new [vaults] and the exception that ended the loop, if any.
    [os.walk] descends, in listing order, into the directories still in
    [dirs] once the loop body has run. *)
Fixpoint vault_walk (root : string) (n : node) (vaults : list vault) {struct n}
    : list vault * option exn :=
  match n with
  | File _ _ _ => (vaults, None)
  | Dir _ false _ => (vaults, None)
  | Dir _ true children =>
      match visit root children vaults with
      | (vaults, inl e) => (vaults, Some e)
      | (vaults, inr dirs) =>
          fold_left (walk_step vault_walk root dirs) children (vaults, None)
      end
  end.

(** The loop over [search_paths] (lines 115-161); both [except] arms
    [continue] with the next search path. *)
Fixpoint scan (search_paths : list (string * node)) (vaults : list vault)
    : list vault :=
  match search_paths with
  | [] => vaults
  | (search_path, n) :: rest => scan rest (fst (vault_walk search_path n vaults))
  end.

(** The list [find_vaults] returns, for the existing search paths in the
    order the loop takes them, each with the tree found there. *)
Definition find_vaults (search_paths : list (string * node)) : list vault :=
  scan search_paths [].

(** The vault at which the walk of a search root stops, if any: the first
    directory with a marker, in walk order. *)
Definition first_step (first : string -> node -> option vault) (root : string)
    (found : option vault) (c : node) : option vault :=
  match found, c with
  | Some _, _ => found
  | None, Dir d _ _ => if discovery_keeps d then first (join root d) c else None
  | None, File _ _ _ => None
  end.

Fixpoint first_vault (root : string) (n : node) {struct n} : option vault :=
  match n with
  | File _ _ _ => None
  | Dir _ false _ => None
  | Dir _ true children =>
      if has_dir children ".obsidian" then Some (vault_record root children)
      else fold_left (first_step first_vault root) children None
  end.

(** *** Facts about the discovery walk *)

Lemma list_remove_absent (x : string) (l : list string) :
  ~ In x l -> list_remove x l = None.
Proof.
  induction l as [|y l IH]; intros Hnot; simpl; [reflexivity|].
  destruct (String.eqb_spec y x) as [->|Hne]; [exfalso; apply Hnot; now left|].
  rewrite IH; [reflexivity|]. intros Hin. apply Hnot. now right.
Qed.

(** The marker directory is hidden, so the filter has already dropped it from
    [dirs] when the loop body calls [dirs.remove('.obsidian')]. *)
Lemma remove_marker_after_filter (names : list string) :
  list_remove ".obsidian" (List.filter discovery_keeps names) = None.
Proof.
  apply list_remove_absent. intros Hin. apply filter_In in Hin as [_ Hkeep].
  discriminate Hkeep.
Qed.

Lemma kept_name_in_dirs (keeps : string -> bool) (children : list node)
    (d : string) (listable : bool) (inner : list node) :
  In (Dir d listable inner) children ->
  existsb (String.eqb d) (List.filter keeps (dir_names children)) = keeps d.
Proof.
  intros Hin. destruct (keeps d) eqn:Hk.
  - apply existsb_exists. exists d. split; [|apply String.eqb_refl].
    apply filter_In. split; [|exact Hk].
    unfold dir_names. apply in_flat_map. eexists; split; [exact Hin|now left].
  - destruct (existsb _ _) eqn:Hex; [|reflexivity].
    apply existsb_exists in Hex as (d' & Hd' & Heq).
    apply String.eqb_eq in Heq as <-.
    apply filter_In in Hd' as [_ Hd']. congruence.
Qed.

Lemma visit_spec (root : string) (children : list node) (vaults : list vault) :
  visit root children vaults =
  if has_dir children ".obsidian"
  then (add_if_new (vault_record root children) vaults, inl ValueError)
  else (vaults, inr (List.filter discovery_keeps (dir_names children))).
Proof.
  unfold visit. destruct (has_dir children ".obsidian"); [|reflexivity].
  now rewrite remove_marker_after_filter.
Qed.

Lemma walk_step_raised (walk : string -> node -> list vault -> list vault * option exn)
    (root : string) (dirs : list string) (cs : list node) (vaults : list vault) (e : exn) :
  fold_left (walk_step walk root dirs) cs (vaults, Some e) = (vaults, Some e).
Proof. induction cs as [|c cs IH]; simpl; [reflexivity|exact IH]. Qed.

Lemma first_step_found (first : string -> node -> option vault)
    (root : string) (cs : list node) (v : vault) :
  fold_left (first_step first root) cs (Some v) = Some v.
Proof. induction cs as [|c cs IH]; simpl; [reflexivity|exact IH]. Qed.

(** The outcome of a walk, given the vault at which it stops. *)
Definition stops_at (found : option vault) (vaults : list vault)
    : list vault * option exn :=
  match found with
  | Some v => (add_if_new v vaults, Some ValueError)
  | None => (vaults, None)
  end.

Lemma walk_children_spec (root : string) (dirs : list string) (cs : list node) :
  Forall (fun c => forall root vaults,
            vault_walk root c vaults = stops_at (first_vault root c) vaults) cs ->
  (forall d listable inner, In (Dir d listable inner) cs ->
     existsb (String.eqb d) dirs = discovery_keeps d) ->
  forall vaults,
    fold_left (walk_step vault_walk root dirs) cs (vaults, None)
    = stops_at (fold_left (first_step first_vault root) cs None) vaults.
Proof.
  induction 1 as [|c cs Hc Hcs IH]; intros Hdirs vaults; [reflexivity|].
  assert (Hdirs' : forall d listable inner, In (Dir d listable inner) cs ->
                     existsb (String.eqb d) dirs = discovery_keeps d)
    by (intros; eapply Hdirs; right; eauto).
  destruct c as [f content mtime|d listable inner];
    cbn [fold_left walk_step first_step]; [now apply IH|].
  rewrite (Hdirs d listable inner) by now left.
  destruct (discovery_keeps d); [|now apply IH].
  rewrite Hc. destruct (first_vault (join root d) (Dir d listable inner)) as [v|];
    cbn [stops_at].
  - now rewrite walk_step_raised, first_step_found.
  - now apply IH.
Qed.

(** What the walk of one search root does to [vaults]: it stops, with a
    [ValueError], at the first vault it meets, after recording it. *)
Lemma vault_walk_spec (root : string) (n : node) (vaults : list vault) :
  vault_walk root n vaults = stops_at (first_vault root n) vaults.
Proof.
  revert root vaults. induction n as [f content mtime|d listable children IH]
    using node_tree_ind; intros root vaults; [reflexivity|].
  destruct listable; [|reflexivity]. simpl.
  rewrite visit_spec. destruct (has_dir children ".obsidian"); [reflexivity|].
  apply walk_children_spec; [exact IH|].
  intros d' l' inner Hin. eapply kept_name_in_dirs; eauto.
Qed.

Lemma scan_spec (search_paths : list (string * node)) (vaults : list vault) :
  scan search_paths vaults =
  fold_left (fun vaults sp =>
               match first_vault (fst sp) (snd sp) with
               | Some v => add_if_new v vaults
               | None => vaults
               end) search_paths vaults.
Proof.
  revert vaults. induction search_paths as [|[search_path n] rest IH]; intros vaults;
    [reflexivity|].
  simpl. rewrite IH, vault_walk_spec.
  now destruct (first_vault search_path n).
Qed.

(** **** One vault per search root *)

Lemma add_if_new_length (v : vault) (vaults : list vault) :
  (length (add_if_new v vaults) <= S (length vaults))%nat.
Proof.
  unfold add_if_new. destruct (existsb _ _); [lia|].
  rewrite length_app. simpl. lia.
Qed.

Lemma vault_walk_length (root : string) (n : node) (vaults : list vault) :
  (length (fst (vault_walk root n vaults)) <= S (length vaults))%nat.
Proof.
  rewrite vault_walk_spec. destruct (first_vault root n); simpl;
    [apply add_if_new_length|lia].
Qed.

Lemma scan_length (search_paths : list (string * node)) (vaults : list vault) :
  (length (scan search_paths vaults) <= length vaults + length search_paths)%nat.
Proof.
  revert vaults. induction search_paths as [|[search_path n] rest IH]; intros vaults;
    simpl; [lia|].
  specialize (IH (fst (vault_walk search_path n vaults))).
  pose proof (vault_walk_length search_path n vaults). lia.
Qed.

(** Every search root contributes at most one vault: its walk ends at the
    first vault it records. *)
Lemma find_vaults_one_vault_per_search_path (search_paths : list (string * node)) :
  (length (find_vaults search_paths) <= length search_paths)%nat.
Proof. unfold find_vaults. pose proof (scan_length search_paths []). simpl in *. lia. Qed.

(** **** Unique paths *)

Lemma NoDup_snoc {A : Type} (l : list A) (x : A) :
  List.NoDup l -> ~ In x l -> List.NoDup (l ++ [x]).
Proof.
  induction 1 as [|y l Hy Hl IH]; intros Hx; simpl.
  - constructor; [intros []|constructor].
  - constructor.
    + rewrite in_app_iff. intros [H|[H|[]]]; [now apply Hy|].
      apply Hx. now left.
    + apply IH. intros H. apply Hx. now right.
Qed.

Lemma existsb_path (p : string) (vaults : list vault) :
  existsb (fun v => String.eqb (v_path v) p) vaults = true
  <-> In p (map v_path vaults).
Proof.
  rewrite existsb_exists, in_map_iff. split.
  - intros (v & Hin & Heq). apply String.eqb_eq in Heq. eauto.
  - intros (v & Heq & Hin). exists v. split; [exact Hin|]. now apply String.eqb_eq.
Qed.

Lemma add_if_new_paths (v : vault) (vaults : list vault) (p : string) :
  In p (map v_path (add_if_new v vaults))
  <-> In p (map v_path vaults) \/ p = v_path v.
Proof.
  unfold add_if_new.
  destruct (existsb _ vaults) eqn:Hex.
  - apply existsb_path in Hex. split; [now left|]. now intros [H| ->].
  - rewrite map_app, in_app_iff. simpl. intuition.
Qed.

Lemma add_if_new_NoDup (v : vault) (vaults : list vault) :
  List.NoDup (map v_path vaults) -> List.NoDup (map v_path (add_if_new v vaults)).
Proof.
  intros Hnd. unfold add_if_new.
  destruct (existsb _ vaults) eqn:Hex; [exact Hnd|].
  rewrite map_app. simpl. apply NoDup_snoc; [exact Hnd|].
  intros Hin. apply existsb_path in Hin. congruence.
Qed.

Lemma scan_NoDup (search_paths : list (string * node)) (vaults : list vault) :
  List.NoDup (map v_path vaults) -> List.NoDup (map v_path (scan search_paths vaults)).
Proof.
  revert vaults. induction search_paths as [|[search_path n] rest IH]; intros vaults Hnd;
    simpl; [exact Hnd|].
  apply IH. rewrite vault_walk_spec.
  destruct (first_vault search_path n); simpl; [now apply add_if_new_NoDup|exact Hnd].
Qed.

Lemma scan_keeps (search_paths : list (string * node)) (vaults : list vault) (p : string) :
  In p (map v_path vaults) -> In p (map v_path (scan search_paths vaults)).
Proof.
  revert vaults. induction search_paths as [|[search_path n] rest IH]; intros vaults Hin;
    simpl; [exact Hin|].
  apply IH. rewrite vault_walk_spec.
  destruct (first_vault search_path n); simpl; [|exact Hin].
  apply add_if_new_paths. now left.
Qed.

(** The walk of the search root [search_path], on its own, records a vault
    with path [p]. *)
Definition walk_records (search_path : string) (n : node) (p : string) : Prop :=
  In p (map v_path (fst (vault_walk search_path n []))).

Lemma walk_records_first_vault (search_path : string) (n : node) (p : string) :
  walk_records search_path n p
  <-> exists v, first_vault search_path n = Some v /\ v_path v = p.
Proof.
  unfold walk_records. rewrite vault_walk_spec.
  destruct (first_vault search_path n) as [v|]; simpl.
  - split; [intros [H|[]]; eauto|]. intros (v' & [= <-] & H). now left.
  - split; [intros []|]. now intros (v' & [=] & _).
Qed.

Lemma scan_records (search_paths : list (string * node)) (vaults : list vault)
    (search_path : string) (n : node) (p : string) :
  In (search_path, n) search_paths -> walk_records search_path n p ->
  In p (map v_path (scan search_paths vaults)).
Proof.
  intros Hin Hrec. apply walk_records_first_vault in Hrec as (v & Hv & <-).
  revert vaults. induction search_paths as [|[sp' n'] rest IH]; intros vaults;
    [destruct Hin|].
  simpl. destruct Hin as [[= -> ->]|Hin]; [|now apply IH].
  apply scan_keeps. rewrite vault_walk_spec, Hv. simpl.
  apply add_if_new_paths. now right.
Qed.

Lemma NoDup_map_lookup_inj {A B : Type} (f : A -> B) (l : list A) :
  List.NoDup (map f l) ->
  forall i j v w, l !! i = Some v -> l !! j = Some w -> f v = f w -> i = j.
Proof.
  induction l as [|x l IH]; intros Hnd i j v w Hi Hj Heq; [destruct i; discriminate|].
  simpl in Hnd. apply List.NoDup_cons_iff in Hnd as [Hx Hnd].
  assert (Hmem : forall k y, l !! k = Some y -> In (f y) (map f l)).
  { intros k y Hk. apply in_map. apply list_elem_of_In.
    eapply list_elem_of_lookup_2; eauto. }
  destruct i as [|i], j as [|j]; simpl in Hi, Hj.
  - reflexivity.
  - injection Hi as <-. exfalso. apply Hx. rewrite Heq. eauto.
  - injection Hj as <-. exfalso. apply Hx. rewrite <- Heq. eauto.
  - f_equal. eapply IH; eauto.
Qed.

(** X4: the paths of the records [find_vaults] returns are pairwise
    different: no path occurs twice, two records at different positions have
    different paths, and a vault root that the walks of two different search
    roots both record is in the result exactly once. *)
Theorem find_vaults_paths_unique (search_paths : list (string * node)) :
  List.NoDup (map v_path (find_vaults search_paths))
  /\ (forall p, (count_occ string_dec (map v_path (find_vaults search_paths)) p <= 1)%nat)
  /\ (forall i j v w,
        find_vaults search_paths !! i = Some v ->
        find_vaults search_paths !! j = Some w ->
        i <> j -> v_path v <> v_path w)
  /\ (forall sp1 n1 sp2 n2 p,
        In (sp1, n1) search_paths -> In (sp2, n2) search_paths ->
        (sp1, n1) <> (sp2, n2) ->
        walk_records sp1 n1 p -> walk_records sp2 n2 p ->
        count_occ string_dec (map v_path (find_vaults search_paths)) p = 1%nat).
Proof.
  assert (Hnd : List.NoDup (map v_path (find_vaults search_paths)))
    by (apply scan_NoDup; constructor).
  split; [exact Hnd|split; [|split]].
  - now apply List.NoDup_count_occ.
  - intros i j v w Hi Hj Hij Heq.
    apply Hij. eapply (NoDup_map_lookup_inj v_path); eauto.
  - intros sp1 n1 sp2 n2 p Hin1 _ _ Hrec1 _.
    apply (proj1 (List.NoDup_count_occ' string_dec _) Hnd).
    eapply scan_records; eauto.
Qed.

(** **** Pruned directories *)

Lemma discovery_keeps_spec (d : string) :
  discovery_keeps d = true <-> ~ pruned d.
Proof.
  unfold discovery_keeps, pruned. rewrite andb_true_iff, !negb_true_iff. split.
  - intros [Hdot Hdeny] [H|H]; [congruence|].
    assert (Hex : existsb (String.eqb d) deny_list = true)
      by (apply existsb_exists; exists d; split; [exact H|apply String.eqb_refl]).
    congruence.
  - intros Hnot. split.
    + destruct (startswith d ".") eqn:H; [|reflexivity]. exfalso. apply Hnot. now left.
    + destruct (existsb (String.eqb d) deny_list) eqn:H; [|reflexivity].
      exfalso. apply Hnot. right.
      apply existsb_exists in H as (d' & Hin & Heq).
      apply String.eqb_eq in Heq. now subst.
Qed.

Lemma first_step_origin (root : string) (cs : list node) (v : vault) :
  fold_left (first_step first_vault root) cs None = Some v ->
  exists d listable inner,
    In (Dir d listable inner) cs /\ discovery_keeps d = true
    /\ first_vault (join root d) (Dir d listable inner) = Some v.
Proof.
  induction cs as [|c cs IH]; [discriminate|].
  destruct c as [f content mtime|d listable inner]; cbn [fold_left first_step].
  - intros H. destruct (IH H) as (d & l & inner & Hin & Hk & Hv).
    exists d, l, inner. split; [now right|now split].
  - destruct (discovery_keeps d) eqn:Hk.
    + destruct (first_vault (join root d) (Dir d listable inner)) as [v'|] eqn:Hv.
      * rewrite first_step_found. intros [= <-].
        exists d, listable, inner. split; [now left|now split].
      * intros H. destruct (IH H) as (d' & l' & inner' & Hin & Hk' & Hv').
        exists d', l', inner'. split; [now right|now split].
    + intros H. destruct (IH H) as (d' & l' & inner' & Hin & Hk' & Hv').
      exists d', l', inner'. split; [now right|now split].
Qed.

(** The vault at which a walk stops lies at the end of a chain of directories
    none of which is pruned, and has the marker directory. *)
Lemma first_vault_route (root : string) (n : node) (v : vault) :
  first_vault root n = Some v ->
  exists comps name children,
    reaches_dir n comps (Dir name true children)
    /\ has_dir children ".obsidian" = true
    /\ v = vault_record (fold_left join comps root) children
    /\ Forall (fun d => ~ pruned d) comps.
Proof.
  revert root v. induction n as [f content mtime|d listable children IH]
    using node_tree_ind; intros root v; [discriminate|].
  destruct listable; [|discriminate]. simpl.
  destruct (has_dir children ".obsidian") eqn:Hmarker.
  - intros [= <-]. exists [], d, children.
    split; [constructor|]. split; [exact Hmarker|]. split; [reflexivity|constructor].
  - intros Hfold.
    apply first_step_origin in Hfold as (d' & l' & inner & Hin & Hk & Hv).
    rewrite List.Forall_forall in IH.
    destruct (IH _ Hin _ _ Hv) as (comps & name & cs & Hreach & Hm & Hrec & Hclean).
    exists (d' :: comps), name, cs.
    split; [econstructor; eauto|]. split; [exact Hm|]. split; [exact Hrec|].
    constructor; [now apply discovery_keeps_spec|exact Hclean].
Qed.

Lemma add_if_new_In (v v' : vault) (vaults : list vault) :
  In v' (add_if_new v vaults) -> In v' vaults \/ v' = v.
Proof.
  unfold add_if_new. destruct (existsb _ vaults); [now left|].
  rewrite in_app_iff. simpl. intuition.
Qed.

Lemma scan_origin (search_paths : list (string * node)) (vaults : list vault) (v : vault) :
  In v (scan search_paths vaults) ->
  In v vaults
  \/ exists search_path n,
       In (search_path, n) search_paths /\ first_vault search_path n = Some v.
Proof.
  revert vaults. induction search_paths as [|[sp n] rest IH]; intros vaults Hin;
    [now left|].
  simpl in Hin. apply IH in Hin as [Hin|(sp' & n' & Hin' & Hv)].
  - rewrite vault_walk_spec in Hin. destruct (first_vault sp n) as [v'|] eqn:Hv; simpl in Hin.
    + apply add_if_new_In in Hin as [Hin| ->]; [now left|].
      right. exists sp, n. split; [now left|exact Hv].
    + now left.
  - right. exists sp', n'. split; [now right|exact Hv].
Qed.

(** C10 (amended): every vault [find_vaults] returns was recorded by the walk
    of one of the search roots, and lies, from that root, at the end of a
    chain of directories none of which is hidden or on the deny-list: a vault
    that lies below such a directory of a search root is not seen by the walk
    of that root. *)
Theorem find_vaults_skips_pruned_directories
    (search_paths : list (string * node)) (v : vault) :
  In v (find_vaults search_paths) ->
  exists search_path n comps name children,
    In (search_path, n) search_paths
    /\ walk_records search_path n (v_path v)
    /\ reaches_dir n comps (Dir name true children)
    /\ has_dir children ".obsidian" = true
    /\ v_path v = fold_left join comps search_path
    /\ Forall (fun d => startswith d "." = false /\ ~ In d deny_list) comps.
Proof.
  intros Hin. apply scan_origin in Hin as [[]|(sp & n & Hsp & Hv)].
  assert (Hrec : walk_records sp n (v_path v))
    by (apply walk_records_first_vault; eauto).
  apply first_vault_route in Hv as (comps & name & children & Hreach & Hm & -> & Hclean).
  exists sp, n, comps, name, children. repeat split; try assumption.
  eapply List.Forall_impl; [|exact Hclean].
  intros d Hd. unfold pruned in Hd. split.
  - destruct (startswith d "."); [exfalso; apply Hd; now left|reflexivity].
  - intros H. apply Hd. now right.
Qed.

End Discovery.

(** *** Discovery on concrete trees *)

Module DiscoveryDemo.

(** No example below has a [.obsidian/config] file, so the JSON check is
    never consulted. *)
Definition json_accepts_all (text : string) : bool := true.

Definition vault_dir (name : string) : node :=
  Dir name true [ Dir ".obsidian" true []; File "note.md" (Some "text") (Some 1700000000) ].

(** [/home/u/Documents] with two sibling vaults [A] and [B]. *)
Definition documents : node :=
  Dir "Documents" true [ vault_dir "A"; vault_dir "B" ].

(** [/home/u] with the vault [Documents/V], and vaults inside a hidden and a
    deny-listed directory. *)
Definition home : node :=
  Dir "u" true
    [ Dir ".cache" true [ vault_dir "H" ];
      Dir "node_modules" true [ vault_dir "N" ];
      Dir "Documents" true [ vault_dir "V" ] ].

Definition vault_V : vault :=
  {| v_name := "V";
     v_path := "/home/u/Documents/V";
     v_config_path := "/home/u/Documents/V/.obsidian";
     v_note_count := 1;
     v_recent_notes := [("/home/u/Documents/V/note.md", 1700000000)];
     v_vault_id := Some "4f2a";
     v_is_registered := true |}.

Definition registry : list (string * option string) :=
  [ ("77aa", None); ("4f2a", Some "/home/u/Documents/V") ].

End DiscoveryDemo.

Import DiscoveryDemo.

(** C1 (failing input): the search root [/home/u/Documents] holds the two
    vaults [A] and [B]; the walk records [A], the [dirs.remove('.obsidian')]
    that follows raises [ValueError], and [B] is never recorded, although the
    walk of [B] alone records it. *)
Theorem sibling_vault_is_not_recorded :
  map v_path (find_vaults json_accepts_all [] [("/home/u/Documents", documents)])
  = ["/home/u/Documents/A"]
  /\ snd (vault_walk json_accepts_all [] "/home/u/Documents" documents [])
     = Some ValueError
  /\ map v_path (find_vaults json_accepts_all []
                   [("/home/u/Documents/B", vault_dir "B")])
     = ["/home/u/Documents/B"].
Proof. repeat split; vm_compute; reflexivity. Qed.

(** C7 (failing input): the search roots [/home/u] and [/home/u/Documents]
    both hold the vault [Documents/B], below directories that are not pruned;
    both walks end at the vault [A] that precedes it, and [B] is in the
    result not once but never.  (No path occurs twice: see
    [find_vaults_paths_unique].) *)
Theorem vault_under_two_roots_is_missing :
  let home_u := Dir "u" true [ documents ] in
  reaches_dir home_u ["Documents"; "B"] (vault_dir "B")
  /\ fold_left join ["Documents"; "B"] "/home/u" = "/home/u/Documents/B"
  /\ reaches_dir documents ["B"] (vault_dir "B")
  /\ fold_left join ["B"] "/home/u/Documents" = "/home/u/Documents/B"
  /\ map v_path
       (find_vaults json_accepts_all []
          [("/home/u", home_u); ("/home/u/Documents", documents)])
     = ["/home/u/Documents/A"]
  /\ count_occ string_dec
       (map v_path
          (find_vaults json_accepts_all []
             [("/home/u", home_u); ("/home/u/Documents", documents)]))
       "/home/u/Documents/B" = 0%nat.
Proof.
  simpl. split; [|split; [reflexivity|split; [|split; [reflexivity|]]]].
  - econstructor; [now left|]. econstructor; [right; now left|]. constructor.
  - econstructor; [right; now left|]. constructor.
  - split; vm_compute; reflexivity.
Qed.

Example find_vaults_home :
  find_vaults json_accepts_all registry
    [("/home/u", home); ("/home/u/Documents/V", vault_dir "V")]
  = [vault_V].
Proof. vm_compute. reflexivity. Qed.

Example two_roots_reach_one_vault :
  walk_records json_accepts_all registry "/home/u" home "/home/u/Documents/V"
  /\ walk_records json_accepts_all registry "/home/u/Documents/V" (vault_dir "V")
       "/home/u/Documents/V"
  /\ count_occ string_dec
       (map v_path (find_vaults json_accepts_all registry
                      [("/home/u", home); ("/home/u/Documents/V", vault_dir "V")]))
       "/home/u/Documents/V" = 1%nat.
Proof. repeat split; vm_compute; auto. Qed.

Example hidden_vaults_are_not_found :
  find_vaults json_accepts_all []
    [("/srv", Dir "srv" true [ Dir ".cache" true [ vault_dir "H" ];
                               Dir "tmp" true [ vault_dir "T" ] ])]
  = [].
Proof. vm_compute. reflexivity. Qed.

(** C10 (counterexample): the path of a registered vault is a search root of
    its own (lines 103-108).  The vault [/home/u/.notes/V] lies below the
    hidden directory [.notes] of the search root [/home/u], and is returned. *)
Lemma registered_vault_below_hidden_directory_is_returned :
  let hidden_home := Dir "u" true [ Dir ".notes" true [ vault_dir "V" ] ] in
  map v_path
    (find_vaults json_accepts_all [("4f2a", Some "/home/u/.notes/V")]
       [("/home/u", hidden_home); ("/home/u/.notes/V", vault_dir "V")])
  = ["/home/u/.notes/V"]
  /\ reaches_dir hidden_home [".notes"; "V"] (vault_dir "V")
  /\ fold_left join [".notes"; "V"] "/home/u" = "/home/u/.notes/V"
  /\ startswith ".notes" "." = true.
Proof.
  simpl. split; [vm_compute; reflexivity|]. split; [|split; reflexivity].
  econstructor; [now left|]. econstructor; [now left|]. constructor.
Qed.

Lemma find_vaults_skips_pruned_directories_witness :
  In vault_V (find_vaults json_accepts_all registry [("/home/u", home)])
  /\ exists search_path n comps name children,
       In (search_path, n) [("/home/u", home)]
       /\ walk_records json_accepts_all registry search_path n (v_path vault_V)
       /\ reaches_dir n comps (Dir name true children)
       /\ has_dir children ".obsidian" = true
       /\ v_path vault_V = fold_left join comps search_path
       /\ Forall (fun d => startswith d "." = false /\ ~ In d deny_list) comps.
Proof.
  assert (Hin : In vault_V (find_vaults json_accepts_all registry [("/home/u", home)]))
    by (vm_compute; left; reflexivity).
  split; [exact Hin|].
  exact (find_vaults_skips_pruned_directories json_accepts_all registry
           [("/home/u", home)] vault_V Hin).
Defined.

(** ** The vault cache ([__init__], [find_vaults], [refresh_vaults_cache]) *)

(** The attributes of the plugin object that the cache uses. *)
Record plugin : Type := {
  p_vaults : list vault;
  p_vaults_cache : gmap string vault;
  p_cache_timestamp : Z;
  p_cache_duration : Z
}.

(** What a scan reads of the machine at the time it runs. *)
Record world : Type := {
  w_registered_vaults : list (string * option string);
  w_search_paths : list (string * node)
}.

Definition set_vaults (vaults : list vault) (self : plugin) : plugin :=
  {| p_vaults := vaults;
     p_vaults_cache := p_vaults_cache self;
     p_cache_timestamp := p_cache_timestamp self;
     p_cache_duration := p_cache_duration self |}.

Definition set_vaults_cache (cache : gmap string vault) (self : plugin) : plugin :=
  {| p_vaults := p_vaults self;
     p_vaults_cache := cache;
     p_cache_timestamp := p_cache_timestamp self;
     p_cache_duration := p_cache_duration self |}.

Definition set_cache_timestamp (t : Z) (self : plugin) : plugin :=
  {| p_vaults := p_vaults self;
     p_vaults_cache := p_vaults_cache self;
     p_cache_timestamp := t;
     p_cache_duration := p_cache_duration self |}.

Definition set_cache_duration (d : Z) (self : plugin) : plugin :=
  {| p_vaults := p_vaults self;
     p_vaults_cache := p_vaults_cache self;
     p_cache_timestamp := p_cache_timestamp self;
     p_cache_duration := d |}.

(** The object before [__init__] has assigned any attribute. *)
Definition blank_plugin : plugin :=
  {| p_vaults := []; p_vaults_cache := ∅; p_cache_timestamp := 0; p_cache_duration := 0 |}.

(** [{vault['path']: vault for vault in vaults}] *)
Definition cache_of (vaults : list vault) : gmap string vault :=
  fold_left (fun m v => <[v_path v := v]> m) vaults ∅.

Section Cache.
Variable json_ok : string -> bool.

(** The method [find_vaults] with its effect on the object (lines 163-167):
    [now] is the value [time.time()] returns once the scan is done. *)
Definition find_vaults_method (w : world) (now : Z) (self : plugin)
    : list vault * plugin :=
  let vaults := find_vaults json_ok (w_registered_vaults w) (w_search_paths w) in
  let self := set_vaults_cache (cache_of vaults) self in
  let self := set_cache_timestamp now self in
  (vaults, self).

(** [__init__] (lines 16-24), in the order of its assignments. *)
Definition init (w : world) (now : Z) : plugin :=
  let self := blank_plugin in
  let '(vaults, self) := find_vaults_method w now self in
  let self := set_vaults vaults self in
  let self := set_vaults_cache ∅ self in
  let self := set_cache_timestamp 0 self in
  let self := set_cache_duration 300 self in
  self.

(** [refresh_vaults_cache] (lines 620-624): [current_time] is the value of
    [time.time()] at line 622, [now] the one [find_vaults] reads if it runs. *)
Definition refresh_vaults_cache (w : world) (current_time now : Z) (self : plugin)
    : plugin :=
  if current_time - p_cache_timestamp self >? p_cache_duration self
  then let '(vaults, self) := find_vaults_method w now self in
       set_vaults vaults self
  else self.

(** [GetVaults]: refresh, then read [self.vaults]. *)
Definition get_vaults (w : world) (current_time now : Z) (self : plugin)
    : list vault * plugin :=
  let self := refresh_vaults_cache w current_time now self in
  (p_vaults self, self).

(** Within the time to live the object is left as it is. *)
Lemma refresh_within_ttl (w : world) (current_time now : Z) (self : plugin) :
  current_time - p_cache_timestamp self <= p_cache_duration self ->
  get_vaults w current_time now self = (p_vaults self, self).
Proof.
  intros Hfresh. unfold get_vaults, refresh_vaults_cache.
  destruct (Z.gtb_spec (current_time - p_cache_timestamp self) (p_cache_duration self));
    [lia|reflexivity].
Qed.

(** Past the time to live a scan runs, its result replaces the entries and the
    time stamp is set to the time of the scan. *)
Lemma refresh_after_ttl (w : world) (current_time now : Z) (self : plugin) :
  p_cache_duration self < current_time - p_cache_timestamp self ->
  let '(vaults, self') := get_vaults w current_time now self in
  vaults = find_vaults json_ok (w_registered_vaults w) (w_search_paths w)
  /\ p_vaults self' = vaults
  /\ p_cache_timestamp self' = now
  /\ p_cache_duration self' = p_cache_duration self.
Proof.
  intros Hstale. unfold get_vaults, refresh_vaults_cache.
  destruct (Z.gtb_spec (current_time - p_cache_timestamp self) (p_cache_duration self));
    [|lia].
  repeat split.
Qed.

(** [find_vaults] stamps the cache with the time of its scan ... *)
Lemma find_vaults_sets_timestamp (w : world) (now : Z) (self : plugin) :
  p_cache_timestamp (snd (find_vaults_method w now self)) = now.
Proof. reflexivity. Qed.

(** ... but [__init__] assigns [cache_timestamp = 0] after its call of
    [find_vaults], so the constructor's scan leaves no time stamp. *)
Lemma init_forgets_scan_time (w : world) (now : Z) :
  p_cache_timestamp (init w now) = 0
  /\ p_cache_duration (init w now) = 300
  /\ p_vaults (init w now)
     = find_vaults json_ok (w_registered_vaults w) (w_search_paths w).
Proof. repeat split. Qed.

(** Hence the first refresh after construction scans again, however short
    the time since the constructor's scan. *)
Lemma first_refresh_rescans (w0 w1 : world) (t0 current_time now : Z) :
  300 < current_time ->
  fst (get_vaults w1 current_time now (init w0 t0))
  = find_vaults json_ok (w_registered_vaults w1) (w_search_paths w1).
Proof.
  intros Hclock.
  pose proof (refresh_after_ttl w1 current_time now (init w0 t0)) as H.
  destruct (get_vaults w1 current_time now (init w0 t0)) as [vaults self'].
  apply H. simpl. lia.
Qed.

(** X2: [GetVaults] follows the time to live of the cache: within it the
    object and its entries are returned as they are; past it a scan runs, its
    result replaces the entries and the time stamp becomes the time of the
    scan. *)
Theorem get_vaults_follows_ttl (w : world) (current_time now : Z) (self : plugin) :
  (current_time - p_cache_timestamp self <= p_cache_duration self ->
   get_vaults w current_time now self = (p_vaults self, self))
  /\ (p_cache_duration self < current_time - p_cache_timestamp self ->
      fst (get_vaults w current_time now self)
      = find_vaults json_ok (w_registered_vaults w) (w_search_paths w)
      /\ p_vaults (snd (get_vaults w current_time now self))
         = fst (get_vaults w current_time now self)
      /\ p_cache_timestamp (snd (get_vaults w current_time now self)) = now).
Proof.
  split; [apply refresh_within_ttl|].
  intros Hstale. pose proof (refresh_after_ttl w current_time now self Hstale) as H.
  destruct (get_vaults w current_time now self) as [vaults self'].
  destruct H as (H1 & H2 & H3 & _). now repeat split.
Qed.

End Cache.

Module CacheDemo.

(** The machine when the plugin is constructed: one vault, [A]. *)
Definition world_before : world :=
  {| w_registered_vaults := [];
     w_search_paths := [("/home/u/Documents", Dir "Documents" true [ vault_dir "A" ])] |}.

(** The machine one second later: [A] is gone, [B] is there. *)
Definition world_after : world :=
  {| w_registered_vaults := [];
     w_search_paths := [("/home/u/Documents", Dir "Documents" true [ vault_dir "B" ])] |}.

End CacheDemo.

Import CacheDemo.

(** C5 (failing input): the plugin is constructed at time 1700000000, which
    scans and finds [A]; one second later, well within the 300 seconds,
    [GetVaults] scans again and returns [B] instead of the memoized [A]. *)
Theorem constructor_scan_is_not_memoized :
  map v_path (p_vaults (init json_accepts_all world_before 1700000000))
  = ["/home/u/Documents/A"]
  /\ 1700000001 - 1700000000 <= 300
  /\ map v_path
       (fst (get_vaults json_accepts_all world_after 1700000001 1700000002
               (init json_accepts_all world_before 1700000000)))
     = ["/home/u/Documents/B"].
Proof. repeat split; vm_compute; try reflexivity. discriminate. Qed.

(** Once a refresh has scanned, the following call within the time to live
    does return the memoized entries. *)
Example second_refresh_is_memoized :
  let self := snd (get_vaults json_accepts_all world_before 1700000001 1700000002
                     (init json_accepts_all world_before 1700000000)) in
  map v_path (fst (get_vaults json_accepts_all world_after 1700000100 1700000101 self))
  = ["/home/u/Documents/A"].
Proof. vm_compute. reflexivity. Qed.

(** ** A mutable file system *)

(** What exists at a path: a regular file with its text, or a directory. *)
Inductive fsobj : Type :=
| FFile (content : string)
| FDir.

(** The state the note-creation code reads and writes.
    - [fs_objs]: what exists, by path.
    - [fs_no_read]: the files whose opening for reading, or decoding, raises.
    - [fs_no_write]: the paths the system refuses to create or to open for
      writing (permissions, read-only medium, ...).
    - [fs_short_write]: the files on which a write fails part-way (a full
      disk, a lost medium, ...), with the number of bytes that reach the file
      before the exception.
    Opening a file for writing creates or empties it; the text is written
    after that.  A path is the string the program has built: two spellings
    of one path (a doubled slash, a trailing slash) are two keys. *)
Record fs : Type := {
  fs_objs : gmap string fsobj;
  fs_no_read : gset string;
  fs_no_write : gset string;
  fs_short_write : gmap string nat
}.

Definition with_objs (objs : gmap string fsobj) (s : fs) : fs :=
  {| fs_objs := objs; fs_no_read := fs_no_read s; fs_no_write := fs_no_write s;
     fs_short_write := fs_short_write s |}.

(** A computation on the file system either returns a value or raises an
    exception; both come with the state reached. *)
Inductive outcome (A : Type) : Type :=
| Returns (a : A) (s : fs)
| Raises (e : exn) (s : fs).

Arguments Returns {A} a s.
Arguments Raises {A} e s.

(** The state an outcome comes with. *)
Definition state_of {A : Type} (o : outcome A) : fs :=
  match o with Returns _ s => s | Raises _ s => s end.

Definition io (A : Type) : Type := fs -> outcome A.

Definition ret {A : Type} (a : A) : io A := fun s => Returns a s.

Definition raise {A : Type} (e : exn) : io A := fun s => Raises e s.

Definition bind {A B : Type} (m : io A) (k : A -> io B) : io B :=
  fun s =>
    match m s with
    | Returns a s' => k a s'
    | Raises e s' => Raises e s'
    end.

(** [try: m  except Exception: handler] *)
Definition try_except {A : Type} (m : io A) (handler : exn -> io A) : io A :=
  fun s =>
    match m s with
    | Returns a s' => Returns a s'
    | Raises e s' => handler e s'
    end.

Notation "x <- m ;; k" := (bind m (fun x => k))
  (at level 100, m at next level, right associativity).
Notation "m ;;; k" := (bind m (fun _ => k))
  (at level 100, right associativity).

(** [os.path.exists(p)]; it does not raise. *)
Definition path_exists (p : string) : io bool :=
  fun s => Returns (bool_decide (is_Some (fs_objs s !! p))) s.

(** [open(p, 'r', encoding='utf-8').read()] *)
Definition read_text (p : string) : io string :=
  fun s =>
    match fs_objs s !! p with
    | Some (FFile content) =>
        if bool_decide (p ∈ fs_no_read s) then Raises PermissionError s
        else Returns content s
    | Some FDir => Raises IsADirectoryError s
    | None => Raises FileNotFoundError s
    end.

(** The ancestors of a path and the path itself, outermost first:
    [/v/Daily] gives [/v] and [/v/Daily]. *)
Fixpoint prefixes_from (acc rest : string) : list string :=
  match rest with
  | EmptyString => [acc]
  | String c rest' =>
      if Ascii.eqb c "/"%char
      then (if String.eqb acc "" then [] else [acc]) ++ prefixes_from (acc +:+ "/") rest'
      else prefixes_from (acc +:+ String c "") rest'
  end.

Definition path_prefixes (p : string) : list string := prefixes_from "" p.

(** The directory a path lies in: its last ancestor.  [None] stands for the
    root and for the working directory, which exist. *)
Definition parent_of (p : string) : option string :=
  match rev (path_prefixes p) with
  | _ :: q :: _ => Some q
  | _ => None
  end.

(** The exception [open(p, 'w')] raises, if any: the path is a directory, the
    directory it lies in is missing or is a regular file, or the system
    refuses. *)
Definition open_for_writing_fails (p : string) (s : fs) : option exn :=
  match fs_objs s !! p with
  | Some FDir => Some IsADirectoryError
  | _ =>
      match match parent_of p with
            | Some q => fs_objs s !! q
            | None => Some FDir
            end with
      | None => Some FileNotFoundError
      | Some (FFile _) => Some NotADirectoryError
      | Some FDir =>
          if bool_decide (p ∈ fs_no_write s) then Some PermissionError else None
      end
  end.

(** [with open(p, 'w', encoding='utf-8') as f: f.write(text)].  When [open]
    raises nothing is changed.  After it the file exists; a write that fails
    leaves what reached the file and raises. *)
Definition write_text (p text : string) : io unit :=
  fun s =>
    match open_for_writing_fails p s with
    | Some e => Raises e s
    | None =>
        match fs_short_write s !! p with
        | Some k =>
            Raises OSError (with_objs (<[p := FFile (substring 0 k text)]> (fs_objs s)) s)
        | None => Returns tt (with_objs (<[p := FFile text]> (fs_objs s)) s)
        end
    end.

Example parent_of_examples :
  parent_of "/v/Daily/2024-03-09.md" = Some "/v/Daily"
  /\ parent_of "/v/Daily/2024/03/09.md" = Some "/v/Daily/2024/03"
  /\ parent_of "/note.md" = None
  /\ parent_of "note.md" = None.
Proof. repeat split. Qed.

(** One step of [os.makedirs(p, exist_ok=True)] for the prefix [q]: an
    existing directory is accepted, a missing one is created, and a regular
    file in the way raises [in_the_way]. *)
Definition ensure_dir (in_the_way : exn) (q : string) : io unit :=
  fun s =>
    match fs_objs s !! q with
    | Some FDir => Returns tt s
    | Some (FFile _) => Raises in_the_way s
    | None =>
        if bool_decide (q ∈ fs_no_write s) then Raises PermissionError s
        else Returns tt (with_objs (<[q := FDir]> (fs_objs s)) s)
    end.

(** A regular file at the path itself makes [mkdir] raise [FileExistsError];
    one at an ancestor makes the [mkdir] below it raise
    [NotADirectoryError]. *)
Fixpoint ensure_dirs (qs : list string) : io unit :=
  match qs with
  | [] => ret tt
  | q :: qs' =>
      ensure_dir (match qs' with
                  | [] => FileExistsError
                  | _ :: _ => NotADirectoryError
                  end) q ;;;
      ensure_dirs qs'
  end.

(** [os.makedirs(p, exist_ok=True)]: the missing ancestors are created first. *)
Definition makedirs (p : string) : io unit := ensure_dirs (path_prefixes p).

Example makedirs_examples :
  let s := {| fs_objs := list_to_map [("/v", FDir); ("/v/notes", FFile "text")];
              fs_no_read := ∅; fs_no_write := ∅;
     fs_short_write := ∅ |} in
  makedirs "/v/notes" s = Raises FileExistsError s
  /\ makedirs "/v/notes/daily" s = Raises NotADirectoryError s
  /\ makedirs "/v" s = Returns tt s
  /\ fs_objs (state_of (makedirs "/v/a/b" s)) !! "/v/a" = Some FDir
  /\ fs_objs (state_of (makedirs "/v/a/b" s)) !! "/v/a/b" = Some FDir.
Proof. repeat split; vm_compute; reflexivity. Qed.

Example path_prefixes_examples :
  path_prefixes "/v/Daily" = ["/v"; "/v/Daily"]
  /\ path_prefixes "notes/2024/daily" = ["notes"; "notes/2024"; "notes/2024/daily"]
  /\ path_prefixes "Daily" = ["Daily"].
Proof. repeat split. Qed.

(** ** Daily notes ([create_daily_note]) *)

(** The members of [daily-notes.json] the code reads. *)
Record daily_config : Type := {
  dc_format : option string;
  dc_folder : option string;
  dc_template : option string
}.

Definition blank_lines : string := String newline (String newline "").

Section DailyNotes.

(** [os.path.relpath(path, start)]. *)
Variable relpath : string -> string -> string.
(** [json.load] on the text of [daily-notes.json]: the object read, or [None]
    when the text is rejected. *)
Variable parse_daily_config : string -> option daily_config.
(** [platform.system() == 'Windows']. *)
Variable windows : bool.

(** [get_daily_notes_config(vault_path)] (lines 485-494). *)
Definition get_daily_notes_config (vault_path : string) : io (option daily_config) :=
  let config_path := join (join vault_path ".obsidian") "daily-notes.json" in
  found <- path_exists config_path ;;
  if found
  then try_except (text <- read_text config_path ;; ret (parse_daily_config text))
                  (fun _ => ret None)
  else ret None.

(** [process_template(template_content, title)] (lines 416-431); [now] renders
    the current time for a [strftime] format. *)
Definition process_template (now : string -> string) (template_content title : string)
    : string :=
  let variables :=
    [ ("{{title}}", title);
      ("{{date}}", now "%Y-%m-%d");
      ("{{time}}", now "%H:%M");
      ("{{date:YYYY-MM-DD}}", now "%Y-%m-%d");
      ("{{date:MMM DD YYYY}}", now "%b %d %Y") ] in
  fold_left (fun content vv => replace (fst vv) (snd vv) content) variables template_content.

(** The default body (lines 401-404). *)
Definition default_daily_content (now : string -> string) (title : string) : string :=
  "# " +:+ title +:+ blank_lines
  +:+ "Date: " +:+ now "%Y-%m-%d %H:%M:%S" +:+ blank_lines
  +:+ "## Notes" +:+ blank_lines
  +:+ "- " +:+ blank_lines.

(** The loop over [template_paths] (lines 383-397): the processed text of the
    first template path that exists, else the empty string. *)
Definition load_template (now : string -> string) (vault_path template title : string)
    : io string :=
  let with_md := join vault_path (template +:+ ".md") in
  let without_md := join vault_path template in
  found <- path_exists with_md ;;
  if found
  then template_content <- read_text with_md ;;
       ret (process_template now template_content title)
  else
    found <- path_exists without_md ;;
    if found
    then template_content <- read_text without_md ;;
         ret (process_template now template_content title)
    else ret "".

(** [content] as lines 378-397 leave it: the processed template when one is
    configured and found, else the empty string. *)
Definition template_content (now : string -> string) (vault_path title : string)
    (config : option daily_config) : io string :=
  match config with
  | Some {| dc_template := Some template |} =>
      load_template now vault_path template title
  | _ => ret ""
  end.

(** The [try] block of lines 377-414 for a note that does not exist yet:
    resolve the content, write it, return the paths; any exception gives the
    pair [(None, None)], written [None]. *)
Definition write_daily_note (now : string -> string)
    (vault_path full_path title : string) (config : option daily_config)
    : io (option (string * string)) :=
  try_except
    (content <- template_content now vault_path title config ;;
     let content :=
       if String.eqb content "" then default_daily_content now title else content in
     write_text full_path content ;;;
     ret (Some (full_path, relpath full_path vault_path)))
    (fun _ => ret None).

(** [create_daily_note_with_template] (lines 368-414). *)
Definition create_daily_note_with_template (now : string -> string)
    (vault_path daily_path title : string) (config : option daily_config)
    : io (option (string * string)) :=
  let full_path := join daily_path (title +:+ ".md") in
  found <- path_exists full_path ;;
  if found
  then ret (Some (full_path, relpath full_path vault_path))
  else write_daily_note now vault_path full_path title config.

(** [sort_daily_notes_folder] (lines 496-522) lists the folder and sorts a
    local list of names; it changes nothing and lets no exception out. *)
Definition sort_daily_notes_folder (daily_folder_path : string) : io unit := ret tt.

(** The title of lines 341-349: the given one, or else today's date in the
    configured format. *)
Definition resolve_title (now : string -> string) (config : option daily_config)
    (title : option string) : string :=
  let derived :=
    match config with
    | Some {| dc_format := Some obsidian_format |} =>
        now (obsidian_to_python_format windows obsidian_format)
    | _ => now "%Y-%m-%d"
    end in
  match title with
  | Some t => if String.eqb t "" then derived else t
  | None => derived
  end.

Definition resolve_folder (config : option daily_config) : string :=
  match config with
  | Some {| dc_folder := Some folder |} => folder
  | _ => "Daily"
  end.

(** [create_daily_note(vault_path, title)] (lines 336-366). *)
Definition create_daily_note (now : string -> string) (vault_path : string)
    (title : option string) : io (option (string * string)) :=
  daily_config <- get_daily_notes_config vault_path ;;
  let title := resolve_title now daily_config title in
  let daily_folder := resolve_folder daily_config in
  let daily_path := join vault_path daily_folder in
  makedirs daily_path ;;;
  sort_daily_notes_folder daily_path ;;;
  create_daily_note_with_template now vault_path daily_path title daily_config.

End DailyNotes.

(** *** Facts about the file-system primitives *)

(** [s'] has everything [s] has, unchanged, and the same access and write
    rules; [created] bounds the paths that are new. *)
Definition grows_by (created : string -> Prop) (s s' : fs) : Prop :=
  fs_no_read s' = fs_no_read s
  /\ fs_no_write s' = fs_no_write s
  /\ fs_short_write s' = fs_short_write s
  /\ (forall p obj, fs_objs s !! p = Some obj -> fs_objs s' !! p = Some obj)
  /\ (forall p, fs_objs s !! p = None -> fs_objs s' !! p <> None -> created p).

Lemma grows_by_refl (created : string -> Prop) (s : fs) : grows_by created s s.
Proof. repeat split; auto. intros p H1 H2. congruence. Qed.

Lemma grows_by_trans (c1 c2 c3 : string -> Prop) (s1 s2 s3 : fs) :
  (forall p, c1 p -> c3 p) -> (forall p, c2 p -> c3 p) ->
  grows_by c1 s1 s2 -> grows_by c2 s2 s3 -> grows_by c3 s1 s3.
Proof.
  intros H13 H23 (Hr1 & Hw1 & Hs1 & Hk1 & Hn1) (Hr2 & Hw2 & Hs2 & Hk2 & Hn2).
  repeat split; [congruence|congruence|congruence|auto|].
  intros p Hp1 Hp3. destruct (fs_objs s2 !! p) as [obj|] eqn:Hp2.
  - apply H13, Hn1; congruence.
  - apply H23, Hn2; congruence.
Qed.

Lemma grows_by_insert (s : fs) (p : string) (obj : fsobj) :
  fs_objs s !! p = None ->
  grows_by (eq p) s (with_objs (<[p := obj]> (fs_objs s)) s).
Proof.
  intros Hfree. repeat split; simpl.
  - intros q o Hq. rewrite lookup_insert_ne; [exact Hq|congruence].
  - intros q Hq Hq'. destruct (decide (p = q)) as [->|Hne]; [reflexivity|].
    rewrite lookup_insert_ne in Hq' by exact Hne. congruence.
Qed.

Lemma ensure_dir_returns (in_the_way : exn) (q : string) (s s' : fs) :
  ensure_dir in_the_way q s = Returns tt s' ->
  fs_objs s' !! q = Some FDir /\ grows_by (eq q) s s'.
Proof.
  unfold ensure_dir. destruct (fs_objs s !! q) as [[content|]|] eqn:Hq.
  - discriminate.
  - intros [= <-]. split; [exact Hq|apply grows_by_refl].
  - destruct (bool_decide (q ∈ fs_no_write s)); [discriminate|].
    intros [= <-]. split; [simpl; apply lookup_insert_eq|now apply grows_by_insert].
Qed.

Lemma ensure_dirs_returns (qs : list string) (s s' : fs) :
  ensure_dirs qs s = Returns tt s' ->
  (forall q, In q qs -> fs_objs s' !! q = Some FDir)
  /\ grows_by (fun p => In p qs) s s'.
Proof.
  revert s. induction qs as [|q qs IH]; intros s; simpl.
  - intros [= <-]. split; [intros q []|apply grows_by_refl].
  - unfold bind. destruct (ensure_dir _ q s) as [[] s1|e s1] eqn:Hq; [|discriminate].
    intros Hrest. apply ensure_dir_returns in Hq as [Hdir Hg1].
    apply IH in Hrest as [Hdirs Hg2]. split.
    + intros q' [<-|Hin]; [|now apply Hdirs].
      destruct Hg2 as (_ & _ & _ & Hkeep & _). now apply Hkeep.
    + eapply grows_by_trans; [| |exact Hg1|exact Hg2]; simpl.
      * intros p <-. now left.
      * intros p Hp. now right.
Qed.

Lemma ensure_dirs_present (qs : list string) (s : fs) :
  (forall q, In q qs -> fs_objs s !! q = Some FDir) ->
  ensure_dirs qs s = Returns tt s.
Proof.
  induction qs as [|q qs IH]; intros Hdirs; simpl; [reflexivity|].
  unfold bind, ensure_dir. rewrite (Hdirs q) by now left.
  apply IH. intros q' Hq'. apply Hdirs. now right.
Qed.

(** A successful [makedirs] leaves a directory at every prefix of the path and
    touches nothing else; repeated, it does nothing. *)
Lemma makedirs_returns (p : string) (s s' : fs) :
  makedirs p s = Returns tt s' ->
  (forall q, In q (path_prefixes p) -> fs_objs s' !! q = Some FDir)
  /\ grows_by (fun q => In q (path_prefixes p)) s s'.
Proof. apply ensure_dirs_returns. Qed.

Lemma makedirs_present (p : string) (s : fs) :
  (forall q, In q (path_prefixes p) -> fs_objs s !! q = Some FDir) ->
  makedirs p s = Returns tt s.
Proof. apply ensure_dirs_present. Qed.

Lemma prefixes_from_length (acc rest q : string) :
  In q (prefixes_from acc rest) ->
  (String.length q <= String.length acc + String.length rest)%nat.
Proof.
  revert acc. induction rest as [|c rest IH]; intros acc; simpl.
  - intros [<-|[]]. lia.
  - destruct (Ascii.eqb c "/"%char).
    + rewrite in_app_iff. intros [Hq|Hq].
      * destruct (String.eqb acc ""); [destruct Hq|]. destruct Hq as [<-|[]]. lia.
      * apply IH in Hq. rewrite string_length_app in Hq. simpl in Hq. lia.
    + intros Hq. apply IH in Hq. rewrite string_length_app in Hq. simpl in Hq. lia.
Qed.

Lemma path_prefixes_length (p q : string) :
  In q (path_prefixes p) -> (String.length q <= String.length p)%nat.
Proof. intros H. apply prefixes_from_length in H. simpl in H. lia. Qed.

(** *** Facts about [os.path.join] *)

Lemma join_relative (a b : string) :
  startswith b "/" = false ->
  exists sep, join a b = a +:+ sep +:+ b /\ (sep = "" \/ sep = "/").
Proof.
  intros Hb. unfold join. rewrite Hb.
  destruct (String.eqb a "" || endswith a "/").
  - exists "". split; [reflexivity|now left].
  - exists "/". split; [reflexivity|now right].
Qed.

Lemma join_ends_with (a b : string) :
  exists front, join a b = front +:+ b.
Proof.
  unfold join. destruct (startswith b "/"); [now exists ""|].
  destruct (String.eqb a "" || endswith a "/"); [now exists a|].
  exists (a +:+ "/"). now rewrite <- string_app_assoc.
Qed.

Lemma string_app_last (s t u v : string) (c d : ascii) :
  s +:+ t +:+ String c "" = u +:+ v +:+ String d "" -> c = d.
Proof.
  rewrite !string_app_assoc.
  generalize (s +:+ t) as x, (u +:+ v) as y. clear.
  induction x as [|a x IH]; intros [|b y]; simpl; intros H.
  - now injection H.
  - injection H as _ H. destruct y; discriminate.
  - injection H as _ H. destruct x; discriminate.
  - injection H as _ H. now apply (IH y).
Qed.

Definition join_sep (a : string) : string :=
  if String.eqb a "" || endswith a "/" then "" else "/".

Lemma join_relative_sep (a b : string) :
  startswith b "/" = false -> join a b = a +:+ join_sep a +:+ b.
Proof.
  intros Hb. unfold join, join_sep. rewrite Hb.
  now destruct (String.eqb a "" || endswith a "/").
Qed.

Lemma join_sep_length (a : string) : (String.length (join_sep a) <= 1)%nat.
Proof. unfold join_sep. destruct (String.eqb a "" || endswith a "/"); simpl; lia. Qed.

Lemma join_length_ge (a b : string) :
  startswith b "/" = false ->
  (String.length a + String.length b <= String.length (join a b))%nat.
Proof.
  intros Hb. rewrite (join_relative_sep a b Hb), !string_length_app. lia.
Qed.

(** The path of [daily-notes.json] under a vault. *)
Definition daily_config_path (vault_path : string) : string :=
  join (join vault_path ".obsidian") "daily-notes.json".

(** The configuration file is neither a note (its name does not end in
    [.md]) nor a directory on the way to the default folder. *)
Lemma daily_config_path_is_no_note (vault_path daily_path title : string) :
  daily_config_path vault_path <> join daily_path (title +:+ ".md").
Proof.
  unfold daily_config_path.
  destruct (join_ends_with (join vault_path ".obsidian") "daily-notes.json") as [u ->].
  destruct (join_ends_with daily_path (title +:+ ".md")) as [v ->].
  change "daily-notes.json" with ("daily-notes.jso" +:+ String "n"%char "").
  replace (title +:+ ".md") with ((title +:+ ".m") +:+ String "d"%char "")
    by (now rewrite <- string_app_assoc).
  intros H. apply string_app_last in H. discriminate.
Qed.

Lemma daily_config_path_not_on_default_way (vault_path : string) :
  ~ In (daily_config_path vault_path) (path_prefixes (join vault_path "Daily")).
Proof.
  intros Hin. apply path_prefixes_length in Hin.
  unfold daily_config_path in Hin.
  pose proof (join_length_ge vault_path ".obsidian" eq_refl) as H0.
  pose proof (join_length_ge (join vault_path ".obsidian") "daily-notes.json" eq_refl) as H1.
  pose proof (join_sep_length vault_path) as Hsep.
  rewrite (join_relative_sep vault_path "Daily" eq_refl) in Hin.
  rewrite !string_length_app in Hin. simpl in *. lia.
Qed.

Section DailyNotesFacts.
Variable relpath : string -> string -> string.
Variable parse_daily_config : string -> option daily_config.
Variable windows : bool.

(** The configuration [get_daily_notes_config] reads in a state. *)
Definition config_of (vault_path : string) (s : fs) : option daily_config :=
  match fs_objs s !! daily_config_path vault_path with
  | Some (FFile text) =>
      if bool_decide (daily_config_path vault_path ∈ fs_no_read s) then None
      else parse_daily_config text
  | _ => None
  end.

Lemma get_daily_notes_config_spec (vault_path : string) (s : fs) :
  get_daily_notes_config parse_daily_config vault_path s
  = Returns (config_of vault_path s) s.
Proof.
  unfold get_daily_notes_config, config_of, bind, try_except, path_exists, read_text.
  fold (daily_config_path vault_path).
  destruct (fs_objs s !! daily_config_path vault_path) as [[text|]|] eqn:Hcfg.
  - rewrite bool_decide_eq_true_2 by eauto. rewrite Hcfg.
    now destruct (bool_decide (daily_config_path vault_path ∈ fs_no_read s)).
  - rewrite bool_decide_eq_true_2 by eauto. now rewrite Hcfg.
  - rewrite bool_decide_eq_false_2; [reflexivity|]. intros [x Hx]. discriminate.
Qed.

Lemma config_of_stable (vault_path : string) (s s' : fs) :
  fs_no_read s' = fs_no_read s ->
  fs_objs s' !! daily_config_path vault_path = fs_objs s !! daily_config_path vault_path ->
  config_of vault_path s' = config_of vault_path s.
Proof. intros Hr Ho. unfold config_of. now rewrite Hr, Ho. Qed.

(** Reading leaves the state as it is. *)
Lemma read_text_state (p : string) (s : fs) :
  match read_text p s with Returns _ s' => s' = s | Raises _ s' => s' = s end.
Proof.
  unfold read_text. destruct (fs_objs s !! p) as [[content|]|]; try reflexivity.
  now destruct (bool_decide (p ∈ fs_no_read s)).
Qed.

Lemma load_template_state (now : string -> string) (vault_path template title : string)
    (s : fs) :
  match load_template now vault_path template title s with
  | Returns _ s' => s' = s
  | Raises _ s' => s' = s
  end.
Proof.
  unfold load_template, bind, path_exists, ret.
  destruct (bool_decide _).
  - pose proof (read_text_state (join vault_path (template +:+ ".md")) s) as H.
    destruct (read_text _ s); exact H.
  - destruct (bool_decide _); [|reflexivity].
    pose proof (read_text_state (join vault_path template) s) as H.
    destruct (read_text _ s); exact H.
Qed.

(** Whether resolving the content raises does not depend on the clock, and
    the state is left as it is. *)
Lemma template_content_shape (vault_path title : string)
    (config : option daily_config) (s : fs) :
  (exists e, forall now, template_content now vault_path title config s = Raises e s)
  \/ (forall now, exists content,
        template_content now vault_path title config s = Returns content s).
Proof.
  unfold template_content.
  destruct config as [[fmt folder [template|]]|];
    try (right; intros; eexists; reflexivity).
  unfold load_template, bind, path_exists, ret.
  destruct (bool_decide _).
  - pose proof (read_text_state (join vault_path (template +:+ ".md")) s) as H.
    destruct (read_text _ s) as [text s1|e s1]; subst s1; [right|left]; eauto.
  - destruct (bool_decide _); [|right; eauto].
    pose proof (read_text_state (join vault_path template) s) as H.
    destruct (read_text _ s) as [text s1|e s1]; subst s1; [right|left]; eauto.
Qed.

(** What a write does depends on the path and the state, not on the text:
    [open] raises and nothing changes, or the write fails and leaves the bytes
    that went through, or the whole text is written. *)
Lemma write_text_cases (p : string) (s : fs) :
  (exists e, forall text, write_text p text s = Raises e s)
  \/ (exists k, fs_short_write s !! p = Some k
        /\ forall text,
             write_text p text s
             = Raises OSError
                 (with_objs (<[p := FFile (substring 0 k text)]> (fs_objs s)) s))
  \/ (open_for_writing_fails p s = None /\ fs_short_write s !! p = None
      /\ forall text,
           write_text p text s
           = Returns tt (with_objs (<[p := FFile text]> (fs_objs s)) s)).
Proof.
  unfold write_text. destruct (open_for_writing_fails p s) as [e|].
  - left. now exists e.
  - right. destruct (fs_short_write s !! p) as [k|].
    + left. now exists k.
    + right. auto.
Qed.

(** Writing a note that does not exist yet: every attempt reports
    [(None, None)] and changes nothing, or every attempt reports
    [(None, None)] and leaves the beginning of the note, or every attempt
    writes the note and returns its paths. *)
Lemma write_daily_note_cases (vault_path full_path title : string)
    (config : option daily_config) (s : fs) :
  (forall now, write_daily_note relpath now vault_path full_path title config s = Returns None s)
  \/ (exists k, fs_short_write s !! full_path = Some k
        /\ forall now, exists content,
             write_daily_note relpath now vault_path full_path title config s
             = Returns None
                 (with_objs (<[full_path := FFile (substring 0 k content)]> (fs_objs s)) s))
  \/ (forall now, exists content,
        write_daily_note relpath now vault_path full_path title config s
        = Returns (Some (full_path, relpath full_path vault_path))
            (with_objs (<[full_path := FFile content]> (fs_objs s)) s)).
Proof.
  unfold write_daily_note, try_except, bind.
  destruct (template_content_shape vault_path title config s) as [[e He]|Hret].
  - left. intros now. now rewrite He.
  - destruct (write_text_cases full_path s) as [[e He]|[(k & Hk & Hw)|(_ & _ & Hw)]].
    + left. intros now. destruct (Hret now) as [c ->]. now rewrite He.
    + right. left. exists k. split; [exact Hk|].
      intros now. destruct (Hret now) as [c ->]. rewrite Hw. unfold ret. eauto.
    + right. right. intros now. destruct (Hret now) as [c ->]. rewrite Hw.
      unfold ret. eauto.
Qed.


(** If the note exists, the call returns its paths and writes nothing. *)
Lemma existing_daily_note_is_returned (now : string -> string)
    (vault_path daily_path title : string) (config : option daily_config) (s : fs) :
  is_Some (fs_objs s !! join daily_path (title +:+ ".md")) ->
  create_daily_note_with_template relpath now vault_path daily_path title config s
  = Returns (Some (join daily_path (title +:+ ".md"),
                   relpath (join daily_path (title +:+ ".md")) vault_path)) s.
Proof.
  intros Hex. unfold create_daily_note_with_template, bind, path_exists.
  now rewrite bool_decide_eq_true_2 by exact Hex.
Qed.

(** The configuration read is the same after the file system has grown,
    unless the configuration file itself is among the new paths. *)
Lemma config_of_after_growth (vault_path : string) (created : string -> Prop)
    (s s' : fs) :
  grows_by created s s' ->
  (fs_objs s !! daily_config_path vault_path = None ->
   ~ created (daily_config_path vault_path)) ->
  config_of vault_path s' = config_of vault_path s.
Proof.
  intros (Hr & _ & _ & Hkeep & Hnew) Hcfg. apply config_of_stable; [exact Hr|].
  destruct (fs_objs s !! daily_config_path vault_path) as [obj|] eqn:Hc; [auto|].
  destruct (fs_objs s' !! daily_config_path vault_path) as [obj|] eqn:Hc';
    [|reflexivity].
  exfalso. apply (Hcfg eq_refl). apply Hnew; congruence.
Qed.

(** The steps of a [makedirs] that raises are repeated by a second call,
    which raises the same exception. *)
Lemma ensure_dir_raises (in_the_way : exn) (q : string) (s s' : fs) (e : exn) :
  ensure_dir in_the_way q s = Raises e s' -> s' = s.
Proof.
  unfold ensure_dir. destruct (fs_objs s !! q) as [[content|]|].
  - now intros [= _ <-].
  - discriminate.
  - destruct (bool_decide (q ∈ fs_no_write s)); [now intros [= _ <-]|discriminate].
Qed.

Lemma ensure_dirs_raises (qs : list string) (s s' : fs) (e : exn) :
  ensure_dirs qs s = Raises e s' ->
  grows_by (fun p => In p qs) s s' /\ ensure_dirs qs s' = Raises e s'.
Proof.
  revert s. induction qs as [|q qs IH]; intros s; simpl; [discriminate|].
  unfold bind. destruct (ensure_dir _ q s) as [[] s1|e1 s1] eqn:Hq.
  - intros Hrest. apply ensure_dir_returns in Hq as [Hdir Hg1].
    apply IH in Hrest as [Hg2 Hagain]. split.
    + eapply grows_by_trans; [| |exact Hg1|exact Hg2]; simpl.
      * intros p <-. now left.
      * intros p Hp. now right.
    + unfold ensure_dir.
      destruct Hg2 as (_ & _ & _ & Hkeep & _). rewrite (Hkeep _ _ Hdir). exact Hagain.
  - intros [= <- <-]. pose proof (ensure_dir_raises _ _ _ _ _ Hq) as ->.
    split; [apply grows_by_refl|]. now rewrite Hq.
Qed.

Lemma makedirs_raises (p : string) (s s' : fs) (e : exn) :
  makedirs p s = Raises e s' ->
  grows_by (fun q => In q (path_prefixes p)) s s' /\ makedirs p s' = Raises e s'.
Proof. apply ensure_dirs_raises. Qed.

(** A second call of [create_daily_note_with_template], on the state the first
    one left, leaves that state as it is.  It has the outcome of the first
    call, except after a write that failed part-way: then the first call
    reported [(None, None)] and the second returns the paths of the file the
    first one left. *)
Lemma create_daily_note_with_template_again (now1 now2 : string -> string)
    (vault_path daily_path title : string) (config : option daily_config) (s : fs) :
  let full_path := join daily_path (title +:+ ".md") in
  let first :=
    create_daily_note_with_template relpath now1 vault_path daily_path title config s in
  let second :=
    create_daily_note_with_template relpath now2 vault_path daily_path title config
      (state_of first) in
  grows_by (eq full_path) s (state_of first)
  /\ (second = first
      \/ (exists k text,
            fs_short_write s !! full_path = Some k
            /\ fs_objs s !! full_path = None
            /\ fs_objs (state_of first) !! full_path = Some (FFile (substring 0 k text))
            /\ first = Returns None (state_of first)
            /\ second = Returns (Some (full_path, relpath full_path vault_path))
                          (state_of first))).
Proof.
  simpl. set (full_path := join daily_path (title +:+ ".md")).
  assert (Hstep : forall now s0,
             create_daily_note_with_template relpath now vault_path daily_path title
               config s0
             = if bool_decide (is_Some (fs_objs s0 !! full_path))
               then Returns (Some (full_path, relpath full_path vault_path)) s0
               else write_daily_note relpath now vault_path full_path title config s0).
  { intros now s0. unfold create_daily_note_with_template, bind, path_exists.
    fold full_path. now destruct (bool_decide _). }
  rewrite (Hstep now1 s).
  destruct (fs_objs s !! full_path) as [obj|] eqn:Hfp.
  - rewrite bool_decide_eq_true_2 by eauto. simpl.
    rewrite Hstep, Hfp. rewrite bool_decide_eq_true_2 by eauto.
    split; [apply grows_by_refl|now left].
  - rewrite bool_decide_eq_false_2 by (intros [x Hx]; discriminate).
    destruct (write_daily_note_cases vault_path full_path title config s)
      as [Hnone|[(k & Hk & Htorn)|Hsome]].
    + rewrite (Hnone now1). simpl. rewrite Hstep, Hfp.
      rewrite bool_decide_eq_false_2 by (intros [x Hx]; discriminate).
      split; [apply grows_by_refl|left; apply Hnone].
    + destruct (Htorn now1) as [c ->]. simpl. rewrite Hstep. simpl.
      rewrite lookup_insert_eq. rewrite bool_decide_eq_true_2 by eauto.
      split; [now apply grows_by_insert|]. right. exists k, c. repeat split; auto.
    + destruct (Hsome now1) as [c ->]. simpl. rewrite Hstep. simpl.
      rewrite lookup_insert_eq. rewrite bool_decide_eq_true_2 by eauto.
      split; [now apply grows_by_insert|now left].
Qed.

(** [create_daily_note], step by step. *)
Lemma create_daily_note_steps (now : string -> string) (vault_path : string)
    (title : option string) (s : fs) :
  create_daily_note relpath parse_daily_config windows now vault_path title s =
  match makedirs (join vault_path (resolve_folder (config_of vault_path s))) s with
  | Returns _ sm =>
      create_daily_note_with_template relpath now vault_path
        (join vault_path (resolve_folder (config_of vault_path s)))
        (resolve_title windows now (config_of vault_path s) title)
        (config_of vault_path s) sm
  | Raises e sm => Raises e sm
  end.
Proof.
  unfold create_daily_note, bind. rewrite get_daily_notes_config_spec.
  now destruct (makedirs _ s) as [[] sm|e sm].
Qed.

(** C4: [create_daily_note_with_template] returns the paths of a note that
    already exists without writing; and when a call of [create_daily_note]
    returns the paths of the note, a second call for the same vault and the
    same title, made on the file system the first call left, returns the same
    paths and leaves that file system as it is, hence the content of the
    note.  A first call that raises is repeated by the second.  After a first
    call that reported [(None, None)] the second reports the same, unless the
    write of the first had failed part-way: the file it left exists, and the
    second call returns its paths without writing. *)
Theorem create_daily_note_idempotent :
  (forall now vault_path daily_path title config s,
      is_Some (fs_objs s !! join daily_path (title +:+ ".md")) ->
      create_daily_note_with_template relpath now vault_path daily_path title config s
      = Returns (Some (join daily_path (title +:+ ".md"),
                       relpath (join daily_path (title +:+ ".md")) vault_path)) s)
  /\ (forall now1 now2 vault_path title config s,
        get_daily_notes_config parse_daily_config vault_path s = Returns config s ->
        resolve_title windows now1 config title = resolve_title windows now2 config title ->
        let first :=
          create_daily_note relpath parse_daily_config windows now1 vault_path title s in
        let second :=
          create_daily_note relpath parse_daily_config windows now2 vault_path title
            (state_of first) in
        (forall paths s1, first = Returns (Some paths) s1 ->
                          second = Returns (Some paths) s1)
        /\ (forall e s1, first = Raises e s1 -> second = Raises e s1)
        /\ (forall s1, first = Returns None s1 ->
              second = Returns None s1
              \/ exists k text full_path,
                   fs_short_write s !! full_path = Some k
                   /\ fs_objs s !! full_path = None
                   /\ fs_objs s1 !! full_path = Some (FFile (substring 0 k text))
                   /\ second = Returns (Some (full_path, relpath full_path vault_path))
                                 s1)).
Proof.
  split; [intros; now apply existing_daily_note_is_returned|].
  intros now1 now2 vault_path title config s Hcfg Htitle. simpl.
  rewrite get_daily_notes_config_spec in Hcfg. injection Hcfg as Hcfg.
  assert (Hway : fs_objs s !! daily_config_path vault_path = None ->
                 ~ In (daily_config_path vault_path)
                     (path_prefixes (join vault_path (resolve_folder config)))).
  { intros Hc. assert (Hdef : config = None)
      by (rewrite <- Hcfg; unfold config_of; now rewrite Hc).
    rewrite Hdef. apply daily_config_path_not_on_default_way. }
  rewrite (create_daily_note_steps now1 vault_path title s). rewrite Hcfg.
  set (daily_path := join vault_path (resolve_folder config)) in *.
  destruct (makedirs daily_path s) as [[] sm|e sm] eqn:Hmk.
  - apply makedirs_returns in Hmk as [Hdirs Hgrow1].
    destruct (create_daily_note_with_template_again now1 now2 vault_path daily_path
                (resolve_title windows now1 config title) config sm) as [Hgrow2 Hagain].
    set (first := create_daily_note_with_template relpath now1 vault_path daily_path
                    (resolve_title windows now1 config title) config sm) in *.
    set (full_path := join daily_path (resolve_title windows now1 config title +:+ ".md"))
      in *.
    assert (Hsame : config_of vault_path (state_of first) = config).
    { rewrite <- Hcfg.
      apply (config_of_after_growth vault_path
               (fun p => In p (path_prefixes daily_path) \/ full_path = p)).
      - eapply grows_by_trans; [| |exact Hgrow1|exact Hgrow2]; simpl; auto.
      - intros Hc [Hin|Heq]; [now apply (Hway Hc)|].
        exact (daily_config_path_is_no_note _ _ _ (eq_sym Heq)). }
    rewrite create_daily_note_steps, Hsame. fold daily_path.
    rewrite makedirs_present
      by (intros q Hq; destruct Hgrow2 as (_ & _ & _ & Hkeep & _); apply Hkeep;
          now apply Hdirs).
    rewrite <- Htitle.
    destruct Hagain as [->|(k & text & Hk & Hfree & Hleft & Hfirst & ->)].
    + repeat split; auto.
    + rewrite Hfirst. repeat split; try discriminate.
      intros s1 [= <-]. right. exists k, text, full_path.
      destruct Hgrow1 as (_ & _ & Hshort & Hkeep & _).
      repeat split; auto.
      * now rewrite <- Hshort.
      * destruct (fs_objs s !! full_path) as [obj|] eqn:Hobj; [|reflexivity].
        apply Hkeep in Hobj. congruence.
  - simpl. apply makedirs_raises in Hmk as [Hgrow Hagain].
    rewrite create_daily_note_steps.
    rewrite (config_of_after_growth vault_path _ s sm Hgrow) by exact Hway.
    rewrite Hcfg. fold daily_path. rewrite Hagain.
    repeat split; try discriminate. auto.
Qed.

(** A failure of the folder creation is not caught: [os.makedirs] is called
    outside every [try], so its exception leaves [create_daily_note]. *)
Lemma makedirs_failure_is_raised (now : string -> string) (vault_path : string)
    (title : option string) (s s' : fs) (e : exn) :
  makedirs (join vault_path (resolve_folder (config_of vault_path s))) s = Raises e s' ->
  create_daily_note relpath parse_daily_config windows now vault_path title s
  = Raises e s'.
Proof.
  intros Hmk. now rewrite create_daily_note_steps, Hmk.
Qed.

End DailyNotesFacts.

(** *** Daily notes on concrete file systems *)

Module NotesDemo.

(** [strftime] at 2024-03-09 10:11:12, for the directives the examples use. *)
Definition clock (seconds : string) (fmt : string) : string :=
  replace "%S" seconds
    (replace "%M" "11"
       (replace "%H" "10"
          (replace "%d" "09" (replace "%m" "03" (replace "%Y" "2024" fmt))))).

(** No example below has a [daily-notes.json], so the parser is never
    consulted. *)
Definition parse_nothing (text : string) : option daily_config := None.

(** A vault [/v] without configuration and without a [Daily] folder. *)
Definition fresh_vault : fs :=
  {| fs_objs := list_to_map [("/v", FDir); ("/v/.obsidian", FDir)];
     fs_no_read := ∅;
     fs_no_write := ∅;
     fs_short_write := ∅ |}.

(** The same vault with a regular file named [Daily]. *)
Definition vault_with_file_named_daily : fs :=
  {| fs_objs := list_to_map [("/v", FDir); ("/v/.obsidian", FDir);
                             ("/v/Daily", FFile "shopping list")];
     fs_no_read := ∅;
     fs_no_write := ∅;
     fs_short_write := ∅ |}.

(** The same vault on a medium that refuses the creation of [/v/Daily]. *)
Definition read_only_vault : fs :=
  {| fs_objs := list_to_map [("/v", FDir); ("/v/.obsidian", FDir)];
     fs_no_read := ∅;
     fs_no_write := {[ "/v/Daily" ]};
     fs_short_write := ∅ |}.

(** A vault whose [Daily] folder exists but refuses the new note. *)
Definition vault_with_locked_folder : fs :=
  {| fs_objs := list_to_map [("/v", FDir); ("/v/.obsidian", FDir); ("/v/Daily", FDir)];
     fs_no_read := ∅;
     fs_no_write := {[ "/v/Daily/2024-03-09.md" ]};
     fs_short_write := ∅ |}.

(** A vault with its [Daily] folder on a disk that takes no more bytes. *)
Definition vault_on_full_disk : fs :=
  {| fs_objs := list_to_map [("/v", FDir); ("/v/.obsidian", FDir); ("/v/Daily", FDir)];
     fs_no_read := ∅;
     fs_no_write := ∅;
     fs_short_write := {[ "/v/Daily/2024-03-09.md" := 0%nat ]} |}.

End NotesDemo.

Import NotesDemo.

Example daily_note_is_created :
  let o := create_daily_note relpath_under parse_nothing false (clock "12") "/v" None
             fresh_vault in
  o = Returns (Some ("/v/Daily/2024-03-09.md", "Daily/2024-03-09.md")) (state_of o)
  /\ fs_objs (state_of o) !! "/v/Daily" = Some FDir
  /\ fs_objs (state_of o) !! "/v/Daily/2024-03-09.md"
     = Some (FFile ("# 2024-03-09" +:+ blank_lines
                    +:+ "Date: 2024-03-09 10:11:12" +:+ blank_lines
                    +:+ "## Notes" +:+ blank_lines +:+ "- " +:+ blank_lines)).
Proof. repeat split; vm_compute; reflexivity. Qed.

(** A failed write is reported as [(None, None)] ... *)
Example failed_write_is_reported :
  create_daily_note relpath_under parse_nothing false (clock "12") "/v" None
    vault_with_locked_folder
  = Returns None vault_with_locked_folder.
Proof. vm_compute. reflexivity. Qed.

(** C6 (failing input): ... but a failed folder creation is raised.  With a
    regular file named [Daily] in the vault, or with a vault that refuses the
    creation of the folder, [create_daily_note] ends with the exception of
    [os.makedirs] instead of returning [(None, None)]. *)
Theorem failed_folder_creation_is_raised :
  create_daily_note relpath_under parse_nothing false (clock "12") "/v" None
    vault_with_file_named_daily
  = Raises FileExistsError vault_with_file_named_daily
  /\ create_daily_note relpath_under parse_nothing false (clock "12") "/v" None
       read_only_vault
     = Raises PermissionError read_only_vault.
Proof. split; vm_compute; reflexivity. Qed.

Lemma create_daily_note_idempotent_witness :
  let first := create_daily_note relpath_under parse_nothing false (clock "12") "/v" None
                 fresh_vault in
  let paths := ("/v/Daily/2024-03-09.md", "Daily/2024-03-09.md") in
  first = Returns (Some paths) (state_of first)
  /\ create_daily_note relpath_under parse_nothing false (clock "13") "/v" None
       (state_of first)
     = Returns (Some paths) (state_of first).
Proof.
  simpl.
  assert (Hfirst :
            create_daily_note relpath_under parse_nothing false (clock "12") "/v" None
              fresh_vault
            = Returns (Some ("/v/Daily/2024-03-09.md", "Daily/2024-03-09.md"))
                (state_of (create_daily_note relpath_under parse_nothing false
                             (clock "12") "/v" None fresh_vault)))
    by (vm_compute; reflexivity).
  split; [exact Hfirst|].
  assert (Hcfg : get_daily_notes_config parse_nothing "/v" fresh_vault
                 = Returns None fresh_vault) by (vm_compute; reflexivity).
  assert (Htitle : resolve_title false (clock "12") None None
                   = resolve_title false (clock "13") None None)
    by (vm_compute; reflexivity).
  exact (proj1 (proj2 (create_daily_note_idempotent relpath_under parse_nothing false)
                  (clock "12") (clock "13") "/v" None None fresh_vault Hcfg Htitle)
           _ _ Hfirst).
Defined.

(** A write that fails part-way: the first call reports [(None, None)] and
    leaves the file [open] created; the second call finds it and returns its
    paths. *)
Example torn_write_leaves_a_note :
  let first := create_daily_note relpath_under parse_nothing false (clock "12") "/v" None
                 vault_on_full_disk in
  first = Returns None (state_of first)
  /\ fs_objs (state_of first) !! "/v/Daily/2024-03-09.md" = Some (FFile "")
  /\ create_daily_note relpath_under parse_nothing false (clock "13") "/v" None
       (state_of first)
     = Returns (Some ("/v/Daily/2024-03-09.md", "Daily/2024-03-09.md")) (state_of first).
Proof. repeat split; vm_compute; reflexivity. Qed.

(** A date format with slashes names a file in folders that [makedirs] has
    not made: [open] raises, the call reports [(None, None)] and the file
    system holds the [Daily] folder only. *)
Example note_in_a_missing_folder :
  let o := create_daily_note relpath_under parse_nothing false (clock "12") "/v"
             (Some "2024/03/09") fresh_vault in
  o = Returns None (state_of o)
  /\ fs_objs (state_of o) !! "/v/Daily" = Some FDir
  /\ fs_objs (state_of o) !! "/v/Daily/2024/03/09.md" = None.
Proof. repeat split; vm_compute; reflexivity. Qed.

(** ** New notes ([create_new_note]) *)

(** The characters of the class in the pattern of line 527: the angle
    brackets, the colon, the double quote (code 34), the slash, the backslash
    (code 92), the bar, the question mark and the star. *)
Definition forbidden_char (c : ascii) : bool :=
  existsb (Ascii.eqb c)
    [ "<"%char; ">"%char; ":"%char; "034"%char; "/"%char; "092"%char;
      "|"%char; "?"%char; "*"%char ].

(** The [re.sub] of line 527: every forbidden character becomes [_]. *)
Fixpoint sanitize (title : string) : string :=
  match title with
  | EmptyString => EmptyString
  | String c title' =>
      String (if forbidden_char c then "_"%char else c) (sanitize title')
  end.

(** The path tried for a value of [counter] (line 533). *)
Definition numbered_name (vault_path filename : string) (counter : nat) : string :=
  join vault_path (filename +:+ " " +:+ pretty counter +:+ ".md").

(** The loop of lines 532-534, run for at most [fuel] tests of its condition:
    the path it ends with, or [None] when the tests are used up. *)
Fixpoint probe (fuel : nat) (vault_path filename : string) (counter : nat)
    (full_path : string) (s : fs) : option string :=
  match fuel with
  | O => None
  | S fuel' =>
      if bool_decide (is_Some (fs_objs s !! full_path))
      then probe fuel' vault_path filename (S counter)
             (numbered_name vault_path filename counter) s
      else Some full_path
  end.

(** The text of lines 538-541. *)
Definition new_note_content (now : string -> string) (title : string) : string :=
  "# " +:+ title +:+ blank_lines
  +:+ "Created: " +:+ now "%Y-%m-%d %H:%M:%S" +:+ blank_lines
  +:+ "## Content" +:+ blank_lines
  +:+ "- " +:+ blank_lines.

Section NewNote.
Variable relpath : string -> string -> string.

(** [create_new_note(vault_path, title)] (lines 524-546); the outer [None]
    means that the loop has not ended within [fuel] tests. *)
Definition create_new_note (fuel : nat) (now : string -> string)
    (vault_path title : string) (s : fs)
    : option (outcome (option (string * string))) :=
  let filename := sanitize title in
  let full_path := join vault_path (filename +:+ ".md") in
  match probe fuel vault_path filename 1 full_path s with
  | None => None
  | Some full_path =>
      Some (try_except
              (write_text full_path (new_note_content now title) ;;;
               ret (Some (full_path, relpath full_path vault_path)))
              (fun _ => ret None) s)
  end.

End NewNote.

Example sanitize_example :
  sanitize ("a/b: c?" +:+ String "034"%char "") = "a_b_ c__".
Proof. reflexivity. Qed.

Example numbered_name_example : numbered_name "/v" "idea" 12 = "/v/idea 12.md".
Proof. vm_compute. reflexivity. Qed.

(** *** The loop ends, on a path that does not exist *)

Lemma probe_free (fuel : nat) (vault_path filename : string) (counter : nat)
    (full_path : string) (s : fs) (q : string) :
  probe fuel vault_path filename counter full_path s = Some q ->
  fs_objs s !! q = None.
Proof.
  revert counter full_path. induction fuel as [|fuel IH]; intros counter full_path;
    simpl; [discriminate|].
  destruct (fs_objs s !! full_path) as [obj|] eqn:Hfp.
  - rewrite bool_decide_eq_true_2 by eauto. apply IH.
  - rewrite bool_decide_eq_false_2 by (intros [x Hx]; congruence).
    now intros [= <-].
Qed.

Lemma probe_ends (k fuel : nat) (vault_path filename : string) (counter : nat)
    (full_path : string) (s : fs) :
  fs_objs s !! numbered_name vault_path filename (counter + k) = None ->
  (k + 2 <= fuel)%nat ->
  exists q, probe fuel vault_path filename counter full_path s = Some q.
Proof.
  revert fuel counter full_path.
  induction k as [|k IH]; intros fuel counter full_path Hfree Hfuel.
  - destruct fuel as [|[|fuel]]; [lia|lia|]. simpl.
    destruct (bool_decide (is_Some (fs_objs s !! full_path))); [|eauto].
    rewrite Nat.add_0_r in Hfree.
    rewrite bool_decide_eq_false_2 by (intros [x Hx]; congruence). eauto.
  - destruct fuel as [|fuel]; [lia|]. simpl.
    destruct (bool_decide (is_Some (fs_objs s !! full_path))); [|eauto].
    apply IH; [|lia]. now replace (S counter + k)%nat with (counter + S k)%nat by lia.
Qed.

Lemma string_app_inj_r (t s1 s2 : string) : s1 +:+ t = s2 +:+ t -> s1 = s2.
Proof.
  intros H.
  assert (Hlen : String.length s1 = String.length s2).
  { apply (f_equal String.length) in H. rewrite !string_length_app in H. lia. }
  revert s2 H Hlen. induction s1 as [|c s1 IH]; intros [|d s2] H Hlen;
    simpl in *; try discriminate; [reflexivity|].
  injection H as -> H. f_equal. apply IH; [exact H|lia].
Qed.

Lemma startswith_slash_cons (c : ascii) (s : string) :
  c <> "/"%char -> startswith (String c s) "/" = false.
Proof.
  intros Hne. unfold startswith. cbn [String.prefix].
  destruct (ascii_dec "/" c) as [<-|_]; [congruence|reflexivity].
Qed.

Lemma sanitized_name_is_relative (title rest : string) :
  startswith (sanitize title +:+ " " +:+ rest) "/" = false.
Proof.
  destruct title as [|c title]; [reflexivity|]. cbn [sanitize append].
  apply startswith_slash_cons.
  destruct (forbidden_char c) eqn:Hc; [discriminate|].
  intros ->. discriminate Hc.
Qed.

Lemma numbered_name_inj (vault_path title : string) :
  Inj (=) (=) (numbered_name vault_path (sanitize title)).
Proof.
  intros j k H. unfold numbered_name in H.
  rewrite !join_relative_sep in H by apply sanitized_name_is_relative.
  do 4 apply String.app_inj in H. apply string_app_inj_r in H.
  now apply pretty_nat_inj in H.
Qed.

(** Among the first [size + 1] numbered names one does not exist: the file
    system holds [size] entries and the names are pairwise different. *)
Lemma some_numbered_name_is_free (vault_path title : string) (s : fs) :
  exists k, (k <= size (fs_objs s))%nat
    /\ fs_objs s !! numbered_name vault_path (sanitize title) (1 + k) = None.
Proof.
  set (name := numbered_name vault_path (sanitize title)).
  set (n := size (fs_objs s)).
  destruct (decide (Forall (fun k => is_Some (fs_objs s !! name k)) (seq 1 (S n))))
    as [Hall|Hsome].
  - exfalso.
    assert (Hsub : list_to_set (name <$> seq 1 (S n)) ⊆ dom (fs_objs s)).
    { intros p Hp. apply elem_of_list_to_set in Hp.
      apply list_elem_of_fmap in Hp as (k & -> & Hk).
      apply elem_of_dom. rewrite Forall_forall in Hall. now apply Hall. }
    apply subseteq_size in Hsub.
    rewrite size_dom, size_list_to_set, length_fmap, length_seq in Hsub.
    + fold n in Hsub. lia.
    + apply NoDup_fmap_2; [apply numbered_name_inj|apply NoDup_seq].
  - apply not_Forall_Exists in Hsome; [|intros k; apply _].
    apply Exists_exists in Hsome as (k & Hk & Hfree).
    apply elem_of_seq in Hk.
    exists (k - 1)%nat. split; [lia|].
    replace (1 + (k - 1))%nat with k by lia.
    destruct (fs_objs s !! name k) eqn:Hl; [exfalso; apply Hfree; eauto|reflexivity].
Qed.

(** C9: [create_new_note] ends (the loop needs at most as many tests as the
    file system has entries, plus two), the path it writes to did not exist
    before the call, and everything that existed before the call is still
    there, unchanged, after it.  When it reports [(None, None)] the file
    system is as before, or holds one more file, at a path that did not
    exist: the beginning of the note, left by a write that failed
    part-way. *)
Theorem create_new_note_never_overwrites (relpath : string -> string -> string)
    (fuel : nat) (now : string -> string) (vault_path title : string) (s : fs) :
  (size (fs_objs s) + 2 <= fuel)%nat ->
  exists result s',
    create_new_note relpath fuel now vault_path title s = Some (Returns result s')
    /\ (forall p obj, fs_objs s !! p = Some obj -> fs_objs s' !! p = Some obj)
    /\ match result with
       | Some (full_path, rel_path) =>
           fs_objs s !! full_path = None
           /\ fs_objs s' = <[full_path := FFile (new_note_content now title)]> (fs_objs s)
           /\ rel_path = relpath full_path vault_path
       | None =>
           s' = s
           \/ exists full_path k,
                fs_objs s !! full_path = None
                /\ fs_short_write s !! full_path = Some k
                /\ s' = with_objs
                          (<[full_path :=
                               FFile (substring 0 k (new_note_content now title))]>
                             (fs_objs s)) s
       end.
Proof.
  intros Hfuel. unfold create_new_note.
  destruct (some_numbered_name_is_free vault_path title s) as (k & Hk & Hfree).
  destruct (probe_ends k fuel vault_path (sanitize title) 1
              (join vault_path (sanitize title +:+ ".md")) s Hfree) as [q Hq]; [lia|].
  rewrite Hq. apply probe_free in Hq.
  unfold try_except, bind, ret.
  destruct (write_text_cases q s) as [[e He]|[(j & Hj & Hw)|(_ & _ & Hw)]]; rewrite ?He, ?Hw.
  - exists None, s. repeat split; auto.
  - eexists None, _. split; [reflexivity|]. split.
    + intros p obj Hp. simpl. rewrite lookup_insert_ne; [exact Hp|congruence].
    + right. exists q, j. repeat split; auto.
  - eexists (Some (q, _)), _. split; [reflexivity|]. split; [|repeat split; exact Hq].
    intros p obj Hp. simpl. rewrite lookup_insert_ne; [exact Hp|congruence].
Qed.

Module NewNoteDemo.

(** A vault that already holds [idea.md] and [idea 1.md]. *)
Definition vault_with_ideas : fs :=
  {| fs_objs := list_to_map [("/v", FDir); ("/v/idea.md", FFile "first");
                             ("/v/idea 1.md", FFile "second")];
     fs_no_read := ∅;
     fs_no_write := ∅;
     fs_short_write := ∅ |}.

End NewNoteDemo.

Import NewNoteDemo.

Example new_note_takes_the_next_free_name :
  let o := create_new_note relpath_under 5 (clock "12") "/v" "idea" vault_with_ideas in
  option_map state_of o <> None
  /\ o = Some (Returns (Some ("/v/idea 2.md", "idea 2.md"))
                 (with_objs (<["/v/idea 2.md" :=
                               FFile (new_note_content (clock "12") "idea")]>
                               (fs_objs vault_with_ideas)) vault_with_ideas)).
Proof. split; [discriminate|]. vm_compute. reflexivity. Qed.

Lemma create_new_note_never_overwrites_witness :
  (size (fs_objs vault_with_ideas) + 2 <= 5)%nat
  /\ exists result s',
       create_new_note relpath_under 5 (clock "12") "/v" "idea" vault_with_ideas
       = Some (Returns result s')
       /\ (forall p obj, fs_objs vault_with_ideas !! p = Some obj ->
                         fs_objs s' !! p = Some obj)
       /\ match result with
          | Some (full_path, rel_path) =>
              fs_objs vault_with_ideas !! full_path = None
              /\ fs_objs s' = <[full_path := FFile (new_note_content (clock "12") "idea")]>
                                (fs_objs vault_with_ideas)
              /\ rel_path = relpath_under full_path "/v"
          | None =>
              s' = vault_with_ideas
              \/ exists full_path k,
                   fs_objs vault_with_ideas !! full_path = None
                   /\ fs_short_write vault_with_ideas !! full_path = Some k
                   /\ s' = with_objs
                             (<[full_path :=
                                  FFile (substring 0 k
                                           (new_note_content (clock "12") "idea"))]>
                                (fs_objs vault_with_ideas)) vault_with_ideas
          end.
Proof.
  assert (Hfuel : (size (fs_objs vault_with_ideas) + 2 <= 5)%nat)
    by (vm_compute; lia).
  split; [exact Hfuel|].
  exact (create_new_note_never_overwrites relpath_under 5 (clock "12") "/v" "idea"
           vault_with_ideas Hfuel).
Defined.

Lemma find_vaults_paths_unique_witness :
  count_occ string_dec
    (map v_path (find_vaults json_accepts_all registry
                   [("/home/u", home); ("/home/u/Documents/V", vault_dir "V")]))
    "/home/u/Documents/V" = 1%nat.
Proof.
  apply (proj2 (proj2 (proj2 (find_vaults_paths_unique json_accepts_all registry
                                [("/home/u", home);
                                 ("/home/u/Documents/V", vault_dir "V")])))
           "/home/u" home "/home/u/Documents/V" (vault_dir "V") "/home/u/Documents/V").
  - now left.
  - right. now left.
  - discriminate.
  - vm_compute. now left.
  - vm_compute. now left.
Defined.

(** * Further properties of the code *)

(** The parts below cover the functions around those above: the walk of
    [get_vault_info], what [search_notes] finds, the records of [find_vaults],
    the texts of templates and date patterns, the names of new notes, and the
    handlers that open Obsidian and answer the launcher's queries.

    Two more conventions.
    - What the program asks of the desktop (the browser, other processes) is
      recorded as a list of actions; a call the desktop refuses raises.
    - The titles of the answers hold characters outside ASCII; they are kept
      as the bytes of the source file. *)

(** ** What the walks reach *)

(** [yields keeps root n dir f content mtime]: the walk of the tree [n] found
    at [root], which drops from [dirs] the names [keeps] rejects, comes to the
    directory [dir] and finds the file [f] in its [files]. *)
Inductive yields (keeps : string -> bool)
    : string -> node -> string -> string -> option string -> option Z -> Prop :=
| yields_here (root d : string) (children : list node)
    (f : string) (content : option string) (mtime : option Z) :
    In (File f content mtime) children ->
    yields keeps root (Dir d true children) root f content mtime
| yields_below (root d : string) (children : list node)
    (d' : string) (listable' : bool) (inner : list node)
    (dir f : string) (content : option string) (mtime : option Z) :
    In (Dir d' listable' inner) children ->
    keeps d' = true ->
    yields keeps (join root d') (Dir d' listable' inner) dir f content mtime ->
    yields keeps root (Dir d true children) dir f content mtime.

(** The filter on [dirs] of line 256. *)
Definition info_keeps (d : string) : bool := negb (startswith d ".").

(** The files with a name in [.md] that the walk of [get_vault_info] comes to
    (lines 254-259), each with what [os.path.getmtime] gives for it. *)
Fixpoint md_files (root : string) (n : node) {struct n} : list (string * option Z) :=
  match n with
  | File _ _ _ => []
  | Dir _ false _ => []
  | Dir _ true children =>
      flat_map (fun c => match c with
                         | File f _ mtime =>
                             if endswith f ".md" then [(join root f, mtime)] else []
                         | Dir _ _ _ => []
                         end) children
      ++ flat_map (fun c => match c with
                            | Dir d _ _ =>
                                if info_keeps d then md_files (join root d) c else []
                            | File _ _ _ => []
                            end) children
  end.

Lemma fold_left_invariant {A B : Type} (P : B -> Prop) (step : B -> A -> B)
    (cs : list A) (acc : B) :
  P acc -> (forall acc c, In c cs -> P acc -> P (step acc c)) ->
  P (fold_left step cs acc).
Proof.
  revert acc. induction cs as [|c cs IH]; intros acc Hacc Hstep; simpl; [exact Hacc|].
  apply IH; [apply Hstep; [now left|exact Hacc]|].
  intros acc' c' Hin. apply Hstep. now right.
Qed.

Lemma fold_left_snd_In {A B C : Type} (step : C * list B -> A -> C * list B)
    (h : A -> list B) (cs : list A) (acc : C * list B) (x : B) :
  (forall acc c, In c cs -> snd (step acc c) = (snd acc ++ h c)%list) ->
  In x (snd (fold_left step cs acc))
  <-> In x (snd acc) \/ exists c, In c cs /\ In x (h c).
Proof.
  revert acc. induction cs as [|c cs IH]; intros acc Hstep; simpl.
  - split; [now left|]. intros [H|(c & [] & _)]. exact H.
  - rewrite IH by (intros; apply Hstep; now right).
    rewrite Hstep by now left. rewrite in_app_iff. split.
    + intros [[H|H]|(c' & Hc' & H)]; eauto.
    + intros [H|(c' & [<-|Hc'] & H)]; eauto.
Qed.

Section InfoFacts.
Variable json_ok : string -> bool.

Lemma info_walk_length (root : string) (n : node) :
  (length (snd (info_walk root n)) <= fst (info_walk root n))%nat.
Proof.
  revert root. induction n as [f content mtime|d listable children IH]
    using node_tree_ind; intros root; [simpl; lia|].
  destruct listable; [|simpl; lia]. cbn [info_walk].
  rewrite List.Forall_forall in IH.
  apply (fold_left_invariant (fun acc => (length (snd acc) <= fst acc)%nat)).
  - apply (fold_left_invariant (fun acc => (length (snd acc) <= fst acc)%nat));
      [simpl; lia|].
    intros acc [f content mtime|] _ Hacc; [|exact Hacc].
    destruct (endswith f ".md"); [|exact Hacc].
    destruct mtime; simpl; [rewrite length_app; simpl|]; lia.
  - intros acc [|d' l' inner] Hin Hacc; [exact Hacc|].
    destruct (existsb _ _); [|exact Hacc]. cbn [fst snd]. rewrite length_app.
    specialize (IH _ Hin (join root d')). lia.
Qed.

(** The notes of one directory that the walk collects. *)
Lemma info_walk_In (root : string) (n : node) (p : string) (t : Z) :
  In (p, t) (snd (info_walk root n))
  <-> exists dir f content,
        yields info_keeps root n dir f content (Some t)
        /\ endswith f ".md" = true /\ p = join dir f.
Proof.
  revert root. induction n as [f content mtime|d listable children IH]
    using node_tree_ind; intros root.
  { split; [intros []|]. intros (dir & f' & c & H & _). inversion H. }
  destruct listable.
  2:{ split; [intros []|]. intros (dir & f' & c & H & _). inversion H. }
  cbn [info_walk]. rewrite List.Forall_forall in IH.
  rewrite (fold_left_snd_In _
             (fun c => match c with
                       | Dir d' _ _ =>
                           if info_keeps d' then snd (info_walk (join root d') c) else []
                       | File _ _ _ => []
                       end)).
  2:{ intros acc [f content mtime|d' l' inner] Hin; [now rewrite app_nil_r|].
      rewrite (kept_name_in_dirs (fun d => negb (startswith d ".")) children d' l' inner Hin).
      change (negb (startswith d' ".")) with (info_keeps d').
      destruct (info_keeps d'); [reflexivity|now rewrite app_nil_r]. }
  rewrite (fold_left_snd_In _
             (fun c => match c with
                       | File f _ (Some t) =>
                           if endswith f ".md" then [(join root f, t)] else []
                       | _ => []
                       end)).
  2:{ intros acc [f content [t'|]|d' l' inner] Hin; try now rewrite app_nil_r.
      - now destruct (endswith f ".md"); [|rewrite app_nil_r].
      - now destruct (endswith f ".md"); rewrite app_nil_r. }
  split.
  - intros [[[]|(c & Hc & Hx)]|(c & Hc & Hx)].
    + destruct c as [f content [t'|]|]; try destruct Hx.
      destruct (endswith f ".md") eqn:Hmd; [|destruct Hx].
      destruct Hx as [[= <- <-]|[]].
      exists root, f, content. split; [now constructor|now split].
    + destruct c as [|d' l' inner]; [destruct Hx|].
      destruct (info_keeps d') eqn:Hk; [|destruct Hx].
      apply (IH _ Hc) in Hx as (dir & f & content & Hy & Hmd & ->).
      exists dir, f, content. split; [|now split].
      eapply yields_below; eauto.
  - intros (dir & f & content & Hy & Hmd & ->).
    inversion Hy as [? ? ? ? ? ? Hin|? ? ? d' l' inner ? ? ? ? Hin Hk Hsub]; subst.
    + left. right. exists (File f content (Some t)). split; [exact Hin|].
      rewrite Hmd. now left.
    + right. exists (Dir d' l' inner). split; [exact Hin|]. rewrite Hk.
      apply (IH _ Hin). exists dir, f, content. now repeat split.
Qed.

Lemma StronglySorted_app_inv {A : Type} (R : A -> A -> Prop) (l1 l2 : list A) :
  StronglySorted R (l1 ++ l2) ->
  forall a b, In a l1 -> In b l2 -> R a b.
Proof.
  induction l1 as [|x l1 IH]; intros Hs a b Ha Hb; [destruct Ha|].
  simpl in Hs. apply StronglySorted_inv in Hs as [Hs Hx].
  destruct Ha as [<-|Ha]; [|now apply IH].
  rewrite List.Forall_forall in Hx. apply Hx. apply in_or_app. now right.
Qed.

Definition newer_first (a b : string * Z) : Prop := snd b <= snd a.

Lemma recent_sorted (l : list (string * Z)) :
  StronglySorted newer_first (sort_by snd (fun a b => b <? a) l).
Proof.
  eapply StronglySorted_impl; [|apply sort_by_sorted].
  - intros x y. unfold key_le, newer_first. lia.
  - intros a b. lia.
  - intros a b c. lia.
Qed.

(** X5: the [recent_notes] of [get_vault_info] are at most five and never
    more than [note_count]; they are ordered from the newest to the oldest,
    and they are the newest ones: a note the walk has collected that is not
    listed is no newer than any note listed. *)
Theorem get_vault_info_recent_notes (vault_path : string) (children : list node) :
  let info := get_vault_info json_ok vault_path children in
  (length (snd info) <= 5)%nat
  /\ (length (snd info) <= fst info)%nat
  /\ StronglySorted newer_first (snd info)
  /\ (forall x y,
        In x (snd (info_walk vault_path (Dir "" true children))) ->
        ~ In x (snd info) -> In y (snd info) -> snd x <= snd y).
Proof.
  unfold get_vault_info.
  destruct (config_read_raises json_ok children).
  { cbn [fst snd length]. split; [lia|]. split; [lia|]. split; [constructor|].
    intros x y _ _ []. }
  pose proof (info_walk_length vault_path (Dir "" true children)) as Hlen.
  destruct (info_walk vault_path (Dir "" true children)) as [note_count collected].
  set (sorted := sort_by snd (fun a b => b <? a) collected).
  pose proof (recent_sorted collected) as Hsorted. fold sorted in Hsorted.
  cbn [fst snd] in *.
  split; [rewrite length_take; lia|].
  split; [rewrite length_take; unfold sorted; rewrite sort_by_length; lia|].
  split; [now apply StronglySorted_firstn|].
  intros x y Hx Hnot Hy.
  rewrite <- (firstn_skipn 5 sorted) in Hsorted.
  apply (StronglySorted_app_inv _ _ _ Hsorted y x Hy).
  assert (Hin : In x sorted)
    by (apply (Permutation_in _ (Permutation_sym (sort_by_perm _ _ _))); exact Hx).
  rewrite <- (firstn_skipn 5 sorted) in Hin. apply in_app_or in Hin as [H|H];
    [contradiction|exact H].
Qed.

Lemma fold_left_fst_count {A B C : Type} (step : nat * C -> A -> nat * C)
    (h : A -> list B) (cs : list A) (acc : nat * C) :
  (forall acc c, In c cs -> fst (step acc c) = (fst acc + length (h c))%nat) ->
  fst (fold_left step cs acc) = (fst acc + length (flat_map h cs))%nat.
Proof.
  revert acc. induction cs as [|c cs IH]; intros acc Hstep; simpl; [lia|].
  rewrite IH by (intros; apply Hstep; now right).
  rewrite Hstep by now left. rewrite length_app. lia.
Qed.

(** [note_count] is the number of the files the walk comes to whose names end
    in [.md]. *)
Lemma info_walk_count (root : string) (n : node) :
  fst (info_walk root n) = length (md_files root n).
Proof.
  revert root. induction n as [f content mtime|d listable children IH]
    using node_tree_ind; intros root; [reflexivity|].
  destruct listable; [|reflexivity]. cbn [info_walk md_files].
  rewrite List.Forall_forall in IH.
  rewrite (fold_left_fst_count _
             (fun c => match c with
                       | Dir d' _ _ => if info_keeps d' then md_files (join root d') c else []
                       | File _ _ _ => []
                       end)).
  2:{ intros acc [f content mtime|d' l' inner] Hin; [simpl; lia|].
      rewrite (kept_name_in_dirs (fun d => negb (startswith d ".")) children d' l' inner Hin).
      change (negb (startswith d' ".")) with (info_keeps d').
      destruct (info_keeps d'); [|simpl; lia].
      cbn [fst]. now rewrite (IH _ Hin). }
  rewrite (fold_left_fst_count _
             (fun c => match c with
                       | File f _ mtime =>
                           if endswith f ".md" then [(join root f, mtime)] else []
                       | Dir _ _ _ => []
                       end)).
  2:{ intros acc [f content mtime|d' l' inner] Hin; [|simpl; lia].
      destruct (endswith f ".md"); simpl; lia. }
  rewrite length_app. simpl. lia.
Qed.

Lemma md_files_In (root : string) (n : node) (p : string) (mtime : option Z) :
  In (p, mtime) (md_files root n)
  <-> exists dir f content,
        yields info_keeps root n dir f content mtime
        /\ endswith f ".md" = true /\ p = join dir f.
Proof.
  revert root. induction n as [f content mt|d listable children IH]
    using node_tree_ind; intros root.
  { split; [intros []|]. intros (dir & f' & c & H & _). inversion H. }
  destruct listable.
  2:{ split; [intros []|]. intros (dir & f' & c & H & _). inversion H. }
  cbn [md_files]. rewrite List.Forall_forall in IH.
  rewrite in_app_iff, !in_flat_map. split.
  - intros [(c & Hc & Hx)|(c & Hc & Hx)].
    + destruct c as [f content mt|]; [|destruct Hx].
      destruct (endswith f ".md") eqn:Hmd; [|destruct Hx].
      destruct Hx as [[= <- <-]|[]].
      exists root, f, content. split; [now constructor|now split].
    + destruct c as [|d' l' inner]; [destruct Hx|].
      destruct (info_keeps d') eqn:Hk; [|destruct Hx].
      apply (IH _ Hc) in Hx as (dir & f & content & Hy & Hmd & ->).
      exists dir, f, content. split; [|now split].
      eapply yields_below; eauto.
  - intros (dir & f & content & Hy & Hmd & ->).
    inversion Hy as [? ? ? ? ? ? Hin|? ? ? d' l' inner ? ? ? ? Hin Hk Hsub]; subst.
    + left. exists (File f content mtime). split; [exact Hin|].
      rewrite Hmd. now left.
    + right. exists (Dir d' l' inner). split; [exact Hin|]. rewrite Hk.
      apply (IH _ Hin). exists dir, f, content. now repeat split.
Qed.

(** X6: the notes of a vault are the files whose names end in [.md] that the
    walk comes to without entering a directory whose name starts with a dot.
    When reading [.obsidian/config] does not raise, [note_count] is their
    number, and a note with a readable modification time is listed among the
    recent notes unless five are listed already; every recent note is such a
    note, with its modification time.  When reading the configuration raises,
    the count is zero and no note is listed. *)
Theorem get_vault_info_lists_visible_notes (vault_path : string) (children : list node) :
  let info := get_vault_info json_ok vault_path children in
  let notes := md_files vault_path (Dir "" true children) in
  (forall p mtime,
      In (p, mtime) notes
      <-> exists dir f content,
            yields info_keeps vault_path (Dir "" true children) dir f content mtime
            /\ endswith f ".md" = true /\ p = join dir f)
  /\ (config_read_raises json_ok children = false -> fst info = length notes)
  /\ (forall p t, In (p, t) (snd info) -> In (p, Some t) notes)
  /\ (forall p t,
        config_read_raises json_ok children = false ->
        In (p, Some t) notes ->
        In (p, t) (snd info) \/ length (snd info) = 5%nat)
  /\ (config_read_raises json_ok children = true -> info = (O, [])).
Proof.
  cbv zeta. split; [intros p mtime; apply md_files_In|].
  assert (Hsame : forall p t,
             In (p, t) (snd (info_walk vault_path (Dir "" true children)))
             <-> In (p, Some t) (md_files vault_path (Dir "" true children)))
    by (intros p t; now rewrite info_walk_In, md_files_In).
  pose proof (info_walk_count vault_path (Dir "" true children)) as Hcount.
  unfold get_vault_info.
  destruct (config_read_raises json_ok children).
  { split; [discriminate|]. split; [intros p t []|]. split; [discriminate|reflexivity]. }
  destruct (info_walk vault_path (Dir "" true children)) as [note_count collected].
  cbn [fst snd] in *.
  split; [intros _; exact Hcount|]. split; [|split; [|discriminate]].
  - intros p t Hin. apply Hsame.
    apply list_elem_of_In, elem_of_take in Hin as (i & Hi & _).
    apply list_elem_of_lookup_2, list_elem_of_In in Hi.
    now apply (Permutation_in _ (sort_by_perm _ _ _)) in Hi.
  - intros p t _ Hin. apply Hsame in Hin.
    apply (Permutation_in _ (Permutation_sym (sort_by_perm snd (fun a b => b <? a) _)))
      in Hin.
    set (sorted := sort_by snd (fun a b => b <? a) collected) in *.
    destruct (Nat.le_gt_cases (length sorted) 5) as [Hshort|Hlong].
    + left. now rewrite firstn_all2.
    + right. rewrite length_take. lia.
Qed.

End InfoFacts.

(** ** Search: what is found *)

Lemma contains_empty (s : string) : contains "" s = true.
Proof. destruct s; reflexivity. Qed.

(** The directory a walk has come to lies at the end of a chain of names the
    filter keeps. *)
Lemma yields_route (keeps : string -> bool) (root : string) (n : node)
    (dir f : string) (content : option string) (mtime : option Z) :
  yields keeps root n dir f content mtime ->
  exists comps, dir = fold_left join comps root /\ Forall (fun d => keeps d = true) comps.
Proof.
  induction 1 as [root d children f content mtime Hin
                 |root d children d' l' inner dir f content mtime Hin Hk Hsub IH].
  - exists []. split; [reflexivity|constructor].
  - destruct IH as (comps & -> & Hall). exists (d' :: comps).
    split; [reflexivity|now constructor].
Qed.

Section SearchMore.
Variable lower : string -> string.
Variable relpath : string -> string -> string.
Variable date_of : Z -> option string.

Lemma search_walk_In (vault_path q : string) (n : node) (root : string) (h : hit) :
  In h (search_walk lower relpath date_of vault_path q root n)
  <-> exists dir f content mtime,
        yields search_keeps root n dir f content mtime
        /\ note_hit lower relpath date_of vault_path q dir f content mtime = Some h.
Proof.
  revert root. induction n as [f content mtime|d listable children IH]
    using node_tree_ind; intros root.
  { split; [intros []|]. intros (dir & f' & c & m & H & _). inversion H. }
  destruct listable.
  2:{ split; [intros []|]. intros (dir & f' & c & m & H & _). inversion H. }
  cbn [search_walk]. rewrite List.Forall_forall in IH.
  rewrite in_app_iff, !in_flat_map. split.
  - intros [(c & Hc & Hh)|(c & Hc & Hh)].
    + destruct c as [f content mtime|]; [|destruct Hh].
      destruct (note_hit _ _ _ _ _ _ _ _ _) as [h'|] eqn:Hhit; [|destruct Hh].
      destruct Hh as [<-|[]].
      exists root, f, content, mtime. split; [now constructor|exact Hhit].
    + destruct c as [|d' l' inner]; [destruct Hh|].
      rewrite (kept_name_in_dirs search_keeps children d' l' inner Hc) in Hh.
      destruct (search_keeps d') eqn:Hk; [|destruct Hh].
      apply (IH _ Hc) in Hh as (dir & f & content & mtime & Hy & Hhit).
      exists dir, f, content, mtime. split; [|exact Hhit].
      eapply yields_below; eauto.
  - intros (dir & f & content & mtime & Hy & Hhit).
    inversion Hy as [? ? ? ? ? ? Hin|? ? ? d' l' inner ? ? ? ? Hin Hk Hsub]; subst.
    + left. exists (File f content mtime). split; [exact Hin|].
      rewrite Hhit. now left.
    + right. exists (Dir d' l' inner). split; [exact Hin|].
      rewrite (kept_name_in_dirs search_keeps children d' l' inner Hin), Hk.
      apply (IH _ Hin). exists dir, f, content, mtime. now split.
Qed.

Lemma note_hit_Some (vault_path q root file : string) (content : option string)
    (mtime : option Z) (h : hit) :
  note_hit lower relpath date_of vault_path q root file content mtime = Some h
  <-> exists text t,
        content = Some text /\ mtime = Some t
        /\ endswith file ".md" = true
        /\ contains q (lower (drop_last 3 file)) || contains q (lower text) = true
        /\ exists date_str,
             date_of t = Some date_str
             /\ h = {| h_file := file;
                       h_path := join root file;
                       h_rel_path := relpath (join root file) vault_path;
                       h_title := drop_last 3 file;
                       h_preview := first_line_preview text;
                       h_date := date_str;
                       h_mtime := t |}.
Proof.
  unfold note_hit. split.
  - destruct (endswith file ".md"); [|discriminate].
    destruct content as [text|]; [|discriminate].
    destruct (_ || _) eqn:Hm; [|discriminate].
    destruct mtime as [t|]; [|discriminate].
    destruct (date_of t) as [date_str|] eqn:Hdate; [|discriminate].
    intros [= <-]. exists text, t. repeat split; auto. now exists date_str.
  - intros (text & t & -> & -> & -> & -> & date_str & -> & ->). reflexivity.
Qed.

Lemma search_notes_In (vault_path : string) (n : node) (query : string) (limit : Z)
    (h : hit) :
  In h (search_notes lower relpath date_of vault_path n query limit) ->
  In h (search_walk lower relpath date_of vault_path (lower query) vault_path n).
Proof.
  unfold search_notes. intros Hin. apply slice_to_incl in Hin.
  now apply (Permutation_in _ (sort_by_perm _ _ _)) in Hin.
Qed.

(** X7: every note [search_notes] returns is a readable file whose name
    ends in [.md], found under the vault along directories whose names do not
    start with a dot; the lowered query occurs in its lowered title or in its
    lowered text; and its fields are those of that file: the name, the path,
    the path relative to the vault, the title (the name without [.md]), the
    date and the modification time. *)
Theorem search_notes_returns_matching_notes (vault_path : string) (n : node)
    (query : string) (limit : Z) (h : hit) :
  In h (search_notes lower relpath date_of vault_path n query limit) ->
  exists comps f text t,
    yields search_keeps vault_path n (fold_left join comps vault_path) f (Some text) (Some t)
    /\ Forall (fun d => startswith d "." = false) comps
    /\ endswith f ".md" = true
    /\ (contains (lower query) (lower (drop_last 3 f)) = true
        \/ contains (lower query) (lower text) = true)
    /\ h_file h = f
    /\ h_path h = join (fold_left join comps vault_path) f
    /\ h_rel_path h = relpath (h_path h) vault_path
    /\ h_title h = drop_last 3 f
    /\ date_of t = Some (h_date h)
    /\ h_mtime h = t.
Proof.
  intros Hin. apply search_notes_In, search_walk_In in Hin
    as (dir & f & content & mtime & Hy & Hhit).
  apply note_hit_Some in Hhit as (text & t & -> & -> & Hmd & Hm & date_str & Hdate & ->).
  destruct (yields_route _ _ _ _ _ _ _ Hy) as (comps & -> & Hkept).
  exists comps, f, text, t. cbn [h_file h_path h_rel_path h_title h_date h_mtime].
  split; [exact Hy|]. split.
  { eapply List.Forall_impl; [|exact Hkept]. intros d Hd. unfold search_keeps in Hd.
    apply andb_true_iff in Hd as [_ Hd]. now apply negb_true_iff in Hd. }
  split; [exact Hmd|]. split; [now apply orb_true_iff|]. now repeat split.
Qed.

Lemma search_notes_complete (vault_path : string) (n : node)
    (query : string) (limit : Z) (dir f text : string) (t : Z) (date_str : string) :
  0 <= limit ->
  yields search_keeps vault_path n dir f (Some text) (Some t) ->
  endswith f ".md" = true ->
  contains (lower query) (lower (drop_last 3 f)) = true
  \/ contains (lower query) (lower text) = true ->
  date_of t = Some date_str ->
  let result := search_notes lower relpath date_of vault_path n query limit in
  In {| h_file := f;
        h_path := join dir f;
        h_rel_path := relpath (join dir f) vault_path;
        h_title := drop_last 3 f;
        h_preview := first_line_preview text;
        h_date := date_str;
        h_mtime := t |} result
  \/ Z.of_nat (length result) = limit.
Proof.
  intros Hlimit Hy Hmd Hm Hdate. cbv zeta.
  set (h := {| h_file := f;
               h_path := join dir f;
               h_rel_path := relpath (join dir f) vault_path;
               h_title := drop_last 3 f;
               h_preview := first_line_preview text;
               h_date := date_str;
               h_mtime := t |}).
  assert (Hin : In h (search_walk lower relpath date_of vault_path (lower query)
                        vault_path n)).
  { apply search_walk_In. exists dir, f, (Some text), (Some t). split; [exact Hy|].
    apply note_hit_Some. exists text, t. repeat split; try assumption.
    - now apply orb_true_iff.
    - now exists date_str. }
  unfold search_notes. rewrite slice_to_nonneg by exact Hlimit.
  set (sorted := sort_by _ _ _).
  assert (Hs : In h sorted)
    by (apply (Permutation_in _ (Permutation_sym (sort_by_perm _ _ _))); exact Hin).
  destruct (Nat.le_gt_cases (length sorted) (Z.to_nat limit)) as [Hshort|Hlong].
  - left. now rewrite firstn_all2 by exact Hshort.
  - right. rewrite length_take. lia.
Qed.

(** A note whose modification time has no calendar date is skipped. *)
Lemma search_notes_skips_undated_notes (vault_path : string) (n : node)
    (query : string) (limit : Z) (h : hit) :
  In h (search_notes lower relpath date_of vault_path n query limit) ->
  date_of (h_mtime h) = Some (h_date h).
Proof.
  intros Hin. apply search_notes_In, search_walk_In in Hin
    as (dir & f & content & mtime & Hy & Hhit).
  now apply note_hit_Some in Hhit as (text & t & -> & -> & Hmd & Hm & d & Hdate & ->).
Qed.

(** X8: for a limit that is not negative, a readable note that matches the
    query, lies along directories the walk keeps and has a modification time
    with a calendar date is returned, with its fields, unless the result is
    full (it has [limit] notes). *)
Theorem search_notes_finds_matching_notes (vault_path : string) (n : node)
    (query : string) (limit : Z) (dir f text : string) (t : Z) (date_str : string) :
  0 <= limit ->
  yields search_keeps vault_path n dir f (Some text) (Some t) ->
  endswith f ".md" = true ->
  contains (lower query) (lower (drop_last 3 f)) = true
  \/ contains (lower query) (lower text) = true ->
  date_of t = Some date_str ->
  let result := search_notes lower relpath date_of vault_path n query limit in
  In {| h_file := f;
        h_path := join dir f;
        h_rel_path := relpath (join dir f) vault_path;
        h_title := drop_last 3 f;
        h_preview := first_line_preview text;
        h_date := date_str;
        h_mtime := t |} result
  \/ Z.of_nat (length result) = limit.
Proof. apply search_notes_complete. Qed.

(** The empty query matches every readable note. *)
Corollary search_notes_empty_query (vault_path : string) (n : node) (limit : Z)
    (dir f text : string) (t : Z) (date_str : string) :
  lower "" = "" ->
  0 <= limit ->
  yields search_keeps vault_path n dir f (Some text) (Some t) ->
  endswith f ".md" = true ->
  date_of t = Some date_str ->
  let result := search_notes lower relpath date_of vault_path n "" limit in
  (exists h, In h result /\ h_path h = join dir f /\ h_mtime h = t)
  \/ Z.of_nat (length result) = limit.
Proof.
  intros Hlower Hlimit Hy Hmd Hdate.
  destruct (search_notes_complete vault_path n "" limit dir f text t date_str)
    as [H|H]; try assumption.
  - left. rewrite Hlower. apply contains_empty.
  - left. eexists. split; [exact H|]. now split.
  - now right.
Qed.

End SearchMore.

(** ** Discovery: the records *)

Lemma registered_id_Some (registered_vaults : list (string * option string))
    (vault_path id : string) :
  registered_id registered_vaults vault_path = Some id ->
  In (id, Some vault_path) registered_vaults.
Proof.
  unfold registered_id.
  destruct (List.find _ registered_vaults) as [[id' [p|]]|] eqn:Hfind; try discriminate.
  - intros [= <-]. apply find_some in Hfind as [Hin Heq]. simpl in Heq.
    apply String.eqb_eq in Heq as ->. exact Hin.
  - apply find_some in Hfind as [_ Heq]. discriminate Heq.
Qed.

Lemma registered_id_None (registered_vaults : list (string * option string))
    (vault_path : string) :
  registered_id registered_vaults vault_path = None ->
  forall id, ~ In (id, Some vault_path) registered_vaults.
Proof.
  unfold registered_id.
  destruct (List.find _ registered_vaults) as [vv|] eqn:Hfind; [discriminate|].
  intros _ id Hin. apply (find_none _ _ Hfind) in Hin. simpl in Hin.
  now rewrite String.eqb_refl in Hin.
Qed.

Section DiscoveryMore.
Variable json_ok : string -> bool.
Variable registered_vaults : list (string * option string).

Lemma get_vault_info_bounds (vault_path : string) (children : list node) :
  let info := get_vault_info json_ok vault_path children in
  (length (snd info) <= 5)%nat /\ (length (snd info) <= fst info)%nat.
Proof.
  unfold get_vault_info.
  destruct (config_read_raises json_ok children); [simpl; lia|].
  pose proof (info_walk_length vault_path (Dir "" true children)) as Hlen.
  destruct (info_walk vault_path (Dir "" true children)) as [note_count collected].
  cbn [fst snd] in *.
  split; [rewrite length_take; lia|].
  rewrite length_take, sort_by_length. lia.
Qed.

(** X9: a search root that is itself a vault (a listable directory with the
    marker directory) is in the result of [find_vaults].  The existing paths
    of the registered vaults are search roots (lines 103-108). *)
Theorem find_vaults_returns_search_root_vault
    (search_paths : list (string * node)) (search_path name : string)
    (children : list node) :
  In (search_path, Dir name true children) search_paths ->
  has_dir children ".obsidian" = true ->
  exists v,
    In v (find_vaults json_ok registered_vaults search_paths)
    /\ v_path v = search_path.
Proof.
  intros Hin Hmarker.
  assert (Hp : In search_path
                 (map v_path (find_vaults json_ok registered_vaults search_paths))).
  { eapply scan_records; [exact Hin|]. apply walk_records_first_vault.
    exists (vault_record json_ok registered_vaults search_path children).
    split; [|reflexivity]. simpl. now rewrite Hmarker. }
  apply in_map_iff in Hp as (v & Hv & Hin'). now exists v.
Qed.

(** X10: in every record [find_vaults] returns, the name is the base name of
    the path, the configuration path is the marker directory under the path,
    the vault id is the id of a registered entry with this path (and no
    entry has this path when the id is [None]), [is_registered] tells whether
    there is an id, and the recent notes are at most five and at most
    [note_count]. *)
Theorem find_vaults_records (search_paths : list (string * node)) (v : vault) :
  In v (find_vaults json_ok registered_vaults search_paths) ->
  v_name v = basename (v_path v)
  /\ v_config_path v = join (v_path v) ".obsidian"
  /\ (forall id, v_vault_id v = Some id -> In (id, Some (v_path v)) registered_vaults)
  /\ (v_vault_id v = None -> forall id, ~ In (id, Some (v_path v)) registered_vaults)
  /\ (v_is_registered v = true <-> v_vault_id v <> None)
  /\ (length (v_recent_notes v) <= 5)%nat
  /\ (length (v_recent_notes v) <= v_note_count v)%nat.
Proof.
  intros Hin. apply scan_origin in Hin as [[]|(sp & n & _ & Hv)].
  apply first_vault_route in Hv as (comps & name & children & _ & _ & -> & _).
  cbn [vault_record v_name v_path v_config_path v_vault_id v_is_registered
       v_recent_notes v_note_count].
  split; [reflexivity|]. split; [reflexivity|].
  split; [apply registered_id_Some|]. split; [apply registered_id_None|].
  split; [destruct (registered_id _ _); split; congruence|].
  apply get_vault_info_bounds.
Qed.

End DiscoveryMore.

(** ** The cache dictionary *)

Lemma cache_of_snoc (vaults : list vault) (v : vault) :
  cache_of (vaults ++ [v]) = <[v_path v := v]> (cache_of vaults).
Proof. unfold cache_of. now rewrite fold_left_app. Qed.

Lemma cache_of_lookup (vaults : list vault) (p : string) (v : vault) :
  List.NoDup (map v_path vaults) ->
  cache_of vaults !! p = Some v <-> In v vaults /\ v_path v = p.
Proof.
  induction vaults as [|x vaults IH] using rev_ind; intros Hnd.
  - unfold cache_of. simpl. rewrite lookup_empty. split; [discriminate|now intros [[] _]].
  - rewrite cache_of_snoc. rewrite map_app in Hnd. simpl in Hnd.
    assert (Hnd' : List.NoDup (map v_path vaults))
      by (apply List.NoDup_remove_1 in Hnd; now rewrite app_nil_r in Hnd).
    assert (Hx : ~ In (v_path x) (map v_path vaults))
      by (apply List.NoDup_remove_2 in Hnd; now rewrite app_nil_r in Hnd).
    rewrite in_app_iff. destruct (decide (v_path x = p)) as [<-|Hne].
    + rewrite lookup_insert_eq. split.
      * intros [= <-]. split; [right; now left|reflexivity].
      * intros [[Hin|[<-|[]]] Heq]; [|reflexivity].
        exfalso. apply Hx. rewrite <- Heq. now apply in_map.
    + rewrite lookup_insert_ne by exact Hne. rewrite (IH Hnd'). split.
      * intros [Hin Heq]. split; [now left|exact Heq].
      * intros [[Hin|[<-|[]]] Heq]; [now split|contradiction].
Qed.

Section CacheMore.
Variable json_ok : string -> bool.

(** X11: the dictionary [vaults_cache] that [find_vaults] builds maps a path
    to a record exactly when the record is in the list returned and has this
    path. *)
Theorem find_vaults_cache_lookup (w : world) (now : Z) (self : plugin)
    (p : string) (v : vault) :
  p_vaults_cache (snd (find_vaults_method json_ok w now self)) !! p = Some v
  <-> In v (fst (find_vaults_method json_ok w now self)) /\ v_path v = p.
Proof.
  cbn [find_vaults_method fst snd set_cache_timestamp set_vaults_cache p_vaults_cache].
  apply cache_of_lookup. apply scan_NoDup. constructor.
Qed.

End CacheMore.

(** ** Substitution on texts without the pattern *)

Lemma prefix_app_l (a b s : string) :
  String.prefix (a +:+ b) s = true -> String.prefix a s = true.
Proof.
  revert s. induction a as [|c a IH]; intros s; [now destruct s|].
  destruct s as [|c' s]; cbn [append String.prefix]; [discriminate|].
  destruct (ascii_dec c c'); [apply IH|discriminate].
Qed.

Lemma contains_app_l (a b s : string) :
  contains (a +:+ b) s = true -> contains a s = true.
Proof.
  induction s as [|c s IH]; cbn [contains]; rewrite !orb_true_iff.
  - intros [H|H]; [left; now apply prefix_app_l in H|discriminate].
  - intros [H|H]; [left; now apply prefix_app_l in H|right; now apply IH].
Qed.

Lemma replace_from_absent (old new s : string) :
  contains old s = false -> replace_from old new 0 s = s.
Proof.
  induction s as [|c s IH]; [reflexivity|].
  cbn [contains replace_from]. intros H. apply orb_false_iff in H as [Hp Hc].
  rewrite Hp. f_equal. now apply IH.
Qed.

(** [s.replace(old, new)] returns [s] when [old] does not occur in it. *)
Lemma replace_absent (old new s : string) :
  old <> "" -> contains old s = false -> replace old new s = s.
Proof.
  intros Hne Habs. destruct old as [|c old]; [congruence|].
  now apply replace_from_absent.
Qed.

Lemma absent_longer (a b s : string) :
  contains a s = false -> contains (a +:+ b) s = false.
Proof.
  intros Ha. destruct (contains (a +:+ b) s) eqn:Hab; [|reflexivity].
  apply contains_app_l in Hab. congruence.
Qed.

(** X12: a date pattern in which none of [YY], [MM], [D], [ddd] and [w]
    occurs is returned unchanged: a single [Y] or [M], one or two [d], and
    every other character are literal text. *)
Theorem obsidian_to_python_format_keeps_other_text (windows : bool) (fmt : string) :
  contains "YY" fmt = false ->
  contains "MM" fmt = false ->
  contains "D" fmt = false ->
  contains "ddd" fmt = false ->
  contains "w" fmt = false ->
  obsidian_to_python_format windows fmt = fmt.
Proof.
  intros HY HM HD Hd Hw. unfold obsidian_to_python_format, format_mapping.
  cbn [fold_left].
  rewrite (replace_absent "YYYY") by (try discriminate; exact (absent_longer "YY" "YY" _ HY)).
  rewrite (replace_absent "YY") by (try discriminate; exact HY).
  rewrite (replace_absent "MMMM") by (try discriminate; exact (absent_longer "MM" "MM" _ HM)).
  rewrite (replace_absent "MMM") by (try discriminate; exact (absent_longer "MM" "M" _ HM)).
  rewrite (replace_absent "MM") by (try discriminate; exact HM).
  rewrite (replace_absent "DD") by (try discriminate; exact (absent_longer "D" "D" _ HD)).
  rewrite (replace_absent "D") by (try discriminate; exact HD).
  rewrite (replace_absent "dddd") by (try discriminate; exact (absent_longer "ddd" "d" _ Hd)).
  rewrite (replace_absent "ddd") by (try discriminate; exact Hd).
  rewrite (replace_absent "ww") by (try discriminate; exact (absent_longer "w" "w" _ Hw)).
  now rewrite (replace_absent "w") by (try discriminate; exact Hw).
Qed.

(** X13: each token of the table, translated on its own, gives its own
    directive: no other substitution of the table touches it or its
    result. *)
Theorem format_mapping_tokens_translate (windows : bool) (obsidian_code python_code : string) :
  In (obsidian_code, python_code) (format_mapping windows) ->
  obsidian_to_python_format windows obsidian_code = python_code.
Proof.
  intros Hin. destruct windows; cbn [format_mapping In] in Hin;
    repeat (destruct Hin as [[= <- <-]|Hin]; [reflexivity|]); destruct Hin.
Qed.

Section TemplateFacts.
Variable now : string -> string.

(** X14: a template in which two opening braces never follow each other is
    returned as it is. *)
Theorem process_template_keeps_text_without_variables (template_content title : string) :
  contains "{{" template_content = false ->
  process_template now template_content title = template_content.
Proof.
  intros Habs. unfold process_template. cbn [fold_left fst snd].
  rewrite (replace_absent "{{title}}")
    by (try discriminate; exact (absent_longer "{{" "title}}" _ Habs)).
  rewrite (replace_absent "{{date}}")
    by (try discriminate; exact (absent_longer "{{" "date}}" _ Habs)).
  rewrite (replace_absent "{{time}}")
    by (try discriminate; exact (absent_longer "{{" "time}}" _ Habs)).
  rewrite (replace_absent "{{date:YYYY-MM-DD}}")
    by (try discriminate; exact (absent_longer "{{" "date:YYYY-MM-DD}}" _ Habs)).
  now rewrite (replace_absent "{{date:MMM DD YYYY}}")
    by (try discriminate; exact (absent_longer "{{" "date:MMM DD YYYY}}" _ Habs)).
Qed.

End TemplateFacts.

Section DailyNotesMore.
Variable relpath : string -> string -> string.
Variable parse_daily_config : string -> option daily_config.
Variable windows : bool.

(** X15: [get_daily_notes_config] lets no exception out and leaves the file
    system as it is; it returns [None] when [daily-notes.json] is missing, is
    a directory or cannot be read, and what [json.load] makes of its text
    otherwise. *)
Theorem get_daily_notes_config_never_raises (vault_path : string) (s : fs) :
  let config_path := join (join vault_path ".obsidian") "daily-notes.json" in
  exists config,
    get_daily_notes_config parse_daily_config vault_path s = Returns config s
    /\ (fs_objs s !! config_path = None -> config = None)
    /\ (fs_objs s !! config_path = Some FDir -> config = None)
    /\ (config_path ∈ fs_no_read s -> config = None)
    /\ (forall text,
          fs_objs s !! config_path = Some (FFile text) ->
          config_path ∉ fs_no_read s ->
          config = parse_daily_config text).
Proof.
  cbv zeta. fold (daily_config_path vault_path).
  exists (config_of parse_daily_config vault_path s).
  split; [apply get_daily_notes_config_spec|]. unfold config_of.
  split; [now intros ->|]. split; [now intros ->|]. split.
  - intros Hdenied. destruct (fs_objs s !! daily_config_path vault_path) as [[text|]|];
      try reflexivity.
    now rewrite bool_decide_eq_true_2.
  - intros text -> Hok. now rewrite bool_decide_eq_false_2.
Qed.





Lemma default_daily_content_nonempty (now : string -> string) (title : string) :
  default_daily_content now title <> "".
Proof. unfold default_daily_content. discriminate. Qed.

(** The text a new daily note gets, given the content lines 378-397 have
    resolved. *)
Definition daily_text (now : string -> string) (title content : string) : string :=
  if String.eqb content "" then default_daily_content now title else content.

(** X17: the text of a daily note that [create_daily_note_with_template]
    creates is never empty.  It is the default body when no template is
    configured or neither [<template>.md] nor [<template>] exists; otherwise
    it comes from [<template>.md] if that exists, else from [<template>]: the
    processed text of that file, or the default body when the processed text
    is empty.  No note is created when the template found is a directory. *)
Theorem new_daily_note_content (now : string -> string)
    (vault_path daily_path title : string) (config : option daily_config)
    (s s' : fs) (p rel : string) :
  let full_path := join daily_path (title +:+ ".md") in
  fs_objs s !! full_path = None ->
  create_daily_note_with_template relpath now vault_path daily_path title config s
  = Returns (Some (p, rel)) s' ->
  exists text,
    fs_objs s' = <[full_path := FFile text]> (fs_objs s)
    /\ text <> ""
    /\ (config = None -> text = default_daily_content now title)
    /\ (forall c, config = Some c ->
          match dc_template c with
          | None => text = default_daily_content now title
          | Some template =>
              match fs_objs s !! join vault_path (template +:+ ".md"),
                    fs_objs s !! join vault_path template with
              | Some (FFile t), _ | None, Some (FFile t) =>
                  text = daily_text now title (process_template now t title)
              | None, None => text = default_daily_content now title
              | _, _ => False
              end
          end).
Proof.
  cbv zeta. set (full_path := join daily_path (title +:+ ".md")). intros Hfree.
  unfold create_daily_note_with_template, bind, path_exists. fold full_path.
  rewrite Hfree. rewrite bool_decide_eq_false_2 by (intros [x Hx]; discriminate).
  unfold write_daily_note, try_except, bind.
  destruct (template_content now vault_path title config s) as [content s1|e s1] eqn:Htc;
    [|discriminate].
  assert (Hs1 : s1 = s).
  { destruct (template_content_shape vault_path title config s) as [[e He]|Hret].
    - rewrite He in Htc. discriminate.
    - destruct (Hret now) as [c Hc]. rewrite Hc in Htc. now injection Htc. }
  subst s1.
  destruct (write_text_cases full_path s) as [[e He]|[(k & _ & Hw)|(_ & _ & Hw)]];
    rewrite ?He, ?Hw; try discriminate.
  unfold ret. intros [= <- <- <-]. fold (daily_text now title content).
  exists (daily_text now title content). split; [reflexivity|]. split.
  { unfold daily_text. destruct (String.eqb_spec content "") as [->|Hne];
      [apply default_daily_content_nonempty|exact Hne]. }
  split.
  - intros ->. simpl in Htc. unfold ret in Htc. now injection Htc as <-.
  - intros [fmt folder [template|]] ->; cbn [dc_template].
    2:{ simpl in Htc. unfold ret in Htc. now injection Htc as <-. }
    cbn [template_content] in Htc.
    unfold load_template, bind, path_exists, read_text, ret in Htc.
    destruct (fs_objs s !! join vault_path (template +:+ ".md")) as [[t|]|] eqn:H1.
    + rewrite bool_decide_eq_true_2 in Htc by eauto. rewrite H1 in Htc.
      destruct (bool_decide (_ ∈ fs_no_read s)); [discriminate|]. now injection Htc as <-.
    + rewrite bool_decide_eq_true_2 in Htc by eauto. rewrite H1 in Htc. discriminate.
    + rewrite bool_decide_eq_false_2 in Htc by (intros [x Hx]; discriminate).
      destruct (fs_objs s !! join vault_path template) as [[t|]|] eqn:H2.
      * rewrite bool_decide_eq_true_2 in Htc by eauto. rewrite H2 in Htc.
        destruct (bool_decide (_ ∈ fs_no_read s)); [discriminate|]. now injection Htc as <-.
      * rewrite bool_decide_eq_true_2 in Htc by eauto. rewrite H2 in Htc. discriminate.
      * rewrite bool_decide_eq_false_2 in Htc by (intros [x Hx]; discriminate).
        now injection Htc as <-.
Qed.

End DailyNotesMore.

(** ** New notes: the name chosen *)

(** Every character of [s] passes the test [p]. *)
Fixpoint all_chars (p : ascii -> bool) (s : string) : bool :=
  match s with
  | EmptyString => true
  | String c s' => p c && all_chars p s'
  end.

Definition no_slash (c : ascii) : bool := negb (Ascii.eqb c "/"%char).

Lemma all_chars_app (p : ascii -> bool) (s t : string) :
  all_chars p (s +:+ t) = all_chars p s && all_chars p t.
Proof.
  induction s as [|c s IH]; [reflexivity|].
  cbn [append all_chars]. now rewrite IH, andb_assoc.
Qed.

Lemma all_chars_impl (p q : ascii -> bool) (s : string) :
  (forall c, p c = true -> q c = true) ->
  all_chars p s = true -> all_chars q s = true.
Proof.
  intros Hpq. induction s as [|c s IH]; [reflexivity|].
  cbn [all_chars]. rewrite !andb_true_iff. intros [Hc Hs]. auto.
Qed.

Lemma sanitize_clean (title : string) :
  all_chars (fun c => negb (forbidden_char c)) (sanitize title) = true.
Proof.
  induction title as [|c title IH]; [reflexivity|].
  cbn [sanitize all_chars]. rewrite IH, andb_true_r.
  destruct (forbidden_char c) eqn:Hc; [reflexivity|now rewrite Hc].
Qed.

Lemma sanitize_fixed (title : string) :
  all_chars (fun c => negb (forbidden_char c)) title = true -> sanitize title = title.
Proof.
  induction title as [|c title IH]; [reflexivity|].
  cbn [sanitize all_chars]. rewrite andb_true_iff, negb_true_iff.
  intros [-> Hs]. now rewrite IH.
Qed.

(** X18: the sanitized title has the length of the title, with each
    forbidden character replaced by [_] and every other character kept; no
    forbidden character is left in it, a title without forbidden characters
    is unchanged, and sanitizing twice is sanitizing once. *)
Theorem sanitize_spec (title : string) :
  String.length (sanitize title) = String.length title
  /\ all_chars (fun c => negb (forbidden_char c)) (sanitize title) = true
  /\ (forall i c, String.get i title = Some c ->
        String.get i (sanitize title)
        = Some (if forbidden_char c then "_"%char else c))
  /\ (all_chars (fun c => negb (forbidden_char c)) title = true -> sanitize title = title)
  /\ sanitize (sanitize title) = sanitize title.
Proof.
  split; [induction title as [|c title IH]; simpl; congruence|].
  split; [apply sanitize_clean|]. split.
  - induction title as [|c title IH]; intros i c' Hi; [discriminate|].
    destruct i as [|i]; cbn [sanitize String.get] in *; [now injection Hi as <-|].
    now apply IH.
  - split; [apply sanitize_fixed|]. apply sanitize_fixed, sanitize_clean.
Qed.

(** The decimal numeral of a number holds digits only. *)
Definition is_digit (c : ascii) : bool :=
  existsb (Ascii.eqb c)
    [ "0"%char; "1"%char; "2"%char; "3"%char; "4"%char;
      "5"%char; "6"%char; "7"%char; "8"%char; "9"%char ].

Lemma pretty_N_char_digit (x : N) : is_digit (pretty_N_char x) = true.
Proof. unfold pretty_N_char. repeat case_match; reflexivity. Qed.

Lemma pretty_N_go_digits (x : N) (s : string) :
  all_chars is_digit s = true -> all_chars is_digit (pretty_N_go x s) = true.
Proof.
  revert s. induction (N.lt_wf_0 x) as [x _ IH]; intros s Hs.
  destruct (decide (x = 0)%N) as [->|Hx]; [now rewrite pretty_N_go_0|].
  rewrite pretty_N_go_step by lia. apply IH; [apply N.div_lt; lia|].
  cbn [all_chars]. now rewrite pretty_N_char_digit, Hs.
Qed.

Lemma pretty_nat_digits (k : nat) : all_chars is_digit (pretty k) = true.
Proof.
  unfold pretty, pretty_nat, pretty, pretty_N.
  destruct (decide (N.of_nat k = 0)%N); [reflexivity|].
  now apply pretty_N_go_digits.
Qed.

Lemma sanitize_no_slash (title : string) : all_chars no_slash (sanitize title) = true.
Proof.
  eapply all_chars_impl; [|apply sanitize_clean].
  intros c Hc. unfold no_slash. destruct (Ascii.eqb_spec c "/"%char) as [->|]; [|reflexivity].
  discriminate Hc.
Qed.

Lemma numbered_file_name_no_slash (title : string) (k : nat) :
  all_chars no_slash (sanitize title +:+ " " +:+ pretty k +:+ ".md") = true.
Proof.
  rewrite !all_chars_app, sanitize_no_slash.
  rewrite (all_chars_impl is_digit no_slash (pretty k)); [reflexivity| |apply pretty_nat_digits].
  intros c Hc. unfold no_slash. destruct (Ascii.eqb_spec c "/"%char) as [->|]; [|reflexivity].
  discriminate Hc.
Qed.

Lemma plain_file_name_no_slash (title : string) :
  all_chars no_slash (sanitize title +:+ ".md") = true.
Proof. now rewrite all_chars_app, sanitize_no_slash. Qed.

(** The loop stops at the first path that does not exist. *)
Lemma probe_first (fuel : nat) (vault_path filename : string) (counter : nat)
    (full_path : string) (s : fs) (q : string) :
  probe fuel vault_path filename counter full_path s = Some q ->
  (fs_objs s !! full_path = None /\ q = full_path)
  \/ (is_Some (fs_objs s !! full_path)
      /\ exists k, (counter <= k)%nat
           /\ q = numbered_name vault_path filename k
           /\ fs_objs s !! q = None
           /\ forall j, (counter <= j < k)%nat ->
                is_Some (fs_objs s !! numbered_name vault_path filename j)).
Proof.
  revert counter full_path. induction fuel as [|fuel IH]; intros counter full_path;
    cbn [probe]; [discriminate|].
  destruct (fs_objs s !! full_path) as [obj|] eqn:Hfp.
  - rewrite bool_decide_eq_true_2 by eauto. intros Hq. right. split; [eauto|].
    apply IH in Hq as [[Hfree ->]|(Hex & k & Hk & -> & Hfree & Hbelow)].
    + exists counter. split; [lia|]. split; [reflexivity|]. split; [exact Hfree|].
      intros j Hj. lia.
    + exists k. split; [lia|]. split; [reflexivity|]. split; [exact Hfree|].
      intros j Hj. destruct (decide (j = counter)) as [->|Hne]; [exact Hex|].
      apply Hbelow. lia.
  - rewrite bool_decide_eq_false_2 by (intros [x Hx]; congruence).
    intros [= <-]. now left.
Qed.

Section NewNoteMore.
Variable relpath : string -> string -> string.

Lemma create_new_note_result (fuel : nat) (now : string -> string)
    (vault_path title : string) (s s' : fs) (p rel : string) :
  create_new_note relpath fuel now vault_path title s = Some (Returns (Some (p, rel)) s') ->
  probe fuel vault_path (sanitize title) 1 (join vault_path (sanitize title +:+ ".md")) s
  = Some p
  /\ fs_objs s !! p = None
  /\ fs_objs s' = <[p := FFile (new_note_content now title)]> (fs_objs s)
  /\ rel = relpath p vault_path.
Proof.
  unfold create_new_note.
  destruct (probe _ _ _ _ _ _) as [q|] eqn:Hq; [|discriminate].
  pose proof (probe_free _ _ _ _ _ _ _ Hq) as Hfree.
  unfold try_except, bind, ret.
  destruct (write_text_cases q s) as [[e He]|[(k & _ & Hw)|(_ & _ & Hw)]];
    rewrite ?He, ?Hw; try discriminate.
  intros [= <- <- <-]. now repeat split.
Qed.

Lemma create_new_note_name (fuel : nat) (now : string -> string)
    (vault_path title : string) (s s' : fs) (p rel : string) :
  create_new_note relpath fuel now vault_path title s = Some (Returns (Some (p, rel)) s') ->
  exists name,
    p = join vault_path name
    /\ all_chars no_slash name = true
    /\ ((name = sanitize title +:+ ".md" /\ fs_objs s !! p = None)
        \/ (is_Some (fs_objs s !! join vault_path (sanitize title +:+ ".md"))
            /\ exists k, (1 <= k)%nat
                 /\ name = sanitize title +:+ " " +:+ pretty k +:+ ".md"
                 /\ fs_objs s !! p = None
                 /\ forall j, (1 <= j < k)%nat ->
                      is_Some (fs_objs s !! numbered_name vault_path (sanitize title) j))).
Proof.
  intros Hcall. apply create_new_note_result in Hcall as (Hq & _).
  apply probe_first in Hq as [[Hfree ->]|(Hex & k & Hk & -> & Hfree & Hbelow)].
  - exists (sanitize title +:+ ".md"). split; [reflexivity|].
    split; [apply plain_file_name_no_slash|]. left. now split.
  - exists (sanitize title +:+ " " +:+ pretty k +:+ ".md"). split; [reflexivity|].
    split; [apply numbered_file_name_no_slash|]. right. split; [exact Hex|].
    exists k. now repeat split.
Qed.

Lemma probe_name (fuel : nat) (vault_path title : string) (counter : nat)
    (s : fs) (q : string) :
  probe fuel vault_path (sanitize title) counter
    (join vault_path (sanitize title +:+ ".md")) s = Some q ->
  exists name, q = join vault_path name /\ all_chars no_slash name = true.
Proof.
  intros Hq. apply probe_first in Hq as [[_ ->]|(_ & k & _ & -> & _)].
  - exists (sanitize title +:+ ".md"). split; [reflexivity|apply plain_file_name_no_slash].
  - exists (sanitize title +:+ " " +:+ pretty k +:+ ".md").
    split; [reflexivity|apply numbered_file_name_no_slash].
Qed.

(** The three ways [create_new_note] ends, at the path the loop has chosen:
    the note is written; nothing is changed; or the beginning of the note is
    left by a write that failed part-way. *)
Lemma create_new_note_outcome (fuel : nat) (now : string -> string)
    (vault_path title : string) (s : fs) (o : outcome (option (string * string))) :
  create_new_note relpath fuel now vault_path title s = Some o ->
  exists name,
    all_chars no_slash name = true
    /\ fs_objs s !! join vault_path name = None
    /\ (o = Returns (Some (join vault_path name, relpath (join vault_path name) vault_path))
              (with_objs (<[join vault_path name := FFile (new_note_content now title)]>
                            (fs_objs s)) s)
        \/ o = Returns None s
        \/ exists k,
             fs_short_write s !! join vault_path name = Some k
             /\ o = Returns None
                      (with_objs (<[join vault_path name :=
                                      FFile (substring 0 k (new_note_content now title))]>
                                    (fs_objs s)) s)).
Proof.
  unfold create_new_note.
  destruct (probe _ _ _ _ _ _) as [q|] eqn:Hq; [|discriminate].
  pose proof (probe_free _ _ _ _ _ _ _ Hq) as Hfree.
  apply probe_name in Hq as (name & -> & Hname).
  intros [= <-]. exists name. split; [exact Hname|]. split; [exact Hfree|].
  unfold try_except, bind, ret.
  destruct (write_text_cases (join vault_path name) s)
    as [[e He]|[(k & Hk & Hw)|(_ & _ & Hw)]]; rewrite ?He, ?Hw.
  - right. now left.
  - right. right. now exists k.
  - now left.
Qed.

(** X19: the path [create_new_note] writes to is [<vault>/<name>] for a
    [name] without [/]: the name is [<title>.md] when that path does not
    exist, and otherwise [<title> k.md] for the least [k >= 1] whose path does
    not exist ([title] being the sanitized title). *)
Theorem create_new_note_takes_first_free_name (fuel : nat) (now : string -> string)
    (vault_path title : string) (s s' : fs) (p rel : string) :
  create_new_note relpath fuel now vault_path title s = Some (Returns (Some (p, rel)) s') ->
  exists name,
    p = join vault_path name
    /\ all_chars no_slash name = true
    /\ ((name = sanitize title +:+ ".md" /\ fs_objs s !! p = None)
        \/ (is_Some (fs_objs s !! join vault_path (sanitize title +:+ ".md"))
            /\ exists k, (1 <= k)%nat
                 /\ name = sanitize title +:+ " " +:+ pretty k +:+ ".md"
                 /\ fs_objs s !! p = None
                 /\ forall j, (1 <= j < k)%nat ->
                      is_Some (fs_objs s !! numbered_name vault_path (sanitize title) j))).
Proof. apply create_new_note_name. Qed.

(** X20: two notes created one after the other with the same title are two
    different files, and both are there afterwards, each with its own
    text. *)
Theorem create_new_note_twice (fuel1 fuel2 : nat) (now1 now2 : string -> string)
    (vault_path title : string) (s s1 s2 : fs) (p1 rel1 p2 rel2 : string) :
  create_new_note relpath fuel1 now1 vault_path title s
  = Some (Returns (Some (p1, rel1)) s1) ->
  create_new_note relpath fuel2 now2 vault_path title s1
  = Some (Returns (Some (p2, rel2)) s2) ->
  p1 <> p2
  /\ fs_objs s2 !! p1 = Some (FFile (new_note_content now1 title))
  /\ fs_objs s2 !! p2 = Some (FFile (new_note_content now2 title)).
Proof.
  intros H1 H2.
  apply create_new_note_result in H1 as (_ & _ & Hs1 & _).
  apply create_new_note_result in H2 as (_ & Hfree2 & Hs2 & _).
  assert (Hne : p1 <> p2).
  { intros ->. rewrite Hs1, lookup_insert_eq in Hfree2. discriminate. }
  split; [exact Hne|]. rewrite Hs2, Hs1. split.
  - rewrite lookup_insert_ne by congruence. apply lookup_insert_eq.
  - apply lookup_insert_eq.
Qed.

End NewNoteMore.

(** ** Opening Obsidian ([launch_obsidian], [open_note], [open_vault]) *)

(** What the program asks of the desktop: [webbrowser.open(uri)],
    [time.sleep(seconds)], [subprocess.Popen(args)], [os.startfile(path)] and
    [subprocess.run(args)]. *)
Inductive action : Type :=
| WebbrowserOpen (uri : string)
| Sleep (seconds : Z)
| Popen (args : list string)
| StartFile (path : string)
| Run (args : list string).

(** A computation on the desktop: from the actions carried out so far to the
    value returned, or [None] when an exception is raised, and the actions
    carried out by then.  Every handler of this code is a blanket [except],
    so the kind of the exception is not recorded. *)
Definition desk (A : Type) : Type := list action -> option A * list action.

Definition desk_ret {A : Type} (a : A) : desk A := fun trace => (Some a, trace).

Definition desk_raise {A : Type} : desk A := fun trace => (None, trace).

Definition desk_bind {A B : Type} (m : desk A) (k : A -> desk B) : desk B :=
  fun trace =>
    match m trace with
    | (Some a, trace') => k a trace'
    | (None, trace') => (None, trace')
    end.

(** [try: m  except: handler] *)
Definition desk_try {A : Type} (m : desk A) (handler : desk A) : desk A :=
  fun trace =>
    match m trace with
    | (Some a, trace') => (Some a, trace')
    | (None, trace') => handler trace'
    end.

Notation "x <~ m ;; k" := (desk_bind m (fun x => k))
  (at level 100, m at next level, right associativity).
Notation "m ~;; k" := (desk_bind m (fun _ => k))
  (at level 100, right associativity).

(** Truth value of a [str]. *)
Definition truthy (s : string) : bool := negb (String.eqb s "").

(** The double quote. *)
Definition dquote : string := String "034"%char "".

(** One element of the lists the plugin answers with. *)
Record item : Type := {
  Title : string;
  SubTitle : string;
  IcoPath : string;
  JsonRPCAction : option (string * list string)
}.

Definition plain_item (title subtitle : string) : item :=
  {| Title := title; SubTitle := subtitle; IcoPath := "obsidian_icon.png";
     JsonRPCAction := None |}.

Definition action_item (title subtitle method : string) (parameters : list string)
    : item :=
  {| Title := title; SubTitle := subtitle; IcoPath := "obsidian_icon.png";
     JsonRPCAction := Some (method, parameters) |}.

Section Desktop.

(** [platform.system()]. *)
Variable system : string.
(** [urllib.parse.quote]. *)
Variable quote : string -> string.
(** [os.path.relpath(path, start)]. *)
Variable relpath : string -> string -> string.
(** Whether the desktop refuses an action: the call raises. *)
Variable refused : action -> bool.
(** What the process listings of [is_obsidian_running] give: the decoded
    output of [tasklist], the return codes of [pgrep -x Obsidian] and of
    [pidof obsidian]; [None] when the call raises. *)
Variable tasklist : option string.
Variable pgrep : option Z.
Variable pidof : option Z.
(** The attributes [self.vaults] and [self.obsidian_path]. *)
Variable vaults : list vault.
Variable obsidian_path : option string.

Definition perform (a : action) : desk unit :=
  fun trace => if refused a then (None, trace) else (Some tt, (trace ++ [a])%list).

(** [is_obsidian_running] (lines 178-191). *)
Definition is_obsidian_running : bool :=
  if String.eqb system "Windows" then
    match tasklist with
    | Some tasks => contains "Obsidian.exe" tasks
    | None => false
    end
  else if String.eqb system "Darwin" then
    match pgrep with
    | Some returncode => returncode =? 0
    | None => false
    end
  else
    match pidof with
    | Some returncode => returncode =? 0
    | None => false
    end.

(** Lines 220-225: on Windows, try to start the executable; [True] stands for
    the [return True] of line 223. *)
Definition popen_by_path (vault_path : string) : desk bool :=
  if String.eqb system "Windows" then
    desk_try
      (match obsidian_path with
       | Some exe =>
           perform (Popen [exe; "--path " +:+ dquote +:+ vault_path +:+ dquote]) ~;;
           desk_ret true
       | None => desk_raise
       end)
      (desk_ret false)
  else desk_ret false.

(** The vault id the condition of line 206 lets through: the vault is
    registered and its id is not empty. *)
Definition registered_vault_id (vault_info : vault) : option string :=
  if v_is_registered vault_info then
    match v_vault_id vault_info with
    | Some vault_id => if truthy vault_id then Some vault_id else None
    | None => None
    end
  else None.

(** Lines 211-231: a vault that is not registered is opened by path, or else
    by name. *)
Definition open_unregistered (vault_info : vault) (vault_path : string) : desk bool :=
  (if negb is_obsidian_running
   then perform (WebbrowserOpen "obsidian://open") ~;; perform (Sleep 2)
   else desk_ret tt) ~;;
  started <~ popen_by_path vault_path ;;
  if started then desk_ret true
  else
    perform (WebbrowserOpen ("obsidian://open?vault=" +:+ quote (v_name vault_info))) ~;;
    desk_ret true.

(** [launch_obsidian(vault_path)] (lines 193-240); [None] stands for the
    default [vault_path=None]. *)
Definition launch_obsidian (vault_path : option string) : desk bool :=
  desk_try
    (match vault_path with
     | Some vault_path =>
         if truthy vault_path then
           match List.find (fun vault => String.eqb (v_path vault) vault_path) vaults with
           | Some vault_info =>
               match registered_vault_id vault_info with
               | Some vault_id =>
                   perform (WebbrowserOpen ("obsidian://open?vault=" +:+ vault_id)) ~;;
                   desk_ret true
               | None => open_unregistered vault_info vault_path
               end
           | None => desk_ret false
           end
         else perform (WebbrowserOpen "obsidian://open") ~;; desk_ret true
     | None => perform (WebbrowserOpen "obsidian://open") ~;; desk_ret true
     end)
    (desk_ret false).

(** The fallback of lines 567-573: the call that opens the file in the
    default editor of the platform. *)
Definition default_editor (note_path : string) : action :=
  if String.eqb system "Windows" then StartFile note_path
  else if String.eqb system "Darwin" then Run ["open"; note_path]
  else Run ["xdg-open"; note_path].

(** [open_note(note_path)] (lines 548-576). *)
Definition open_note (note_path : string) : desk bool :=
  desk_try
    (let vault_path :=
       match List.find (fun vault => startswith note_path (v_path vault)) vaults with
       | Some vault => Some (v_path vault)
       | None => None
       end in
     match vault_path with
     | Some vault_path =>
         if truthy vault_path then
           let rel_path := relpath note_path vault_path in
           let vault_name := basename vault_path in
           let uri := "obsidian://open?vault=" +:+ quote vault_name
                      +:+ "&file=" +:+ quote rel_path in
           perform (WebbrowserOpen uri) ~;;
           desk_ret true
         else perform (default_editor note_path) ~;; desk_ret true
     | None => perform (default_editor note_path) ~;; desk_ret true
     end)
    (desk_ret false).

(** [execute_command(command)] (lines 890-911). *)
Definition execute_command (command : string) : desk (list item) :=
  if String.eqb command "launch_obsidian" then
    success <~ launch_obsidian None ;;
    if success
    then desk_ret [plain_item "‚úÖ Obsidian Launched" "Obsidian is now running"]
    else desk_ret [plain_item "‚ùå Failed to launch Obsidian"
                              "Check if Obsidian is installed"]
  else
    desk_ret [plain_item ("‚úÖ Command Executed: " +:+ command)
                         ("Executed " +:+ command +:+ " command")].

(** [open_vault(vault_path)] (lines 913-929). *)
Definition open_vault (vault_path : string) : desk (list item) :=
  success <~ launch_obsidian (Some vault_path) ;;
  let vault_name := basename vault_path in
  if success
  then desk_ret [plain_item ("‚úÖ Opened Vault: " +:+ vault_name)
                            ("Vault path: " +:+ vault_path)]
  else desk_ret [plain_item ("‚ùå Failed to open vault: " +:+ vault_name)
                            "Check vault path and permissions"].

End Desktop.

(** [show_commands()] (lines 594-618). *)
Definition commands : list (string * string * string) :=
  [ ("üìÅ", "vaults", "Show all available vaults");
    ("üîç", "search", "Search notes (usage: obs search [query])");
    ("üìù", "new", "Create new note (usage: obs new [title])");
    ("üìÖ", "daily", "Create/open daily note");
    ("üïê", "recent", "Show recent notes");
    ("üìÇ", "vault", "Open specific vault (usage: obs vault [name])");
    ("üöÄ", "open", "Open Obsidian") ].

Definition show_commands : list item :=
  map (fun '(emoji, command, description) =>
         action_item (emoji +:+ " obs " +:+ command) description
                     "execute_command" [command])
      commands.

(** [self.known_commands] (lines 22-24). *)
Definition known_commands : list string :=
  [ "open"; "search"; "new"; "vault"; "daily"; "recent"; "vaults"; "help" ].

(** *** Facts *)

Section DesktopFacts.
Variable system : string.
Variable quote : string -> string.
Variable relpath : string -> string -> string.
Variable refused : action -> bool.
Variable tasklist : option string.
Variable pgrep : option Z.
Variable pidof : option Z.
Variable vaults : list vault.
Variable obsidian_path : option string.

Lemma perform_cases (a : action) (trace : list action) :
  (refused a = true /\ perform refused a trace = (None, trace))
  \/ (refused a = false /\ perform refused a trace = (Some tt, (trace ++ [a])%list)).
Proof. unfold perform. destruct (refused a); [left|right]; now split. Qed.

Lemma find_path_absent (vault_path : string) :
  (forall v, In v vaults -> v_path v <> vault_path) ->
  List.find (fun vault => String.eqb (v_path vault) vault_path) vaults = None.
Proof.
  intros Habs. destruct (List.find _ vaults) as [v|] eqn:Hfind; [|reflexivity].
  apply find_some in Hfind as [Hin Heq]. apply String.eqb_eq in Heq.
  now apply Habs in Hin.
Qed.

Lemma find_path_unique (v : vault) :
  List.NoDup (map v_path vaults) -> In v vaults ->
  List.find (fun vault => String.eqb (v_path vault) (v_path v)) vaults = Some v.
Proof.
  induction vaults as [|u l IH]; intros Hnd Hin; [destruct Hin|].
  simpl in Hnd. apply List.NoDup_cons_iff in Hnd as [Hu Hnd]. simpl.
  destruct Hin as [->|Hin]; [now rewrite String.eqb_refl|].
  destruct (String.eqb_spec (v_path u) (v_path v)) as [Heq|Hne]; [|now apply IH].
  exfalso. apply Hu. rewrite Heq. now apply in_map.
Qed.

(** X21: [launch_obsidian] with a vault path that no record of [self.vaults]
    has returns [False] and asks nothing of the desktop; with the path of a
    registered vault whose id is not empty it opens
    [obsidian://open?vault=<id>], nothing else, and returns [True] ([False]
    when that call raises). *)
Theorem launch_obsidian_by_vault_path (trace : list action) :
  (forall vault_path,
      vault_path <> "" ->
      (forall v, In v vaults -> v_path v <> vault_path) ->
      launch_obsidian system quote refused tasklist pgrep pidof vaults obsidian_path
        (Some vault_path) trace
      = (Some false, trace))
  /\ (forall v vault_id,
        List.NoDup (map v_path vaults) -> In v vaults ->
        v_path v <> "" ->
        v_is_registered v = true -> v_vault_id v = Some vault_id -> vault_id <> "" ->
        let uri := "obsidian://open?vault=" +:+ vault_id in
        launch_obsidian system quote refused tasklist pgrep pidof vaults obsidian_path
          (Some (v_path v)) trace
        = if refused (WebbrowserOpen uri)
          then (Some false, trace)
          else (Some true, (trace ++ [WebbrowserOpen uri])%list)).
Proof.
  split.
  - intros vault_path Hne Habs. unfold launch_obsidian, desk_try, truthy.
    destruct (String.eqb_spec vault_path "") as [|_]; [contradiction|]. simpl.
    now rewrite (find_path_absent vault_path Habs).
  - intros v vault_id Hnd Hin Hpath Hreg Hid Hne. cbv zeta.
    unfold launch_obsidian, desk_try, truthy.
    destruct (String.eqb_spec (v_path v) "") as [|_]; [contradiction|]. simpl.
    rewrite (find_path_unique v Hnd Hin).
    unfold registered_vault_id, truthy. rewrite Hreg, Hid.
    destruct (String.eqb_spec vault_id "") as [|_]; [contradiction|]. simpl.
    unfold desk_bind, perform, desk_ret. now destruct (refused _).
Qed.

Ltac desk_cases :=
  repeat (cbv beta iota zeta;
          match goal with
          | |- context [refused ?a] => destruct (refused a) eqn:?
          | |- context [is_obsidian_running ?a ?b ?c ?d] =>
              destruct (is_obsidian_running a b c d); cbn [negb]
          | |- context [String.eqb system ?s] => destruct (String.eqb system s)
          | |- context [match obsidian_path with _ => _ end] => destruct obsidian_path
          end).

Ltac desk_done :=
  eexists _, _; split;
  [ first [ rewrite <- ?app_assoc; reflexivity
          | f_equal; symmetry; apply app_nil_r ]
  | split; [repeat constructor; assumption|] ].

(** X22: [launch_obsidian] lets no exception out: it returns a boolean; the
    actions it has carried out were not refused, and it returns [True] only
    after at least one action. *)
Theorem launch_obsidian_returns (vault_path : option string) (trace : list action) :
  exists success done,
    launch_obsidian system quote refused tasklist pgrep pidof vaults obsidian_path
      vault_path trace
    = (Some success, (trace ++ done)%list)
    /\ Forall (fun a => refused a = false) done
    /\ (success = true -> done <> []).
Proof.
  unfold launch_obsidian.
  destruct vault_path as [vault_path|];
    [destruct (truthy vault_path);
     [destruct (List.find _ vaults) as [vault_info|];
      [destruct (registered_vault_id vault_info) as [vault_id|]|]|]|];
    unfold open_unregistered, popen_by_path, desk_try, desk_bind,
      perform, desk_ret, desk_raise;
    desk_cases; desk_done; try discriminate;
    intros _ H; now apply app_eq_nil in H as [_ H].
Qed.


Lemma find_prefix_none (note_path : string) :
  (forall v, In v vaults -> startswith note_path (v_path v) = false) ->
  List.find (fun vault => startswith note_path (v_path vault)) vaults = None.
Proof.
  intros Habs. destruct (List.find _ vaults) as [v|] eqn:Hfind; [|reflexivity].
  apply find_some in Hfind as [Hin Heq]. rewrite (Habs v Hin) in Heq. discriminate.
Qed.

Lemma find_first (p : vault -> bool) (before after : list vault) (v : vault) :
  (forall u, In u before -> p u = false) -> p v = true ->
  List.find p (before ++ v :: after) = Some v.
Proof.
  intros Hbefore Hv. induction before as [|u before IH]; simpl; [now rewrite Hv|].
  rewrite (Hbefore u) by now left. apply IH. intros u' Hu'. apply Hbefore. now right.
Qed.

(** X23: [open_note] takes the first vault whose path is a prefix of the
    note path, as a string.  If there is none, the note is opened with the
    default editor of the platform; if there is one (with a path that is not
    empty), the URI [obsidian://open?vault=<base name of the vault
    path>&file=<path relative to the vault>] is opened.  It returns [True],
    or [False] when the call raises. *)
Theorem open_note_target (note_path : string) (trace : list action) :
  ((forall v, In v vaults -> startswith note_path (v_path v) = false) ->
   open_note system quote relpath refused vaults note_path trace
   = if refused (default_editor system note_path)
     then (Some false, trace)
     else (Some true, (trace ++ [default_editor system note_path])%list))
  /\ (forall before v after,
        vaults = (before ++ v :: after)%list ->
        (forall u, In u before -> startswith note_path (v_path u) = false) ->
        startswith note_path (v_path v) = true ->
        v_path v <> "" ->
        let uri := "obsidian://open?vault=" +:+ quote (basename (v_path v))
                   +:+ "&file=" +:+ quote (relpath note_path (v_path v)) in
        open_note system quote relpath refused vaults note_path trace
        = if refused (WebbrowserOpen uri)
          then (Some false, trace)
          else (Some true, (trace ++ [WebbrowserOpen uri])%list)).
Proof.
  split.
  - intros Habs. unfold open_note, desk_try. rewrite (find_prefix_none note_path Habs).
    unfold desk_bind, perform, desk_ret. now destruct (refused _).
  - intros before v after Hvaults Hbefore Hv Hne. cbv zeta. unfold open_note, desk_try.
    rewrite Hvaults, (find_first _ before after v Hbefore Hv). unfold truthy.
    destruct (String.eqb_spec (v_path v) "") as [|_]; [contradiction|]. simpl.
    unfold desk_bind, perform, desk_ret. now destruct (refused _).
Qed.

(** X24: every element of [show_commands] calls [execute_command] with a
    known command word, and [execute_command] with that word only confirms:
    it asks nothing of the desktop. *)
Theorem show_commands_only_confirm (it : item) :
  In it show_commands ->
  exists command,
    JsonRPCAction it = Some ("execute_command", [command])
    /\ In command known_commands
    /\ forall trace,
         execute_command system quote refused tasklist pgrep pidof vaults obsidian_path
           command trace
         = (Some [plain_item ("‚úÖ Command Executed: " +:+ command)
                             ("Executed " +:+ command +:+ " command")], trace).
Proof.
  unfold show_commands, commands. cbn [map In].
  intros H. repeat (destruct H as [<-|H];
    [eexists; split;
       [reflexivity
       |split; [unfold known_commands; cbn [In]; repeat first [left; reflexivity|right]
               |reflexivity]]|]).
  destruct H.
Qed.

End DesktopFacts.

(** ** The query handler ([query], [show_vaults]) *)

(** The argument of [query]: a list, [None], or a string.  The elements of a
    list are strings, as the launcher sends them. *)
Inductive query_arg : Type :=
| QueryList (words : list string)
| QueryNone
| QueryStr (text : string).

(** [' '.join(words)] *)
Fixpoint join_words (words : list string) : string :=
  match words with
  | [] => ""
  | w :: rest =>
      match rest with
      | [] => w
      | _ :: _ => w +:+ " " +:+ join_words rest
      end
  end.

(** [create_new_note] run with as many tests as its loop can need. *)
Definition create_new_note_io (relpath : string -> string -> string)
    (now : string -> string) (vault_path title : string)
    : io (option (string * string)) :=
  fun s =>
    match create_new_note relpath (size (fs_objs s) + 2) now vault_path title s with
    | Some o => o
    | None => Returns None s
    end.

(** The loop of [create_new_note] ends within the tests it is given. *)
Lemma create_new_note_io_runs (relpath : string -> string -> string)
    (now : string -> string) (vault_path title : string) (s : fs) :
  create_new_note relpath (size (fs_objs s) + 2) now vault_path title s
  = Some (create_new_note_io relpath now vault_path title s).
Proof.
  unfold create_new_note_io, create_new_note.
  destruct (some_numbered_name_is_free vault_path title s) as (k & Hk & Hfree).
  destruct (probe_ends k (size (fs_objs s) + 2) vault_path (sanitize title) 1
              (join vault_path (sanitize title +:+ ".md")) s Hfree) as [q Hq]; [lia|].
  now rewrite Hq.
Qed.

Lemma flat_map_length_le {A B : Type} (f : A -> list B) (k : nat) (l : list A) :
  (forall x, (length (f x) <= k)%nat) -> (length (flat_map f l) <= k * length l)%nat.
Proof.
  intros Hf. induction l as [|x l IH]; [simpl; lia|].
  cbn [flat_map length]. rewrite length_app. specialize (Hf x). lia.
Qed.

Definition no_vaults_found : list item :=
  [plain_item "‚ùå No vaults found" "Create an Obsidian vault first"].

(** The noun of lines 647 and 660: [vault], or [vaults] unless there is
    exactly one. *)
Definition vault_noun (vault_count : nat) : string :=
  "vault" +:+ (if Nat.eqb vault_count 1 then "" else "s").

Section Query.

(** [str.lower], [str.strip] and [str.split]. *)
Variable lower : string -> string.
Variable strip : string -> string.
Variable split : string -> list string.
(** [os.path.relpath] and
    [datetime.fromtimestamp(mtime).strftime('%Y-%m-%d')]: the date, or [None]
    where [fromtimestamp] raises; [date_error] is the exception it raises
    then ([ValueError], [OverflowError] or [OSError], by the platform and the
    size of the number). *)
Variable relpath : string -> string -> string.
Variable date_of : Z -> option string.
Variable date_error : Z -> exn.
(** Whether [json.load] accepts a text; [json.load] on [daily-notes.json]. *)
Variable json_ok : string -> bool.
Variable parse_daily_config : string -> option daily_config.
(** [platform.system()] and the process listings of [is_obsidian_running]. *)
Variable system : string.
Variable tasklist : option string.
Variable pgrep : option Z.
Variable pidof : option Z.
(** The tree [os.walk] finds at a path; a [File] where there is no
    directory. *)
Variable tree_at : string -> node.
(** The clock of the note-creation code. *)
Variable now : string -> string.

(** [get_vault_info(vault_path)] on the tree found at [vault_path].  Where
    there is no listable directory the walk yields nothing, and the counts
    are zero whether reading the configuration raises or not. *)
Definition get_vault_info_at (vault_path : string) : nat * list (string * Z) :=
  match tree_at vault_path with
  | Dir _ true children => get_vault_info json_ok vault_path children
  | _ => (O, [])
  end.

(** [show_vaults()] (lines 578-592). *)
Definition show_vaults (vaults : list vault) : list item :=
  map (fun vault =>
         let info := get_vault_info_at (v_path vault) in
         action_item ("üìÅ " +:+ v_name vault)
                     (pretty (fst info) +:+ " notes ‚Ä¢ " +:+ v_path vault)
                     "open_vault" [v_path vault])
      vaults.

(** Lines 639-681: the answer to an empty query. *)
Definition main_interface (vaults : list vault) : list item :=
  let obsidian_status :=
    if is_obsidian_running system tasklist pgrep pidof
    then "üü¢ Running" else "üî¥ Not Running" in
  let vault_count := length vaults in
  let results :=
    [ action_item ("üìî Obsidian Notes (" +:+ obsidian_status +:+ ")")
                  (pretty vault_count +:+ " " +:+ vault_noun vault_count
                   +:+ " found ‚Ä¢ Click to see commands")
                  "show_commands" [] ] in
  match vaults with
  | [] => results
  | _ :: _ =>
      (results
       ++ [ action_item "üìÅ Open Vaults"
                        ("Show all " +:+ pretty vault_count +:+ " available "
                         +:+ vault_noun vault_count)
                        "show_vaults" [] ]
       ++ map (fun vault =>
                 action_item ("üìÅ " +:+ v_name vault)
                             (pretty (v_note_count vault) +:+ " notes ‚Ä¢ " +:+ v_path vault)
                             "open_vault" [v_path vault])
              (firstn 5 vaults))%list
  end.

(** Lines 692-717: the command [search]. *)
Definition command_search (vaults : list vault) (args : string) : list item :=
  match truthy args, vaults with
  | true, _ :: _ =>
      let all_results :=
        flat_map
          (fun vault =>
             map (fun result =>
                    action_item ("üìù " +:+ h_title result)
                                ("üìÅ " +:+ v_name vault +:+ " ‚Ä¢ " +:+ h_date result
                                 +:+ " ‚Ä¢ " +:+ h_preview result)
                                "open_note" [h_path result])
                 (search_notes lower relpath date_of (v_path vault)
                    (tree_at (v_path vault)) args 5))
          vaults in
      match all_results with
      | [] => [plain_item ("üîç No results for '" +:+ args +:+ "'") "Try different keywords"]
      | _ :: _ => all_results
      end
  | _, _ => [plain_item "üîç Search Notes" "Usage: obs search [query]"]
  end.

(** Lines 719-744: the command [new]. *)
Definition command_new (vaults : list vault) (args : string) : io (list item) :=
  match truthy args, vaults with
  | true, vault :: _ =>
      created <- create_new_note_io relpath now (v_path vault) args ;;
      match created with
      | Some (note_path, rel_path) =>
          ret [action_item ("‚úÖ Note Created: " +:+ args)
                           ("üìÅ " +:+ v_name vault +:+ "/" +:+ rel_path)
                           "open_note" [note_path]]
      | None => ret [plain_item "‚ùå Failed to create note" "Check vault permissions"]
      end
  | _, _ => ret [plain_item "üìù Create New Note" "Usage: obs new [title]"]
  end.

(** Lines 746-793: the command [daily]. *)
Definition command_daily (vaults : list vault) : io (list item) :=
  match vaults with
  | [] => ret no_vaults_found
  | [vault] =>
      created <- create_daily_note relpath parse_daily_config
                   (String.eqb system "Windows") now (v_path vault) None ;;
      match created with
      | Some (note_path, rel_path) =>
          ret [action_item "‚úÖ Daily Note Created"
                           ("üìÅ " +:+ v_name vault +:+ "/" +:+ rel_path)
                           "open_note" [note_path]]
      | None => ret [plain_item "‚ùå Failed to create daily note" "Check vault permissions"]
      end
  | _ :: _ :: _ =>
      ret (plain_item "üìÖ Create Daily Note In:"
                      "Choose which vault to create today's daily note in"
           :: map (fun vault =>
                     action_item ("üìù " +:+ v_name vault)
                                 ("Create daily note in " +:+ v_name vault +:+ " vault")
                                 "create_daily_note_in_vault" [v_path vault])
                  vaults)
  end.

(** Lines 795-814: the command [vault]. *)
Definition command_vault (vaults : list vault) (args : string) : list item :=
  if truthy args then
    match List.find (fun vault => contains (lower args) (lower (v_name vault))) vaults with
    | Some vault =>
        [action_item ("üìÅ Open " +:+ v_name vault) ("Open vault: " +:+ v_path vault)
                     "open_vault" [v_path vault]]
    | None =>
        [plain_item ("‚ùå Vault not found: " +:+ args)
                    "Use 'obs vaults' to see available vaults"]
    end
  else show_vaults vaults.

(** The loop of lines 832-845 over the recent notes.  The date conversion of
    line 834 stands in no [try]: its exception ends the loop and leaves
    [query]. *)
Fixpoint recent_items (vault : vault) (notes : list (string * Z)) : io (list item) :=
  match notes with
  | [] => ret []
  | (note_path, mtime) :: notes' =>
      let note_name := drop_last 3 (basename note_path) in
      match date_of mtime with
      | None => raise (date_error mtime)
      | Some date_str =>
          results <- recent_items vault notes' ;;
          ret (action_item ("üïê " +:+ note_name)
                           ("üìÅ " +:+ v_name vault +:+ " ‚Ä¢ " +:+ date_str)
                           "open_note" [note_path]
               :: results)
      end
  end.

(** Lines 827-856: the command [recent]. *)
Definition command_recent (vaults : list vault) : io (list item) :=
  match vaults with
  | vault :: _ =>
      let info := get_vault_info_at (v_path vault) in
      results <- recent_items vault (slice_to 5 (snd info)) ;;
      match results with
      | [] => ret [plain_item "‚ùå No recent notes found" "Start creating notes in your vault"]
      | _ :: _ => ret results
      end
  | [] => ret no_vaults_found
  end.

(** Lines 858-888: a query that names no command is searched for in every
    vault. *)
Definition general_search (vaults : list vault) (query_str : string) : list item :=
  match vaults with
  | _ :: _ =>
      let all_results :=
        flat_map
          (fun vault =>
             map (fun result =>
                    action_item ("üìù " +:+ h_title result)
                                ("üìÅ " +:+ v_name vault +:+ " ‚Ä¢ " +:+ h_date result)
                                "open_note" [h_path result])
                 (search_notes lower relpath date_of (v_path vault)
                    (tree_at (v_path vault)) query_str 3))
          vaults in
      match all_results with
      | _ :: _ => slice_to 10 all_results
      | [] =>
          [plain_item ("üîç No notes found for '" +:+ query_str +:+ "'")
                      "Try different keywords or create a new note"]
      end
  | [] => no_vaults_found
  end.

(** The text lines 628-633 make of the argument. *)
Definition query_text (query_str : query_arg) : string :=
  match query_str with
  | QueryList words => join_words words
  | QueryNone => ""
  | QueryStr text => strip text
  end.

(** [query_str.split() if query_str else []] *)
Definition query_parts (query_str : string) : list string :=
  if truthy query_str then split query_str else [].

(** Lines 683-857: the branch of a known command; [None] is what a call that
    reaches the end of the function returns. *)
Definition run_command (vaults : list vault) (command args : string)
    : io (option (list item)) :=
  if String.eqb command "vaults" then ret (Some (show_vaults vaults))
  else if String.eqb command "search" then ret (Some (command_search vaults args))
  else if String.eqb command "new" then
    results <- command_new vaults args ;; ret (Some results)
  else if String.eqb command "daily" then
    results <- command_daily vaults ;; ret (Some results)
  else if String.eqb command "vault" then ret (Some (command_vault vaults args))
  else if String.eqb command "open" then
    ret (Some [action_item "üöÄ Launch Obsidian" "Open Obsidian application"
                           "launch_obsidian" []])
  else if String.eqb command "recent" then
    results <- command_recent vaults ;; ret (Some results)
  else ret None.

(** [query(query_str)] (lines 626-888): the object after the refresh, and what
    the call does to the file system and returns.  [current_time] and
    [scan_time] are the clock readings of [refresh_vaults_cache]. *)
Definition query (query_str : query_arg) (w : world) (current_time scan_time : Z)
    (self : plugin) : plugin * io (option (list item)) :=
  let query_str := query_text query_str in
  let self := refresh_vaults_cache json_ok w current_time scan_time self in
  let parts := query_parts query_str in
  (self,
   match parts with
   | [] => ret (Some (main_interface (p_vaults self)))
   | first :: rest =>
       let first_word := lower first in
       let args := match rest with [] => "" | _ :: _ => join_words rest end in
       if existsb (String.eqb first_word) known_commands
       then run_command (p_vaults self) first_word args
       else ret (Some (general_search (p_vaults self) query_str))
   end).

(** *** Facts about the query handler *)

(** The element that lines 698-706 build for a note found in a vault, and
    the one of lines 865-873. *)
Definition search_item (vault : vault) (h : hit) : item :=
  action_item ("üìù " +:+ h_title h)
              ("üìÅ " +:+ v_name vault +:+ " ‚Ä¢ " +:+ h_date h +:+ " ‚Ä¢ " +:+ h_preview h)
              "open_note" [h_path h].

Definition general_item (vault : vault) (h : hit) : item :=
  action_item ("üìù " +:+ h_title h)
              ("üìÅ " +:+ v_name vault +:+ " ‚Ä¢ " +:+ h_date h)
              "open_note" [h_path h].

(** What the search of a vault returns for [text] with the limit [limit]. *)
Definition found_in (vault : vault) (text : string) (limit : Z) : list hit :=
  search_notes lower relpath date_of (v_path vault) (tree_at (v_path vault)) text limit.

Lemma search_notes_length (vault_path : string) (n : node) (text : string) (limit : Z) :
  0 <= limit ->
  Z.of_nat (length (search_notes lower relpath date_of vault_path n text limit)) <= limit.
Proof.
  intros Hlimit. unfold search_notes. rewrite slice_to_nonneg by exact Hlimit.
  rewrite length_take. lia.
Qed.

Lemma existsb_eqb_In (x : string) (l : list string) :
  existsb (String.eqb x) l = true <-> In x l.
Proof.
  rewrite existsb_exists. split.
  - intros (y & Hy & Heq). apply String.eqb_eq in Heq. now subst.
  - intros Hin. exists x. split; [exact Hin|apply String.eqb_refl].
Qed.

Lemma query_unknown_word (query_str : query_arg) (w : world) (current_time scan_time : Z)
    (self : plugin) (first : string) (rest : list string) :
  query_parts (query_text query_str) = first :: rest ->
  ~ In (lower first) known_commands ->
  snd (query query_str w current_time scan_time self)
  = ret (Some (general_search
                 (p_vaults (refresh_vaults_cache json_ok w current_time scan_time self))
                 (query_text query_str))).
Proof.
  intros Hparts Hunknown. unfold query. cbn [snd]. rewrite Hparts.
  destruct (existsb _ known_commands) eqn:Hex; [|reflexivity].
  now apply existsb_eqb_In in Hex.
Qed.

Lemma query_known_word (query_str : query_arg) (w : world) (current_time scan_time : Z)
    (self : plugin) (first : string) (rest : list string) :
  query_parts (query_text query_str) = first :: rest ->
  In (lower first) known_commands ->
  snd (query query_str w current_time scan_time self)
  = run_command
      (p_vaults (refresh_vaults_cache json_ok w current_time scan_time self))
      (lower first) (match rest with [] => "" | _ :: _ => join_words rest end).
Proof.
  intros Hparts Hknown. unfold query. cbn [snd]. rewrite Hparts.
  apply existsb_eqb_In in Hknown. now rewrite Hknown.
Qed.

(** X25: a query whose first word is no known command is searched for in
    every vault with the limit 3, as the whole query text.  The answer has
    between 1 and 10 elements and the file system is left as it is.  Every
    note the search of a vault returns has its element in the answer, with
    the title of the note, the name of the vault, the date and the action
    that opens the note, unless the answer is full (ten elements); every
    element with an action is such an element; and when no vault returns a
    note the answer is the single element that says so, or that no vault is
    found. *)
Theorem query_general_search (query_str : query_arg) (w : world)
    (current_time scan_time : Z) (self : plugin) (first : string) (rest : list string) :
  let text := query_text query_str in
  let vaults := p_vaults (refresh_vaults_cache json_ok w current_time scan_time self) in
  query_parts text = first :: rest ->
  ~ In (lower first) known_commands ->
  exists items,
    (forall s, snd (query query_str w current_time scan_time self) s
               = Returns (Some items) s)
    /\ (1 <= length items <= 10)%nat
    /\ (forall vault h,
          In vault vaults -> In h (found_in vault text 3) ->
          In (general_item vault h) items \/ length items = 10%nat)
    /\ (forall it, In it items ->
          JsonRPCAction it = None
          \/ exists vault h,
               In vault vaults /\ In h (found_in vault text 3) /\ it = general_item vault h)
    /\ ((forall vault, In vault vaults -> found_in vault text 3 = []) ->
        items = match vaults with
                | [] => no_vaults_found
                | _ :: _ =>
                    [plain_item ("üîç No notes found for '" +:+ text +:+ "'")
                                "Try different keywords or create a new note"]
                end).
Proof.
  cbv zeta. intros Hparts Hunknown. rewrite (query_unknown_word _ _ _ _ _ _ _ Hparts Hunknown).
  set (text := query_text query_str).
  set (vaults := p_vaults _).
  exists (general_search vaults text).
  split; [reflexivity|]. unfold general_search.
  destruct vaults as [|vault vaults'] eqn:Hv.
  { split; [simpl; lia|]. split; [intros v h []|].
    split; [intros it [<-|[]]; now left|reflexivity]. }
  rewrite <- Hv. clear Hv.
  fold (flat_map (fun vault => map (general_item vault) (found_in vault text 3)) vaults).
  set (all_results := flat_map _ vaults).
  assert (Hall : forall it, In it all_results <->
                   exists v h, In v vaults /\ In h (found_in v text 3)
                               /\ it = general_item v h).
  { intros it. unfold all_results. rewrite in_flat_map. split.
    - intros (v & Hv & Hit). apply in_map_iff in Hit as (h & <- & Hh). now exists v, h.
    - intros (v & h & Hv & Hh & ->). exists v. split; [exact Hv|]. now apply in_map. }
  clearbody all_results. destruct all_results as [|it0 others].
  - split; [simpl; lia|]. split.
    { intros v h Hv Hh. exfalso. apply (Hall (general_item v h)). now exists v, h. }
    split; [intros it [<-|[]]; now left|]. intros _. now destruct vaults.
  - rewrite slice_to_nonneg by lia. change (Z.to_nat 10) with 10%nat.
    assert (Hlen : (1 <= length (it0 :: others))%nat) by (simpl; lia).
    set (found := it0 :: others) in *. clearbody found.
    split; [rewrite length_take; lia|].
    split; [|split].
    + intros v h Hv Hh.
      assert (Hin : In (general_item v h) found) by (apply Hall; now exists v, h).
      destruct (Nat.le_gt_cases (length found) 10) as [Hshort|Hlong].
      * left. now rewrite firstn_all2.
      * right. rewrite length_take. lia.
    + intros it Hit. right. apply Hall. apply list_elem_of_In in Hit.
      apply elem_of_take in Hit as (i & Hi & _).
      apply list_elem_of_In. eapply list_elem_of_lookup_2; eauto.
    + intros Hempty. exfalso. destruct found as [|it others']; [simpl in Hlen; lia|].
      destruct (proj1 (Hall it) (or_introl eq_refl)) as (v & h & Hv & Hh & _).
      rewrite (Hempty v Hv) in Hh. destruct Hh.
Qed.

(** X26: the command [search] searches every vault, with the limit 5, for
    the remaining words joined by single spaces.  The answer is not empty and
    the file system is left as it is.  With words to search for, every note
    the search of a vault returns has its element in the answer, with the
    title of the note, the name of the vault, the date, the preview and the
    action that opens the note, so the answer has at most five elements per
    vault; every element with an action is such an element; and when no
    vault returns a note the answer is the single element that says so.
    Without words, or without vaults, the answer is the usage element. *)
Theorem query_search_command (query_str : query_arg) (w : world)
    (current_time scan_time : Z) (self : plugin) (first : string) (rest : list string) :
  let vaults := p_vaults (refresh_vaults_cache json_ok w current_time scan_time self) in
  let args := join_words rest in
  query_parts (query_text query_str) = first :: rest ->
  lower first = "search" ->
  exists items,
    (forall s, snd (query query_str w current_time scan_time self) s
               = Returns (Some items) s)
    /\ (1 <= length items)%nat
    /\ (length items <= Nat.max 1 (5 * length vaults))%nat
    /\ (args <> "" ->
        forall vault h,
          In vault vaults -> In h (found_in vault args 5) -> In (search_item vault h) items)
    /\ (forall it, In it items ->
          JsonRPCAction it = None
          \/ exists vault h,
               In vault vaults /\ In h (found_in vault args 5) /\ it = search_item vault h)
    /\ (args <> "" -> vaults <> [] ->
        (forall vault, In vault vaults -> found_in vault args 5 = []) ->
        items = [plain_item ("üîç No results for '" +:+ args +:+ "'")
                            "Try different keywords"])
    /\ (args = "" \/ vaults = [] ->
        items = [plain_item "üîç Search Notes" "Usage: obs search [query]"]).
Proof.
  cbv zeta. intros Hparts Hcmd.
  rewrite (query_known_word _ _ _ _ _ _ _ Hparts) by (rewrite Hcmd; cbn; tauto).
  rewrite Hcmd. cbn [run_command String.eqb Ascii.eqb Bool.eqb andb].
  set (vaults := p_vaults _).
  replace (match rest with [] => "" | _ :: _ => join_words rest end)
    with (join_words rest) by now destruct rest.
  set (args := join_words rest).
  exists (command_search vaults args).
  split; [reflexivity|]. unfold command_search, truthy.
  destruct (String.eqb_spec args "") as [Hargs|Hargs]; cbn [negb].
  { split; [simpl; lia|]. split; [simpl; lia|]. split; [contradiction|].
    split; [intros it [<-|[]]; now left|]. split; [contradiction|reflexivity]. }
  destruct vaults as [|vault vaults'] eqn:Hv.
  { split; [simpl; lia|]. split; [simpl; lia|]. split; [intros _ v h []|].
    split; [intros it [<-|[]]; now left|]. split; [congruence|reflexivity]. }
  rewrite <- Hv.
  assert (Hsome : vaults <> []) by (rewrite Hv; discriminate). clear Hv.
  fold (flat_map (fun vault => map (search_item vault) (found_in vault args 5)) vaults).
  set (all_results := flat_map _ vaults).
  assert (Hall : forall it, In it all_results <->
                   exists v h, In v vaults /\ In h (found_in v args 5)
                               /\ it = search_item v h).
  { intros it. unfold all_results. rewrite in_flat_map. split.
    - intros (v & Hv & Hit). apply in_map_iff in Hit as (h & <- & Hh). now exists v, h.
    - intros (v & h & Hv & Hh & ->). exists v. split; [exact Hv|]. now apply in_map. }
  assert (Hlen : (length all_results <= 5 * length vaults)%nat).
  { apply flat_map_length_le. intros v. rewrite length_map.
    pose proof (search_notes_length (v_path v) (tree_at (v_path v)) args 5 ltac:(lia)).
    unfold found_in. lia. }
  clearbody all_results. destruct all_results as [|it0 others].
  - split; [simpl; lia|]. split; [simpl; lia|]. split.
    { intros _ v h Hv Hh. exfalso. apply (Hall (search_item v h)). now exists v, h. }
    split; [intros it [<-|[]]; now left|]. split; [reflexivity|].
    intros [H|H]; contradiction.
  - split; [simpl; lia|]. split; [lia|]. split.
    { intros _ v h Hv Hh. apply Hall. now exists v, h. }
    split; [intros it Hit; right; now apply Hall|]. split.
    + intros _ _ Hempty. exfalso.
      destruct (proj1 (Hall it0) (or_introl eq_refl)) as (v & h & Hv & Hh & _).
      rewrite (Hempty v Hv) in Hh. destruct Hh.
    + intros [H|H]; contradiction.
Qed.

(** X27: [help] is a known command without a branch of its own: the call
    reaches the end of [query] and returns [None], leaving the file system as
    it is. *)
Theorem query_help_returns_nothing (query_str : query_arg) (w : world)
    (current_time scan_time : Z) (self : plugin) (first : string) (rest : list string)
    (s : fs) :
  query_parts (query_text query_str) = first :: rest ->
  lower first = "help" ->
  snd (query query_str w current_time scan_time self) s = Returns None s.
Proof.
  intros Hparts Hcmd.
  rewrite (query_known_word _ _ _ _ _ _ _ Hparts) by (rewrite Hcmd; cbn; tauto).
  now rewrite Hcmd.
Qed.

(** The loop returns one element per note when every date converts, and
    raises at the first note whose date does not; it changes nothing. *)
Lemma recent_items_outcome (vault : vault) (notes : list (string * Z)) (s : fs) :
  match recent_items vault notes s with
  | Returns items s' =>
      s' = s /\ length items = length notes
      /\ forall note_path mtime, In (note_path, mtime) notes -> date_of mtime <> None
  | Raises e s' =>
      s' = s
      /\ exists note_path mtime,
           In (note_path, mtime) notes /\ date_of mtime = None /\ e = date_error mtime
  end.
Proof.
  induction notes as [|[note_path mtime] notes IH]; cbn [recent_items].
  - unfold ret. split; [reflexivity|]. split; [reflexivity|]. intros p t [].
  - destruct (date_of mtime) as [date_str|] eqn:Hdate.
    + unfold bind. destruct (recent_items vault notes s) as [items s'|e s'].
      * destruct IH as (-> & Hlen & Hall). unfold ret.
        split; [reflexivity|]. split; [cbn [length]; now rewrite Hlen|].
        intros p t [[= <- <-]|Hin]; [congruence|now apply (Hall p t)].
      * destruct IH as (-> & p & t & Hin & Ht & He). split; [reflexivity|].
        exists p, t. split; [now right|now split].
    + unfold raise. split; [reflexivity|]. exists note_path, mtime.
      split; [now left|now split].
Qed.

(** [recent_notes] holds five notes at most, so the slice of line 832 takes
    them all. *)
Lemma recent_notes_slice (vault_path : string) :
  slice_to 5 (snd (get_vault_info_at vault_path)) = snd (get_vault_info_at vault_path).
Proof.
  rewrite slice_to_nonneg by lia. change (Z.to_nat 5) with 5%nat.
  unfold get_vault_info_at. destruct (tree_at vault_path) as [|d [|] children];
    try reflexivity.
  unfold get_vault_info. destruct (config_read_raises json_ok children); [reflexivity|].
  destruct (info_walk vault_path (Dir "" true children)) as [note_count collected].
  cbn [snd]. rewrite firstn_firstn. reflexivity.
Qed.

(** X28: unless the command word is [new] or [daily], [query] leaves the
    file system as it is, whatever its outcome.  It returns, except for the
    command [recent]: there the date of each recent note of the first vault
    is computed outside every [try], so the call raises when one of these
    notes has a modification time without a calendar date, with the
    exception of that conversion; when all have one, it returns one element
    per recent note, or the single element that says that there is none. *)
Theorem query_leaves_files_alone (query_str : query_arg) (w : world)
    (current_time scan_time : Z) (self : plugin) (s : fs) :
  let vaults := p_vaults (refresh_vaults_cache json_ok w current_time scan_time self) in
  let parts := query_parts (query_text query_str) in
  let call := snd (query query_str w current_time scan_time self) s in
  (forall first rest,
      parts = first :: rest -> lower first <> "new" /\ lower first <> "daily") ->
  state_of call = s
  /\ ((forall first rest, parts = first :: rest -> lower first <> "recent") ->
      exists result, call = Returns result s)
  /\ (forall first rest,
        parts = first :: rest -> lower first = "recent" ->
        match vaults with
        | [] => call = Returns (Some no_vaults_found) s
        | vault :: _ =>
            let notes := snd (get_vault_info_at (v_path vault)) in
            ((exists note_path mtime,
                 In (note_path, mtime) notes /\ date_of mtime = None) ->
             exists note_path mtime,
               In (note_path, mtime) notes /\ date_of mtime = None
               /\ call = Raises (date_error mtime) s)
            /\ ((forall note_path mtime,
                    In (note_path, mtime) notes -> date_of mtime <> None) ->
                exists items,
                  call = Returns (Some items) s
                  /\ length items = Nat.max 1 (length notes))
        end).
Proof.
  cbv zeta. intros Hcmd. unfold query. cbn [snd].
  set (vaults := p_vaults _).
  destruct (query_parts (query_text query_str)) as [|first rest] eqn:Hparts.
  { split; [reflexivity|]. split; [intros _; eexists; reflexivity|]. intros f r [=]. }
  destruct (Hcmd first rest eq_refl) as [Hnew Hdaily].
  destruct (existsb _ known_commands) eqn:Hknown.
  2:{ split; [reflexivity|]. split; [intros _; eexists; reflexivity|].
      intros f r [= <- <-] Hrecent. rewrite Hrecent in Hknown. discriminate Hknown. }
  unfold run_command.
  destruct (String.eqb_spec (lower first) "vaults") as [Hw|_];
    [split; [reflexivity|]; split; [intros _; eexists; reflexivity|];
     intros f r [= <- <-] Hr; rewrite Hr in Hw; discriminate Hw|].
  destruct (String.eqb_spec (lower first) "search") as [Hw|_];
    [split; [reflexivity|]; split; [intros _; eexists; reflexivity|];
     intros f r [= <- <-] Hr; rewrite Hr in Hw; discriminate Hw|].
  destruct (String.eqb_spec (lower first) "new") as [|_]; [contradiction|].
  destruct (String.eqb_spec (lower first) "daily") as [|_]; [contradiction|].
  destruct (String.eqb_spec (lower first) "vault") as [Hw|_];
    [split; [reflexivity|]; split; [intros _; eexists; reflexivity|];
     intros f r [= <- <-] Hr; rewrite Hr in Hw; discriminate Hw|].
  destruct (String.eqb_spec (lower first) "open") as [Hw|_];
    [split; [reflexivity|]; split; [intros _; eexists; reflexivity|];
     intros f r [= <- <-] Hr; rewrite Hr in Hw; discriminate Hw|].
  destruct (String.eqb_spec (lower first) "recent") as [Hrecent|Hother].
  2:{ split; [reflexivity|]. split; [intros _; eexists; reflexivity|].
      intros f r [= <- <-] Hr. contradiction. }
  unfold bind at 1. unfold command_recent.
  destruct vaults as [|vault others].
  { split; [reflexivity|]. split; [intros _; eexists; reflexivity|].
    intros f r _ _. reflexivity. }
  rewrite recent_notes_slice.
  set (notes := snd (get_vault_info_at (v_path vault))).
  pose proof (recent_items_outcome vault notes s) as Hloop.
  unfold bind. destruct (recent_items vault notes s) as [items s'|e s'].
  - destruct Hloop as (-> & Hlen & Hall).
    destruct items as [|it items]; unfold ret; (split; [reflexivity|]);
      (split; [intros _; eexists; reflexivity|]); intros f r _ _;
      (split; [intros (p & t & Hin & Ht); exfalso; exact (Hall p t Hin Ht)|]);
      intros _; eexists; (split; [reflexivity|]); rewrite <- Hlen; cbn [length]; lia.
  - destruct Hloop as (-> & p & t & Hin & Ht & ->). split; [reflexivity|]. split.
    + intros Hnot. exfalso. exact (Hnot first rest eq_refl Hrecent).
    + intros f r _ _. split.
      * intros _. now exists p, t.
      * intros Hall. exfalso. exact (Hall p t Hin Ht).
Qed.

(** X29: the command [new] with a title creates the note in the first vault.
    Either it answers with an element that opens the note, having created
    [<path of the first vault>/<name>], where [name] holds no [/], at a path
    that did not exist; or it answers with the failure element, and then the
    file system is as before, or holds one more file at such a path: the
    beginning of the note, left by a write that failed part-way. *)
Theorem query_new_note (query_str : query_arg) (w : world)
    (current_time scan_time : Z) (self : plugin) (first : string) (rest : list string)
    (target : vault) (others : list vault) (s : fs) :
  let title := join_words rest in
  let call := snd (query query_str w current_time scan_time self) s in
  query_parts (query_text query_str) = first :: rest ->
  lower first = "new" ->
  title <> "" ->
  p_vaults (refresh_vaults_cache json_ok w current_time scan_time self) = target :: others ->
  exists name,
    let note_path := join (v_path target) name in
    all_chars no_slash name = true
    /\ fs_objs s !! note_path = None
    /\ (call
        = Returns (Some [action_item ("‚úÖ Note Created: " +:+ title)
                                     ("üìÅ " +:+ v_name target +:+ "/"
                                      +:+ relpath note_path (v_path target))
                                     "open_note" [note_path]])
            (with_objs (<[note_path := FFile (new_note_content now title)]> (fs_objs s)) s)
        \/ call
           = Returns (Some [plain_item "‚ùå Failed to create note" "Check vault permissions"])
               s
        \/ exists k,
             fs_short_write s !! note_path = Some k
             /\ call
                = Returns (Some [plain_item "‚ùå Failed to create note"
                                            "Check vault permissions"])
                    (with_objs (<[note_path :=
                                    FFile (substring 0 k (new_note_content now title))]>
                                  (fs_objs s)) s)).
Proof.
  cbv zeta. intros Hparts Hcmd Htitle Hvaults.
  rewrite (query_known_word _ _ _ _ _ _ _ Hparts) by (rewrite Hcmd; cbn; tauto).
  rewrite Hcmd, Hvaults. cbn [run_command String.eqb Ascii.eqb Bool.eqb andb].
  replace (match rest with [] => "" | _ :: _ => join_words rest end)
    with (join_words rest) by now destruct rest.
  set (title := join_words rest) in *.
  unfold command_new, truthy.
  destruct (String.eqb_spec title "") as [|_]; [contradiction|]. cbn [negb].
  unfold bind.
  pose proof (create_new_note_io_runs relpath now (v_path target) title s) as Hrun.
  apply create_new_note_outcome in Hrun
    as (name & Hname & Hfree & [Ho|[Ho|(k & Hk & Ho)]]);
    exists name; (split; [exact Hname|]); (split; [exact Hfree|]); rewrite Ho.
  - now left.
  - right. now left.
  - right. right. now exists k.
Qed.

End Query.

(** ** Daily note of a chosen vault ([create_daily_note_in_vault]) *)

Section DailyNoteInVault.
Variable relpath : string -> string -> string.
Variable parse_daily_config : string -> option daily_config.
Variable system : string.
Variable quote : string -> string.
Variable refused : action -> bool.
Variable now : string -> string.
Variable vaults : list vault.

(** [create_daily_note_in_vault(vault_path)] (lines 433-459): what the call does
    to the file system and returns, and the actions carried out.  The value
    [open_note] returns is not looked at. *)
Definition create_daily_note_in_vault (vault_path : string) (s : fs)
    (trace : list action) : outcome (list item) * list action :=
  let vault_name :=
    match List.find (fun vault => String.eqb (v_path vault) vault_path) vaults with
    | Some vault => v_name vault
    | None => "Unknown Vault"
    end in
  match create_daily_note relpath parse_daily_config (String.eqb system "Windows") now
          vault_path None s with
  | Returns (Some (note_path, rel_path)) s' =>
      let '(_, trace') := open_note system quote relpath refused vaults note_path trace in
      (Returns [plain_item ("‚úÖ Daily Note Created in " +:+ vault_name)
                           ("üìÅ " +:+ vault_name +:+ "/" +:+ rel_path
                            +:+ " - Opened in Obsidian")] s',
       trace')
  | Returns None s' =>
      (Returns [plain_item "‚ùå Failed to create daily note"
                           "Check vault permissions and template path"] s',
       trace)
  | Raises e s' => (Raises e s', trace)
  end.



End DailyNoteInVault.

(** ** These properties on concrete inputs *)

Module PluginDemo.

(** [str.split] and [str.strip] for texts whose only white space is the
    space. *)
Fixpoint split_from (word s : string) : list string :=
  match s with
  | EmptyString => if String.eqb word "" then [] else [word]
  | String c s' =>
      if Ascii.eqb c " "%char
      then ((if String.eqb word "" then [] else [word]) ++ split_from "" s')%list
      else split_from (word +:+ String c "") s'
  end.

Definition split_spaces (s : string) : list string := split_from "" s.

Fixpoint lstrip_spaces (s : string) : string :=
  match s with
  | EmptyString => EmptyString
  | String c s' => if Ascii.eqb c " "%char then lstrip_spaces s' else s
  end.

Fixpoint rstrip_spaces (s : string) : string :=
  match s with
  | EmptyString => EmptyString
  | String c s' =>
      let rest := rstrip_spaces s' in
      if Ascii.eqb c " "%char && String.eqb rest "" then EmptyString else String c rest
  end.

Definition strip_spaces (s : string) : string := rstrip_spaces (lstrip_spaces s).

(** [urllib.parse.quote] on a text of letters, digits, dots and slashes. *)
Definition quote_plain (s : string) : string := s.

(** A desktop that refuses nothing. *)
Definition obliging (a : action) : bool := false.

(** The machine of the examples: the search root [/v] is the vault of the
    search scenario, and it is not registered. *)
Definition demo_world : world :=
  {| w_registered_vaults := []; w_search_paths := [("/v", scenario_vault)] |}.

(** The exception of [datetime.fromtimestamp] on the machine of the
    examples. *)
Definition raises_ValueError (mtime : Z) : exn := ValueError.

Definition demo_tree (p : string) : node :=
  if String.eqb p "/v" then scenario_vault else File "" None None.

(** [query] on that machine, on Linux with Obsidian running, called 1000
    seconds after the epoch on a plugin constructed at time 0. *)
Definition demo_query (query_str : query_arg) : plugin * io (option (list item)) :=
  query ascii_lower strip_spaces split_spaces relpath_under utc_date_of raises_ValueError
        json_accepts_all
        parse_nothing "Linux" None None (Some 0) demo_tree (clock "12")
        query_str demo_world 1000 1001 (init json_accepts_all demo_world 0).

(** The vault [/v] with the [Daily] folder in place. *)
Definition vault_with_daily_folder : fs :=
  {| fs_objs := list_to_map [("/v", FDir); ("/v/.obsidian", FDir); ("/v/Daily", FDir)];
     fs_no_read := ∅;
     fs_no_write := ∅;
     fs_short_write := ∅ |}.

(** The record of a registered vault. *)
Definition registered_V : vault :=
  {| v_name := "V";
     v_path := "/home/u/V";
     v_config_path := "/home/u/V/.obsidian";
     v_note_count := 0;
     v_recent_notes := [];
     v_vault_id := Some "4f2a";
     v_is_registered := true |}.

(** Two vaults, the path of the first being a prefix of the path of the
    second. *)
Definition notes_vault : vault :=
  {| v_name := "Notes"; v_path := "/v/Notes"; v_config_path := "/v/Notes/.obsidian";
     v_note_count := 0; v_recent_notes := []; v_vault_id := None;
     v_is_registered := false |}.

Definition notes2_vault : vault :=
  {| v_name := "Notes2"; v_path := "/v/Notes2"; v_config_path := "/v/Notes2/.obsidian";
     v_note_count := 0; v_recent_notes := []; v_vault_id := None;
     v_is_registered := false |}.

(** A vault with a note whose modification time has no calendar date. *)
Definition far_vault : node :=
  Dir "v" true
    [ Dir ".obsidian" true [];
      File "far.md" (Some "hello") (Some 253402300800);
      File "near.md" (Some "hello") (Some 1700000000) ].

Definition far_world : world :=
  {| w_registered_vaults := []; w_search_paths := [("/v", far_vault)] |}.

Definition far_tree (p : string) : node :=
  if String.eqb p "/v" then far_vault else File "" None None.

Fixpoint repeat_string (k : nat) (s : string) : string :=
  match k with
  | O => ""
  | S k' => s +:+ repeat_string k' s
  end.

End PluginDemo.

Import PluginDemo.

Example split_and_strip_examples :
  split_spaces "  obs   new  my note " = ["obs"; "new"; "my"; "note"]
  /\ strip_spaces "  a b  " = "a b"
  /\ join_words ["my"; "note"] = "my note".
Proof. repeat split. Qed.

Example recent_notes_are_the_newest :
  get_vault_info json_accepts_all "/v"
    [ File "a.md" None (Some 10); File "b.md" None (Some 60); File "c.md" None (Some 30);
      File "d.md" None (Some 50); File "e.md" None (Some 20); File "f.md" None (Some 40);
      File "g.md" None None; File "notes.txt" None (Some 70);
      Dir ".trash" true [ File "h.md" None (Some 80) ] ]
  = (7%nat, [("/v/b.md", 60); ("/v/d.md", 50); ("/v/f.md", 40); ("/v/c.md", 30);
             ("/v/e.md", 20)]).
Proof. vm_compute. reflexivity. Qed.

Lemma get_vault_info_lists_visible_notes_witness :
  let children := [ File "a.md" None (Some 10); File "g.md" None None;
                    Dir ".trash" true [ File "h.md" None (Some 80) ] ] in
  let info := get_vault_info json_accepts_all "/v" children in
  md_files "/v" (Dir "" true children) = [("/v/a.md", Some 10); ("/v/g.md", None)]
  /\ fst info = 2%nat
  /\ In ("/v/a.md", 10) (snd info).
Proof.
  cbv zeta.
  destruct (get_vault_info_lists_visible_notes json_accepts_all "/v"
              [ File "a.md" None (Some 10); File "g.md" None None;
                Dir ".trash" true [ File "h.md" None (Some 80) ] ])
    as (_ & Hcount & _ & Hlisted & _).
  split; [reflexivity|]. split.
  - rewrite Hcount by reflexivity. reflexivity.
  - destruct (Hlisted "/v/a.md" 10 eq_refl) as [H|H].
    + now left.
    + exact H.
    + vm_compute in H. discriminate H.
Defined.

Example invalid_config_hides_the_notes :
  get_vault_info (fun text => false) "/v"
    [ Dir ".obsidian" true [ File "config" (Some "{") (Some 1) ];
      File "a.md" (Some "text") (Some 10) ]
  = (0%nat, []).
Proof. vm_compute. reflexivity. Qed.

Lemma search_notes_returns_matching_notes_witness :
  let h := {| h_file := "a.md"; h_path := "/v/notes/a.md"; h_rel_path := "notes/a.md";
              h_title := "a"; h_preview := "Hello world"; h_date := "2023-11-14";
              h_mtime := 1700000000 |} in
  In h (search_notes ascii_lower relpath_under utc_date_of "/v" scenario_vault "hello" 10)
  /\ exists comps f text t,
       yields search_keeps "/v" scenario_vault (fold_left join comps "/v") f
         (Some text) (Some t)
       /\ Forall (fun d => startswith d "." = false) comps
       /\ endswith f ".md" = true
       /\ (contains (ascii_lower "hello") (ascii_lower (drop_last 3 f)) = true
           \/ contains (ascii_lower "hello") (ascii_lower text) = true)
       /\ h_file h = f
       /\ h_path h = join (fold_left join comps "/v") f
       /\ h_rel_path h = relpath_under (h_path h) "/v"
       /\ h_title h = drop_last 3 f
       /\ utc_date_of t = Some (h_date h)
       /\ h_mtime h = t.
Proof.
  cbv zeta.
  assert (Hin : In {| h_file := "a.md"; h_path := "/v/notes/a.md";
                      h_rel_path := "notes/a.md"; h_title := "a";
                      h_preview := "Hello world"; h_date := "2023-11-14";
                      h_mtime := 1700000000 |}
                  (search_notes ascii_lower relpath_under utc_date_of "/v" scenario_vault
                     "hello" 10))
    by (vm_compute; left; reflexivity).
  split; [exact Hin|].
  exact (search_notes_returns_matching_notes ascii_lower relpath_under utc_date_of "/v"
           scenario_vault "hello" 10 _ Hin).
Defined.

Lemma search_notes_finds_matching_notes_witness :
  In {| h_file := "b.md"; h_path := "/v/b.md"; h_rel_path := "b.md"; h_title := "b";
        h_preview := "say hello"; h_date := "1970-01-01"; h_mtime := 200 |}
     (search_notes ascii_lower relpath_under utc_date_of "/v" two_note_vault "hello" 10).
Proof.
  destruct (search_notes_finds_matching_notes ascii_lower relpath_under utc_date_of "/v"
              two_note_vault "hello" 10 "/v" "b.md" "say hello" 200 "1970-01-01")
    as [H|H].
  - lia.
  - apply yields_here. now left.
  - reflexivity.
  - right. reflexivity.
  - reflexivity.
  - exact H.
  - vm_compute in H. discriminate H.
Defined.

(** A note whose modification time lies after the year 9999 is left out of
    the search, and the preview counts characters, not bytes: sixty letters
    of two bytes each are kept whole, a hundred and one are cut after the
    hundredth. *)
Example search_edge_cases :
  map h_title (search_notes ascii_lower relpath_under utc_date_of "/v" far_vault "hello" 10)
  = ["near"]
  /\ String.length (repeat_string 60 "é") = 120%nat
  /\ first_line_preview (repeat_string 60 "é") = repeat_string 60 "é"
  /\ first_line_preview (repeat_string 101 "é") = repeat_string 100 "é" +:+ "...".
Proof. repeat split; vm_compute; reflexivity. Qed.

Example empty_query_finds_every_note :
  map h_title (search_notes ascii_lower relpath_under utc_date_of "/v" two_note_vault "" 10)
  = ["b"; "hello"].
Proof. vm_compute. reflexivity. Qed.

Lemma find_vaults_returns_search_root_vault_witness :
  exists v,
    In v (find_vaults json_accepts_all registry
            [("/home/u", home); ("/home/u/Documents/V", vault_dir "V")])
    /\ v_path v = "/home/u/Documents/V".
Proof.
  apply (find_vaults_returns_search_root_vault json_accepts_all registry
           [("/home/u", home); ("/home/u/Documents/V", vault_dir "V")]
           "/home/u/Documents/V" "V"
           [ Dir ".obsidian" true []; File "note.md" (Some "text") (Some 1700000000) ]).
  - right. now left.
  - reflexivity.
Defined.

Lemma find_vaults_records_witness :
  In vault_V (find_vaults json_accepts_all registry [("/home/u", home)])
  /\ v_name vault_V = basename (v_path vault_V)
  /\ v_config_path vault_V = join (v_path vault_V) ".obsidian"
  /\ (forall id, v_vault_id vault_V = Some id -> In (id, Some (v_path vault_V)) registry)
  /\ (v_vault_id vault_V = None -> forall id, ~ In (id, Some (v_path vault_V)) registry)
  /\ (v_is_registered vault_V = true <-> v_vault_id vault_V <> None)
  /\ (length (v_recent_notes vault_V) <= 5)%nat
  /\ (length (v_recent_notes vault_V) <= v_note_count vault_V)%nat.
Proof.
  assert (Hin : In vault_V (find_vaults json_accepts_all registry [("/home/u", home)]))
    by (vm_compute; left; reflexivity).
  split; [exact Hin|].
  exact (find_vaults_records json_accepts_all registry [("/home/u", home)] vault_V Hin).
Defined.

Lemma obsidian_to_python_format_keeps_other_text_witness :
  obsidian_to_python_format false "[Y] M-d, dd" = "[Y] M-d, dd".
Proof.
  apply (obsidian_to_python_format_keeps_other_text false "[Y] M-d, dd"); reflexivity.
Defined.

Example letters_of_a_word_are_tokens :
  obsidian_to_python_format false "Daily YYYY" = "%-daily %Y"
  /\ obsidian_to_python_format false "Ddd" = "%-%a".
Proof. split; reflexivity. Qed.

Lemma format_mapping_tokens_translate_witness :
  obsidian_to_python_format true "MMM" = "%b".
Proof.
  apply (format_mapping_tokens_translate true "MMM" "%b").
  cbn [format_mapping In]. do 3 right. now left.
Defined.

Lemma process_template_keeps_text_without_variables_witness :
  process_template (clock "12") "Tasks {today}" "2024-03-09" = "Tasks {today}".
Proof.
  apply (process_template_keeps_text_without_variables (clock "12") "Tasks {today}"
           "2024-03-09").
  reflexivity.
Defined.

Example process_template_example :
  process_template (clock "12") "# {{title}} ({{date}} {{time}})" "Plan"
  = "# Plan (2024-03-09 10:11)".
Proof. vm_compute. reflexivity. Qed.

Lemma new_daily_note_content_witness :
  let call := create_daily_note_with_template relpath_under (clock "12") "/v" "/v/Daily"
                "2024-03-09" None vault_with_daily_folder in
  exists text,
    fs_objs (state_of call)
    = <["/v/Daily/2024-03-09.md" := FFile text]> (fs_objs vault_with_daily_folder)
    /\ text <> ""
    /\ text = default_daily_content (clock "12") "2024-03-09".
Proof.
  cbv zeta.
  destruct (new_daily_note_content relpath_under (clock "12") "/v" "/v/Daily"
              "2024-03-09" None vault_with_daily_folder
              (state_of (create_daily_note_with_template relpath_under (clock "12") "/v"
                           "/v/Daily" "2024-03-09" None vault_with_daily_folder))
              "/v/Daily/2024-03-09.md" "Daily/2024-03-09.md")
    as (text & Hobjs & Hne & Hdefault & _).
  - vm_compute. reflexivity.
  - vm_compute. reflexivity.
  - exists text. split; [exact Hobjs|]. split; [exact Hne|]. now apply Hdefault.
Defined.

Example sanitize_examples :
  sanitize "a/b: c?" = "a_b_ c_" /\ sanitize "plain title" = "plain title"
  /\ sanitize "../up" = ".._up".
Proof. repeat split. Qed.

Lemma create_new_note_takes_first_free_name_witness :
  exists name,
    "/v/idea 2.md" = join "/v" name
    /\ all_chars no_slash name = true
    /\ ((name = sanitize "idea" +:+ ".md"
         /\ fs_objs vault_with_ideas !! "/v/idea 2.md" = None)
        \/ (is_Some (fs_objs vault_with_ideas !! join "/v" (sanitize "idea" +:+ ".md"))
            /\ exists k, (1 <= k)%nat
                 /\ name = sanitize "idea" +:+ " " +:+ pretty k +:+ ".md"
                 /\ fs_objs vault_with_ideas !! "/v/idea 2.md" = None
                 /\ forall j, (1 <= j < k)%nat ->
                      is_Some (fs_objs vault_with_ideas
                               !! numbered_name "/v" (sanitize "idea") j))).
Proof.
  apply (create_new_note_takes_first_free_name relpath_under 5 (clock "12") "/v" "idea"
           vault_with_ideas
           (with_objs (<["/v/idea 2.md" := FFile (new_note_content (clock "12") "idea")]>
                         (fs_objs vault_with_ideas)) vault_with_ideas)
           "/v/idea 2.md" "idea 2.md").
  vm_compute. reflexivity.
Defined.

Lemma create_new_note_twice_witness :
  let s1 := with_objs (<["/v/idea 2.md" := FFile (new_note_content (clock "12") "idea")]>
                         (fs_objs vault_with_ideas)) vault_with_ideas in
  let s2 := with_objs (<["/v/idea 3.md" := FFile (new_note_content (clock "13") "idea")]>
                         (fs_objs s1)) s1 in
  "/v/idea 2.md" <> "/v/idea 3.md"
  /\ fs_objs s2 !! "/v/idea 2.md" = Some (FFile (new_note_content (clock "12") "idea"))
  /\ fs_objs s2 !! "/v/idea 3.md" = Some (FFile (new_note_content (clock "13") "idea")).
Proof.
  cbv zeta.
  set (s1 := with_objs (<["/v/idea 2.md" := FFile (new_note_content (clock "12") "idea")]>
                           (fs_objs vault_with_ideas)) vault_with_ideas).
  apply (create_new_note_twice relpath_under 5 6 (clock "12") (clock "13") "/v" "idea"
           vault_with_ideas s1
           (with_objs (<["/v/idea 3.md" := FFile (new_note_content (clock "13") "idea")]>
                         (fs_objs s1)) s1)
           "/v/idea 2.md" "idea 2.md" "/v/idea 3.md" "idea 3.md").
  - vm_compute. reflexivity.
  - vm_compute. reflexivity.
Defined.

Example launch_obsidian_examples :
  launch_obsidian "Linux" quote_plain obliging None None (Some 1) [registered_V] None
    (Some "/home/u/V") []
  = (Some true, [WebbrowserOpen "obsidian://open?vault=4f2a"])
  /\ launch_obsidian "Linux" quote_plain obliging None None (Some 1) [registered_V] None
       (Some "/home/u/W") []
     = (Some false, [])
  /\ launch_obsidian "Linux" quote_plain obliging None None (Some 1) [notes_vault] None
       (Some "/v/Notes") []
     = (Some true, [WebbrowserOpen "obsidian://open"; Sleep 2;
                    WebbrowserOpen "obsidian://open?vault=Notes"])
  /\ launch_obsidian "Windows" quote_plain obliging (Some "Obsidian.exe") None None
       [notes_vault] (Some "C:/Obsidian.exe") (Some "/v/Notes") []
     = (Some true, [Popen ["C:/Obsidian.exe"; "--path " +:+ dquote +:+ "/v/Notes" +:+ dquote]])
  /\ launch_obsidian "Linux" quote_plain obliging None None (Some 0) [] None None []
     = (Some true, [WebbrowserOpen "obsidian://open"]).
Proof. repeat split. Qed.

Lemma launch_obsidian_by_vault_path_witness :
  launch_obsidian "Linux" quote_plain obliging None None (Some 1) [registered_V] None
    (Some "/home/u/W") []
  = (Some false, [])
  /\ launch_obsidian "Linux" quote_plain obliging None None (Some 1) [registered_V] None
       (Some (v_path registered_V)) []
     = (Some true, [WebbrowserOpen "obsidian://open?vault=4f2a"]).
Proof.
  split.
  - apply (proj1 (launch_obsidian_by_vault_path "Linux" quote_plain obliging None None
                    (Some 1) [registered_V] None []) "/home/u/W").
    + discriminate.
    + intros v [<-|[]]. discriminate.
  - apply (proj2 (launch_obsidian_by_vault_path "Linux" quote_plain obliging None None
                    (Some 1) [registered_V] None []) registered_V "4f2a").
    + repeat constructor. intros [].
    + now left.
    + discriminate.
    + reflexivity.
    + reflexivity.
    + discriminate.
Defined.

(** The prefix test of [open_note] is on strings: a note of the vault
    [/v/Notes2] is opened in the vault [/v/Notes], which comes first. *)
Example open_note_examples :
  (forall relpath,
      open_note "Linux" quote_plain relpath obliging [notes_vault; notes2_vault]
        "/v/Notes2/a.md" []
      = (Some true, [WebbrowserOpen ("obsidian://open?vault=Notes&file="
                                     +:+ relpath "/v/Notes2/a.md" "/v/Notes")]))
  /\ open_note "Linux" quote_plain relpath_under obliging [notes_vault; notes2_vault]
       "/v/Notes/sub/a.md" []
     = (Some true, [WebbrowserOpen "obsidian://open?vault=Notes&file=sub/a.md"])
  /\ open_note "Linux" quote_plain relpath_under obliging [notes_vault; notes2_vault]
       "/tmp/a.md" []
     = (Some true, [Run ["xdg-open"; "/tmp/a.md"]]).
Proof. repeat split. Qed.

Lemma open_note_target_witness :
  open_note "Linux" quote_plain relpath_under obliging [notes_vault; notes2_vault]
    "/tmp/a.md" []
  = (Some true, [Run ["xdg-open"; "/tmp/a.md"]])
  /\ open_note "Linux" quote_plain relpath_under obliging [notes_vault; notes2_vault]
       "/v/Notes2/b/a.md" []
     = (Some true,
        [WebbrowserOpen ("obsidian://open?vault="
                         +:+ quote_plain (basename (v_path notes_vault))
                         +:+ "&file="
                         +:+ quote_plain (relpath_under "/v/Notes2/b/a.md"
                                            (v_path notes_vault)))]).
Proof.
  split.
  - apply (proj1 (open_note_target "Linux" quote_plain relpath_under obliging
                    [notes_vault; notes2_vault] "/tmp/a.md" [])).
    intros v [<-|[<-|[]]]; reflexivity.
  - apply (proj2 (open_note_target "Linux" quote_plain relpath_under obliging
                    [notes_vault; notes2_vault] "/v/Notes2/b/a.md" [])
             [] notes_vault [notes2_vault]).
    + reflexivity.
    + intros u [].
    + reflexivity.
    + discriminate.
Defined.

Lemma show_commands_only_confirm_witness :
  let it := action_item "üöÄ obs open" "Open Obsidian" "execute_command" ["open"] in
  In it show_commands
  /\ exists command,
       JsonRPCAction it = Some ("execute_command", [command])
       /\ In command known_commands
       /\ forall trace,
            execute_command "Linux" quote_plain obliging None None (Some 1) [] None
              command trace
            = (Some [plain_item ("‚úÖ Command Executed: " +:+ command)
                                ("Executed " +:+ command +:+ " command")], trace).
Proof.
  cbv zeta.
  assert (Hin : In (action_item "üöÄ obs open" "Open Obsidian" "execute_command" ["open"])
                  show_commands)
    by (do 6 right; left; reflexivity).
  split; [exact Hin|].
  exact (show_commands_only_confirm "Linux" quote_plain obliging None None (Some 1) []
           None _ Hin).
Defined.

Example query_examples :
  p_vaults (fst (demo_query (QueryList ["hello"])))
  = [ {| v_name := "v"; v_path := "/v"; v_config_path := "/v/.obsidian";
         v_note_count := 1; v_recent_notes := [("/v/notes/a.md", 1700000000)];
         v_vault_id := None; v_is_registered := false |} ]
  /\ snd (demo_query (QueryList ["hello"])) fresh_vault
     = Returns (Some [action_item "üìù a" "üìÅ v ‚Ä¢ 2023-11-14" "open_note"
                                  ["/v/notes/a.md"]]) fresh_vault
  /\ snd (demo_query (QueryStr "  SEARCH   hello  world ")) fresh_vault
     = Returns (Some [action_item "üìù a" "üìÅ v ‚Ä¢ 2023-11-14 ‚Ä¢ Hello world"
                                  "open_note" ["/v/notes/a.md"]]) fresh_vault
  /\ snd (demo_query (QueryStr "recent")) fresh_vault
     = Returns (Some [action_item "üïê a" "üìÅ v ‚Ä¢ 2023-11-14" "open_note"
                                  ["/v/notes/a.md"]]) fresh_vault
  /\ snd (demo_query QueryNone) fresh_vault
     = Returns (Some [ action_item "üìî Obsidian Notes (üü¢ Running)"
                                   "1 vault found ‚Ä¢ Click to see commands"
                                   "show_commands" [];
                       action_item "üìÅ Open Vaults" "Show all 1 available vault"
                                   "show_vaults" [];
                       action_item "üìÅ v" "1 notes ‚Ä¢ /v" "open_vault" ["/v"] ])
         fresh_vault.
Proof. repeat split; vm_compute; reflexivity. Qed.

(** The exception of [os.makedirs] leaves [query]. *)
Example query_daily_examples :
  snd (demo_query (QueryStr "daily")) fresh_vault
  = Returns (Some [action_item "‚úÖ Daily Note Created" "üìÅ v/Daily/2024-03-09.md"
                               "open_note" ["/v/Daily/2024-03-09.md"]])
      (state_of (snd (demo_query (QueryStr "daily")) fresh_vault))
  /\ snd (demo_query (QueryStr "daily")) vault_with_file_named_daily
     = Raises FileExistsError vault_with_file_named_daily.
Proof. split; vm_compute; reflexivity. Qed.

Lemma query_general_search_witness :
  let vaults := p_vaults (fst (demo_query (QueryList ["hello"; "world"]))) in
  let found := found_in ascii_lower relpath_under utc_date_of demo_tree in
  exists items,
    (forall s, snd (demo_query (QueryList ["hello"; "world"])) s = Returns (Some items) s)
    /\ (1 <= length items <= 10)%nat
    /\ (forall vault h,
          In vault vaults -> In h (found vault "hello world" 3) ->
          In (general_item vault h) items \/ length items = 10%nat)
    /\ (forall it, In it items ->
          JsonRPCAction it = None
          \/ exists vault h,
               In vault vaults /\ In h (found vault "hello world" 3)
               /\ it = general_item vault h)
    /\ ((forall vault, In vault vaults -> found vault "hello world" 3 = []) ->
        items = match vaults with
                | [] => no_vaults_found
                | _ :: _ =>
                    [plain_item ("üîç No notes found for '" +:+ "hello world" +:+ "'")
                                "Try different keywords or create a new note"]
                end).
Proof.
  apply (query_general_search ascii_lower strip_spaces split_spaces relpath_under utc_date_of
           raises_ValueError json_accepts_all parse_nothing "Linux" None None (Some 0) demo_tree
           (clock "12") (QueryList ["hello"; "world"]) demo_world 1000 1001
           (init json_accepts_all demo_world 0) "hello" ["world"]).
  - reflexivity.
  - cbn. intuition discriminate.
Defined.

Lemma query_search_command_witness :
  let vaults := p_vaults (fst (demo_query (QueryStr "Search hello"))) in
  let found := found_in ascii_lower relpath_under utc_date_of demo_tree in
  exists items,
    (forall s, snd (demo_query (QueryStr "Search hello")) s = Returns (Some items) s)
    /\ (1 <= length items)%nat
    /\ (length items <= Nat.max 1 (5 * length vaults))%nat
    /\ ("hello" <> "" ->
        forall vault h,
          In vault vaults -> In h (found vault "hello" 5) -> In (search_item vault h) items)
    /\ (forall it, In it items ->
          JsonRPCAction it = None
          \/ exists vault h,
               In vault vaults /\ In h (found vault "hello" 5) /\ it = search_item vault h)
    /\ ("hello" <> "" -> vaults <> [] ->
        (forall vault, In vault vaults -> found vault "hello" 5 = []) ->
        items = [plain_item ("üîç No results for '" +:+ "hello" +:+ "'")
                            "Try different keywords"])
    /\ ("hello" = "" \/ vaults = [] ->
        items = [plain_item "üîç Search Notes" "Usage: obs search [query]"]).
Proof.
  apply (query_search_command ascii_lower strip_spaces split_spaces relpath_under utc_date_of
           raises_ValueError json_accepts_all parse_nothing "Linux" None None (Some 0) demo_tree
           (clock "12") (QueryStr "Search hello") demo_world 1000 1001
           (init json_accepts_all demo_world 0) "Search" ["hello"]).
  - reflexivity.
  - reflexivity.
Defined.

Lemma query_help_returns_nothing_witness :
  snd (demo_query (QueryStr "help me")) fresh_vault = Returns None fresh_vault.
Proof.
  apply (query_help_returns_nothing ascii_lower strip_spaces split_spaces relpath_under
           utc_date_of raises_ValueError json_accepts_all parse_nothing "Linux" None None
           (Some 0) demo_tree
           (clock "12") (QueryStr "help me") demo_world 1000 1001
           (init json_accepts_all demo_world 0) "help" ["me"] fresh_vault).
  - reflexivity.
  - reflexivity.
Defined.

Lemma query_leaves_files_alone_witness :
  state_of (snd (demo_query (QueryStr "vault v")) fresh_vault) = fresh_vault
  /\ exists result,
       snd (demo_query (QueryStr "vault v")) fresh_vault = Returns result fresh_vault.
Proof.
  destruct (query_leaves_files_alone ascii_lower strip_spaces split_spaces relpath_under
              utc_date_of raises_ValueError json_accepts_all parse_nothing "Linux" None
              None (Some 0)
              demo_tree (clock "12") (QueryStr "vault v") demo_world 1000 1001
              (init json_accepts_all demo_world 0) fresh_vault)
    as (Hstate & Hreturns & _).
  - intros first rest [= <- <-]. split; discriminate.
  - split; [exact Hstate|]. apply Hreturns.
    intros first rest [= <- <-]. discriminate.
Defined.

(** The command [recent] on a vault with a note whose modification time has
    no calendar date: the exception leaves [query]. *)
Example query_recent_raises :
  snd (query ascii_lower strip_spaces split_spaces relpath_under utc_date_of
         raises_ValueError
         json_accepts_all parse_nothing "Linux" None None (Some 0) far_tree (clock "12")
         (QueryStr "recent") far_world 1000 1001 (init json_accepts_all far_world 0))
    fresh_vault
  = Raises ValueError fresh_vault.
Proof. vm_compute. reflexivity. Qed.

Lemma query_new_note_witness :
  exists name,
    all_chars no_slash name = true
    /\ fs_objs fresh_vault !! join "/v" name = None
    /\ snd (demo_query (QueryStr "new my idea")) fresh_vault
       = Returns (Some [action_item "‚úÖ Note Created: my idea"
                                    ("üìÅ v/" +:+ relpath_under (join "/v" name) "/v")
                                    "open_note" [join "/v" name]])
           (with_objs (<[join "/v" name := FFile (new_note_content (clock "12") "my idea")]>
                         (fs_objs fresh_vault)) fresh_vault).
Proof.
  destruct (query_new_note ascii_lower strip_spaces split_spaces relpath_under utc_date_of
              raises_ValueError
              json_accepts_all parse_nothing "Linux" None None (Some 0) demo_tree
              (clock "12") (QueryStr "new my idea") demo_world 1000 1001
              (init json_accepts_all demo_world 0) "new" ["my"; "idea"]
              {| v_name := "v"; v_path := "/v"; v_config_path := "/v/.obsidian";
                 v_note_count := 1;
                 v_recent_notes := [("/v/notes/a.md", 1700000000)];
                 v_vault_id := None; v_is_registered := false |} [] fresh_vault)
    as (name & Hname & Hfree & [H|[H|(k & Hk & H)]]).
  - reflexivity.
  - reflexivity.
  - discriminate.
  - vm_compute. reflexivity.
  - exists name. split; [exact Hname|]. split; [exact Hfree|]. exact H.
  - exfalso.
    assert (Hcall : snd (demo_query (QueryStr "new my idea")) fresh_vault
                    = Returns (Some [action_item "‚úÖ Note Created: my idea"
                                                 "üìÅ v/my idea.md" "open_note"
                                                 ["/v/my idea.md"]])
                        (with_objs (<["/v/my idea.md" :=
                                        FFile (new_note_content (clock "12") "my idea")]>
                                      (fs_objs fresh_vault)) fresh_vault))
      by (vm_compute; reflexivity).
    unfold demo_query in Hcall. rewrite Hcall in H. discriminate H.
  - exfalso. discriminate Hk.
Defined.

Example query_new_note_example :
  snd (demo_query (QueryStr "new my idea")) fresh_vault
  = Returns (Some [action_item "‚úÖ Note Created: my idea" "üìÅ v/my idea.md" "open_note"
                               ["/v/my idea.md"]])
      (with_objs (<["/v/my idea.md" := FFile (new_note_content (clock "12") "my idea")]>
                    (fs_objs fresh_vault)) fresh_vault).
Proof. vm_compute. reflexivity. Qed.

Example create_daily_note_in_vault_examples :
  let v := {| v_name := "v"; v_path := "/v"; v_config_path := "/v/.obsidian";
              v_note_count := 0; v_recent_notes := []; v_vault_id := None;
              v_is_registered := false |} in
  create_daily_note_in_vault relpath_under parse_nothing "Linux" quote_plain
    (fun a => true) (clock "12") [v] "/v" fresh_vault []
  = (Returns [plain_item "‚úÖ Daily Note Created in v"
                         "üìÅ v/Daily/2024-03-09.md - Opened in Obsidian"]
       (state_of (create_daily_note relpath_under parse_nothing false (clock "12") "/v"
                    None fresh_vault)),
     [])
  /\ create_daily_note_in_vault relpath_under parse_nothing "Linux" quote_plain
       obliging (clock "12") [v] "/v" vault_with_file_named_daily []
     = (Raises FileExistsError vault_with_file_named_daily, []).
Proof. split; vm_compute; reflexivity. Qed.
